(** * The presentation client of the video-analysis service

    A shallow embedding of the React client: the result viewer
    ([AnalysisResults]), the upload widget ([VideoUpload]) and the polling
    shell ([App]), followed by the properties of the result payload
    handling and of the task-state contract that the client relies on.

    Conventions of the embedding.
    - A JavaScript number is the value of an IEEE double, held as a
      rational ([Q]).  An arithmetic operation is the exact operation
      followed by rounding to the nearest double, ties to even
      ([Double.round]); comparisons, [Math.floor], [Math.round] and
      [toFixed] work on the value itself.  A division whose result is not
      finite (divisor zero) is [None]; magnitudes beyond the range of
      doubles do not occur among times, pixels, scores and byte counts.
    - A property that may be [undefined] is an [option]; [a || b] is written
      out with JavaScript's truthiness (zero and the empty string are falsy).
    - React state is an explicit record, an event handler is a function from
      state to state, and JSX is a small tree of nodes.
    - A request is sent by one event and answered by another; [Session]
      keeps the requests that are in flight, and nothing cancels one. *)

From Stdlib Require Import ZArith QArith Qround Qabs Qpower Ascii String List Lia Lqa Bool.
From stdpp Require Import base option list gmap strings pretty.

#[local] Set Warnings "-register-all".

Local Open Scope Z_scope.
Local Open Scope string_scope.

(** ** IEEE doubles *)

Module Double.

(** The exponent of the power of two at or below a positive number:
    [2 ^ k <= x < 2 ^ (k + 1)]. *)
Definition log2floor (x : Q) : Z :=
  let k := Z.log2 (Qnum x) - Z.log2 (Zpos (Qden x)) in
  if Qle_bool (2 ^ k) x then k else k - 1.

(** The exponent of the unit in the last place of the doubles around a
    positive number: 53 significant bits, and no exponent below that of
    the subnormal numbers. *)
Definition ulpExponent (x : Q) : Z := Z.max (-1074) (log2floor x - 52).

(** The integer nearest to [q], the even one on a tie. *)
Definition nearestEven (q : Q) : Z :=
  let f := Qfloor q in
  match (q - inject_Z f ?= 1 # 2)%Q with
  | Lt => f
  | Gt => f + 1
  | Eq => if Z.even f then f else f + 1
  end.

(** A positive number, rounded to the nearest multiple of that unit. *)
Definition roundPositive (x : Q) : Q :=
  let e := ulpExponent x in
  (inject_Z (nearestEven (x / 2 ^ e)) * 2 ^ e)%Q.

(** The double nearest to [x], ties to even, in lowest terms. *)
Definition round (x : Q) : Q :=
  match (x ?= 0)%Q with
  | Eq => 0%Q
  | Gt => Qred (roundPositive x)
  | Lt => Qred (- roundPositive (- x))
  end.

End Double.

Arguments Double.round : simpl never.

(** ** JavaScript values *)

Module JS.

(** Truthiness of a number: zero is falsy. *)
Definition truthy_num (q : Q) : bool := negb (Qeq_bool q 0).

(** Truthiness of a string: the empty string is falsy. *)
Definition truthy_str (s : string) : bool := negb (String.eqb s "").

(** [a || b] on numbers. *)
Definition or_num (a b : Q) : Q := if truthy_num a then a else b.

(** [a || b] where [a] may be undefined. *)
Definition undef_or_num (a : option Q) (b : Q) : Q :=
  match a with
  | Some q => or_num q b
  | None => b
  end.

(** [a || b] on strings, [a] possibly undefined. *)
Definition undef_or_str (a : option string) (b : string) : string :=
  match a with
  | Some s => if truthy_str s then s else b
  | None => b
  end.

(** Truthiness of a string that may be null. *)
Definition truthy_opt_str (a : option string) : bool :=
  match a with
  | Some s => truthy_str s
  | None => false
  end.

(** A decimal literal of the source denotes the nearest double. *)
Definition literal (q : Q) : Q := Double.round q.

(** [a + b], [a - b] and [a * b]. *)
Definition add (a b : Q) : Q := Double.round (a + b).
Definition sub (a b : Q) : Q := Double.round (a - b).
Definition mul (a b : Q) : Q := Double.round (a * b).

(** [a / b] for a divisor that is not zero. *)
Definition quot (a b : Q) : Q := Double.round (a / b).

(** [a / b]; [None] when the quotient is not a finite number. *)
Definition div (a b : Q) : option Q :=
  if Qeq_bool b 0 then None else Some (quot a b).

(** [Math.max(0, Math.floor(x))]. *)
Definition floor_nonneg (x : Q) : Z := Z.max 0 (Qfloor x).

(** [x.toFixed(1)]: the sign, then the integer nearest to [10 |x|]
    (the larger one on a tie) printed with one decimal.  Magnitudes of
    1e21 and above, which JavaScript prints with an exponent, do not
    occur among scores and distances. *)
Definition toFixed1 (x : Q) : string :=
  let n := Qfloor (Qabs x * 10 + (1 # 2))%Q in
  (if Qle_bool 0 x then "" else "-")
    +:+ pretty (n / 10) +:+ "." +:+ pretty (n mod 10).

End JS.

(** ** The result payload *)

Module Player.
(** One entry of a frame's [players] list.  [bbox] is
    [[x1, y1, x2, y2]] in source-video pixels; [openscore] is optional. *)
Record t := mk {
  track_id : Z;
  bbox : Q * Q * Q * Q;
  openscore : option Q
}.
End Player.

Module Frame.
Record t := mk {
  frame_id : Z;
  players : option (list Player.t)
}.
End Frame.

Module PlayerContext.
(** An entry of [feedback.player_contexts]. *)
Record t := mk {
  nearest_defender_distance : Q;
  num_nearby_defenders : Z;
  closing_speed : Q
}.
End PlayerContext.

Module Statistics.
Record t := mk {
  total_receivers_tracked : Z;
  avg_openscore_all_receivers : option Q;
  total_players_detected : Z
}.
End Statistics.

Module BestOption.
Record t := mk {
  receiver : string;
  avg_openscore : Q;
  max_openscore : Q;
  consistency : Q
}.
End BestOption.

Module Missed.
Record t := mk {
  receiver : string;
  peak_openscore : Q;
  avg_openscore : Q;
  note : string
}.
End Missed.

Module Moment.
Record t := mk {
  frame : Z;
  description : string;
  openscore : Q
}.
End Moment.

Module Feedback.
(** [feedback]; a field that the viewer dereferences without a default
    is optional here so that a missing one is a [TypeError]. *)
Record t := mk {
  overall_grade : string;
  overall_score : Q;
  summary : string;
  statistics : option Statistics.t;
  strengths : option (list string);
  areas_for_improvement : option (list string);
  recommendations : option (list string);
  best_options : option (list BestOption.t);
  missed_opportunities : option (list Missed.t);
  key_moments : option (list Moment.t);
  ai_openscore_explanations : option (gmap string string);
  player_contexts : option (gmap string PlayerContext.t)
}.
End Feedback.

Module Results.
(** [results.results]. *)
Record body := mkBody {
  feedback : option Feedback.t;
  fps : option Q;
  frame_data : option (list Frame.t);
  video_width : option Q;
  video_height : option Q
}.

(** The response of [getResults]. *)
Record t := mk { results : option body }.
End Results.

(** ** Rendered output *)

Inductive cssval :=
| CssNum (q : Q) (unit : string)
| CssStr (s : string).

(** What a component returns: elements with tag, class name, inline style
    and children; text; interpolated numbers; child components, which are
    not expanded. *)
Inductive node :=
| El (tag className : string) (style : list (string * cssval)) (children : list node)
| Text (s : string)
| Num (q : Q)
| Int (z : Z)
| Comp (name : string).

Definition el (tag className : string) (children : list node) : node :=
  El tag className [] children.

(** [{cond && <jsx/>}]. *)
Definition when (cond : bool) (children : list node) : list node :=
  if cond then children else [].

(** Class names of all elements of a tree, in document order. *)
Fixpoint classNames (n : node) : list string :=
  match n with
  | El _ c _ children => c :: flat_map classNames children
  | _ => []
  end.

(** Text and numbers of a tree, in document order. *)
Fixpoint leaves (n : node) : list node :=
  match n with
  | El _ _ _ children => flat_map leaves children
  | Comp _ => []
  | leaf => [leaf]
  end.

(** ** AnalysisResults: the viewer with feedback sections and overlay *)

Module AnalysisResults.

(** [videoRef.current], as far as the component reads it. *)
Record VideoEl := mkVideo {
  currentTime : Q;
  paused : bool;
  videoWidth : Q;
  videoHeight : Q
}.

(** [overlayRef.current.getBoundingClientRect()]. *)
Record DOMRect := mkRect { left : Q; top : Q; width : Q; height : Q }.

Record Refs := mkRefs {
  videoRef : option VideoEl;
  overlayRef : option DOMRect
}.

Record MouseEvent := mkMouse { clientX : Q; clientY : Q }.

(** The three [useState] cells. *)
Record State := mkState {
  activePlayers : list Player.t;
  hoveredPlayer : option Player.t;
  tooltipPos : Q * Q
}.

Definition initial : State := mkState [] None (0, 0)%Q.

Definition setActivePlayers (ps : list Player.t) (st : State) : State :=
  mkState ps (hoveredPlayer st) (tooltipPos st).

Definition setHoveredPlayer (p : option Player.t) (st : State) : State :=
  mkState (activePlayers st) p (tooltipPos st).

Definition setTooltipPos (pos : Q * Q) (st : State) : State :=
  mkState (activePlayers st) (hoveredPlayer st) pos.

Section Component.
(** [results.results], past the null check. *)
Variable r : Results.body.

Definition fps : Q := JS.undef_or_num (Results.fps r) 30.
Definition frameData : list Frame.t := default [] (Results.frame_data r).
Definition sourceWidth : Q := JS.undef_or_num (Results.video_width r) 0.
Definition sourceHeight : Q := JS.undef_or_num (Results.video_height r) 0.

Definition framePlayerMap : gmap Z (list Player.t) :=
  foldl (fun map frame =>
           <[Frame.frame_id frame := default [] (Frame.players frame)]> map)
        ∅ frameData.

Definition frameIdAt (currentTime : Q) : Z :=
  JS.floor_nonneg (JS.mul currentTime fps).

Definition updateActivePlayersForCurrentTime (refs : Refs) (st : State) : State :=
  match videoRef refs with
  | None => st
  | Some videoEl =>
      let frameId := frameIdAt (currentTime videoEl) in
      setActivePlayers (default [] (framePlayerMap !! frameId)) st
  end.

Definition nativeWidth (videoEl : VideoEl) : Q :=
  JS.or_num sourceWidth (JS.or_num (videoWidth videoEl) 1).

Definition nativeHeight (videoEl : VideoEl) : Q :=
  JS.or_num sourceHeight (JS.or_num (videoHeight videoEl) 1).

(** [px >= x1 && px <= x2 && py >= y1 && py <= y2]; a coordinate that
    is not finite satisfies no comparison with a bound. *)
Definition inBox (px py : option Q) (player : Player.t) : bool :=
  match px, py with
  | Some px, Some py =>
      let '(x1, y1, x2, y2) := Player.bbox player in
      Qle_bool x1 px && Qle_bool px x2 && Qle_bool y1 py && Qle_bool py y2
  | _, _ => false
  end.

(** The cursor in source-video pixels. *)
Definition cursorPoint (videoEl : VideoEl) (rect : DOMRect) (event : MouseEvent)
  : option Q * option Q :=
  let relX := JS.sub (clientX event) (left rect) in
  let relY := JS.sub (clientY event) (top rect) in
  ((fun q => JS.mul q (nativeWidth videoEl)) <$> JS.div relX (width rect),
   (fun q => JS.mul q (nativeHeight videoEl)) <$> JS.div relY (height rect)).

Definition handleOverlayMouseMove (refs : Refs) (event : MouseEvent) (st : State) : State :=
  match videoRef refs, overlayRef refs with
  | Some videoEl, Some rect =>
      if negb (paused videoEl) then setHoveredPlayer None st
      else
        let relX := JS.sub (clientX event) (left rect) in
        let relY := JS.sub (clientY event) (top rect) in
        let '(px, py) := cursorPoint videoEl rect event in
        match List.find (inBox px py) (activePlayers st) with
        | None => setHoveredPlayer None st
        | Some hitPlayer =>
            setTooltipPos (relX, relY) (setHoveredPlayer (Some hitPlayer) st)
        end
  | _, _ => setHoveredPlayer None st
  end.

(** [onMouseLeave] of the overlay and [onPlay] of the video. *)
Definition clearHover (st : State) : State := setHoveredPlayer None st.

End Component.

Definition getGradeColor (grade : string) : string :=
  if String.eqb grade "A" then "#22c55e"
  else if String.eqb grade "B" then "#3b82f6"
  else if String.eqb grade "C" then "#eab308"
  else if String.eqb grade "D" then "#f97316"
  else if String.eqb grade "F" then "#ef4444"
  else "#6b7280".

(** The tooltip of the hovered player. *)
Definition tooltip (st : State) : list node :=
  match hoveredPlayer st with
  | None => []
  | Some hoveredPlayer =>
      [El "div" "player-tooltip"
          [("left", CssNum (JS.add (fst (tooltipPos st)) 12) "px");
           ("top", CssNum (JS.add (snd (tooltipPos st)) 12) "px")]
          [el "div" "tooltip-title"
              [Text "Receiver #"; Int (Player.track_id hoveredPlayer)];
           el "div" ""
              [Text "OpenScore: ";
               Text (JS.toFixed1 (JS.undef_or_num (Player.openscore hoveredPlayer) 0))];
           el "div" "tooltip-placeholder"
              [Text "AI placeholder: Add LLM explanation here for route, leverage, and passing risk."]]]
  end.

(** The boxes drawn over the players while the video is paused; the
    native size that divides is never zero. *)
Definition hoverBoxes (r : Results.body) (refs : Refs) (st : State) : list node :=
  match videoRef refs with
  | Some videoEl =>
      when (paused videoEl)
        (map (fun player =>
                let '(x1, y1, x2, y2) := Player.bbox player in
                let width := nativeWidth r videoEl in
                let height := nativeHeight r videoEl in
                El "div" "player-hover-box"
                   [("left", CssNum (JS.mul (JS.quot x1 width) 100) "%");
                    ("top", CssNum (JS.mul (JS.quot y1 height) 100) "%");
                    ("width", CssNum (JS.mul (JS.quot (JS.sub x2 x1) width) 100) "%");
                    ("height", CssNum (JS.mul (JS.quot (JS.sub y2 y1) height) 100) "%")]
                   [])
             (activePlayers st))
  | None => []
  end.

(** [{list.length > 0 && (<div className=...><h3>title</h3>
    <listTag className=listClass>{list.map(item)}</listTag></div>)}]. *)
Definition listSection {A} (className title listTag listClass : string)
    (item : nat -> A -> node) (l : list A) : list node :=
  when (Nat.ltb 0 (length l))
    [el "div" className
        [el "h3" "" [Text title]; el listTag listClass (imap item l)]].

Definition textItem (_ : nat) (s : string) : node := el "li" "" [Text s].

Definition optionCard (idx : nat) (option : BestOption.t) : node :=
  el "div" "option-card"
     [el "div" "option-rank" [Text "#"; Int (Z.of_nat idx + 1)];
      el "div" "option-receiver" [Text (BestOption.receiver option)];
      el "div" "option-stats"
         [el "div" "option-stat"
             [el "span" "label" [Text "Avg OpenScore:"];
              el "span" "value" [Num (BestOption.avg_openscore option)]];
          el "div" "option-stat"
             [el "span" "label" [Text "Max OpenScore:"];
              el "span" "value" [Num (BestOption.max_openscore option)]];
          el "div" "option-stat"
             [el "span" "label" [Text "Consistency:"];
              el "span" "value" [Num (BestOption.consistency option)]]]].

Definition missedCard (_ : nat) (missed : Missed.t) : node :=
  el "div" "missed-card"
     [el "div" "missed-receiver" [Text (Missed.receiver missed)];
      el "div" "missed-stats"
         [el "span" "" [Text "Peak: "; Num (Missed.peak_openscore missed)];
          el "span" "" [Text "Avg: "; Num (Missed.avg_openscore missed)]];
      el "div" "missed-note" [Text (Missed.note missed)]].

Definition momentCard (_ : nat) (moment : Moment.t) : node :=
  el "div" "moment-card"
     [el "div" "moment-frame" [Text "Frame "; Int (Moment.frame moment)];
      el "div" "moment-description" [Text (Moment.description moment)];
      el "div" "moment-score" [Text "OpenScore: "; Num (Moment.openscore moment)]].

Definition statCard (label : string) (value : node) : node :=
  el "div" "stat-card"
     [el "div" "stat-label" [Text label]; el "div" "stat-value" [value]].

(** The component function.  [None] is a [TypeError] raised while
    rendering (a property read from [undefined]); [Some []] is the
    [null] returned when there are no results. *)
Definition render (results : option Results.t) (refs : Refs) (st : State)
  : option (list node) :=
  match results ≫= Results.results with
  | None => Some []
  | Some r =>
      feedback ← Results.feedback r;
      statistics ← Feedback.statistics feedback;
      avg ← Statistics.avg_openscore_all_receivers statistics;
      strengths ← Feedback.strengths feedback;
      areas ← Feedback.areas_for_improvement feedback;
      recommendations ← Feedback.recommendations feedback;
      best_options ← Feedback.best_options feedback;
      missed_opportunities ← Feedback.missed_opportunities feedback;
      key_moments ← Feedback.key_moments feedback;
      let gradeColor := CssStr (getGradeColor (Feedback.overall_grade feedback)) in
      Some
        [el "div" "analysis-results"
           ([el "h2" "" [Text "Analysis Complete"];
             el "div" "grade-section"
                [El "div" "grade-card" [("borderColor", gradeColor)]
                    [el "div" "grade-label" [Text "Overall Grade"];
                     El "div" "grade-value" [("color", gradeColor)]
                        [Text (Feedback.overall_grade feedback)];
                     el "div" "grade-score"
                        [Text "Score: "; Num (Feedback.overall_score feedback); Text "/100"]];
                 el "div" "grade-summary" [el "p" "" [Text (Feedback.summary feedback)]]];
             el "div" "stats-grid"
                [statCard "Receivers Tracked"
                          (Int (Statistics.total_receivers_tracked statistics));
                 statCard "Avg OpenScore" (Text (JS.toFixed1 avg));
                 statCard "Players Detected"
                          (Int (Statistics.total_players_detected statistics))];
             el "div" "feedback-grid"
                (listSection "feedback-section strengths" "💪 Strengths" "ul" ""
                             textItem strengths
                 ++ listSection "feedback-section improvements" "📈 Areas for Improvement" "ul" ""
                                textItem areas)]
            ++ listSection "recommendations-section" "💡 Recommendations" "ul" "recommendations-list"
                           textItem recommendations
            ++ listSection "best-options-section" "🎯 Best Passing Options" "div" "options-grid"
                           optionCard best_options
            ++ listSection "missed-section" "⚠️ Missed Opportunities" "div" "missed-list"
                           missedCard missed_opportunities
            ++ listSection "key-moments-section" "⭐ Key Moments" "div" "moments-list"
                           momentCard key_moments
            ++ [el "div" "video-player-section"
                   [el "h3" "" [Text "🎬 Annotated Video"];
                    el "div" "video-player-card"
                       [el "div" "video-overlay-container"
                           ([el "video" "analysis-video-player"
                                [Text "Your browser does not support the video tag."]]
                            ++ hoverBoxes r refs st
                            ++ tooltip st)]]])]
  end.

End AnalysisResults.

(** ** AnalysisResults, AI-enhanced revision: the tooltip

    This revision keeps the hooks and handlers of [AnalysisResults]
    unchanged and replaces the tooltip. *)

Module AnalysisResultsAI.

Import AnalysisResults.

Definition getScoreColor (score : Q) : string :=
  if Qle_bool 70 score then "#22c55e"
  else if Qle_bool 50 score then "#eab308"
  else if Qle_bool 30 score then "#f97316"
  else "#ef4444".

Definition getScoreLabel (score : Q) : string :=
  if Qle_bool 80 score then "Wide Open"
  else if Qle_bool 60 score then "Open"
  else if Qle_bool 40 score then "Contested"
  else if Qle_bool 20 score then "Covered"
  else "Locked Down".

(** [a > b] on numbers. *)
Definition gt (a b : Q) : bool := negb (Qle_bool a b).

(** [1920 / 53.3]. *)
Definition pxPerYard : Q := JS.quot 1920 (JS.literal (533 # 10)).

(** The distance shown in the fallback explanation, before [toFixed]. *)
Definition yardsOf (ctx : PlayerContext.t) : Q :=
  JS.quot (PlayerContext.nearest_defender_distance ctx) pxPerYard.

Section Component.
Variable feedback : Feedback.t.

Definition aiOpenscoreExplanations : gmap string string :=
  default ∅ (Feedback.ai_openscore_explanations feedback).

Definition playerContexts : gmap string PlayerContext.t :=
  default ∅ (Feedback.player_contexts feedback).

Definition contextExplanation (ctx : PlayerContext.t) : string :=
  let yards := JS.toFixed1 (yardsOf ctx) in
  let nearby := PlayerContext.num_nearby_defenders ctx in
  let closing := PlayerContext.closing_speed ctx in
  let explanation := "Nearest defender: ~" +:+ yards +:+ " yds. " in
  let explanation :=
    if (nearby =? 0)%Z then explanation +:+ "No defenders in coverage zone. "
    else if (nearby =? 1)%Z then explanation +:+ "1 defender nearby. "
    else explanation +:+ pretty nearby +:+ " defenders converging. " in
  if gt closing 100 then explanation +:+ "Defender closing fast."
  else if gt (-50) closing then explanation +:+ "Defender moving away."
  else explanation +:+ "Defender holding position.".

Definition getPlayerTooltipExplanation (player : Player.t) : option string :=
  let playerId := "player_" +:+ pretty (Player.track_id player) in
  match aiOpenscoreExplanations !! playerId with
  | Some aiExplanation =>
      if JS.truthy_str aiExplanation then Some aiExplanation
      else contextExplanation <$> playerContexts !! playerId
  | None => contextExplanation <$> playerContexts !! playerId
  end.

Definition tooltip (st : State) : list node :=
  match hoveredPlayer st with
  | None => []
  | Some hoveredPlayer =>
      let score := JS.undef_or_num (Player.openscore hoveredPlayer) 0 in
      [El "div" "player-tooltip"
          [("left", CssNum (JS.add (fst (tooltipPos st)) 12) "px");
           ("top", CssNum (JS.add (snd (tooltipPos st)) 12) "px")]
          ([el "div" "tooltip-title" [Text "Receiver"];
            El "div" "tooltip-score" [("color", CssStr (getScoreColor score))]
               [Text "OpenScore: ";
                Text (JS.toFixed1 score);
                el "span" "tooltip-score-label"
                   [Text " ("; Text (getScoreLabel score); Text ")"]]]
           ++ match getPlayerTooltipExplanation hoveredPlayer with
              | Some explanation =>
                  when (JS.truthy_str explanation)
                       [el "div" "tooltip-ai-explanation" [Text explanation]]
              | None => []
              end)]
  end.

End Component.

(** [getPlayerTooltipExplanation] as the component reaches it from its
    props: [feedback] is destructured from [results.results]; [None] is
    the [TypeError] of a payload without feedback. *)
Definition explanationFor (r : Results.body) (player : Player.t)
  : option (option string) :=
  feedback ← Results.feedback r;
  Some (getPlayerTooltipExplanation feedback player).

End AnalysisResultsAI.

(** ** VideoUpload: the drop handler *)

Module File.
Record t := mk { name : string; type : string; size : Z }.
End File.

Module FileError.
(** An entry of a rejection's [errors], as the dropzone reports it. *)
Record t := mk { code : string; message : string }.
End FileError.

Module FileRejection.
Record t := mk { file : File.t; errors : list FileError.t }.
End FileRejection.

(** ** The dropzone

    [useDropzone] of react-dropzone, as far as [VideoUpload] configures
    it: how the library sorts the files of a drop into accepted files and
    rejections before it calls [onDrop].  No size limit and no validator
    are configured, so a file is turned down for its type only. *)

Module Dropzone.

Record Options := mkOptions {
  accept : list (string * list string);
  maxFiles : nat;
  multiple : bool;
  disabled : bool
}.

Definition lowerChar (c : Ascii.ascii) : Ascii.ascii :=
  let n := Ascii.nat_of_ascii c in
  if Nat.leb 65 n && Nat.leb n 90 then Ascii.ascii_of_nat (n + 32) else c.

(** [s.toLowerCase()], on the letters of ASCII. *)
Fixpoint toLowerCase (s : string) : string :=
  match s with
  | EmptyString => EmptyString
  | String c rest => String (lowerChar c) (toLowerCase rest)
  end.

(** [s.endsWith(suffix)]. *)
Definition endsWith (s suffix : string) : bool :=
  let n := String.length s in
  let k := String.length suffix in
  Nat.leb k n && String.eqb (String.substring (n - k) k s) suffix.

(** The part of a MIME type before its slash. *)
Fixpoint baseType (s : string) : string :=
  match s with
  | EmptyString => EmptyString
  | String c rest =>
      if Ascii.eqb c "/"%char then EmptyString else String c (baseType rest)
  end.

(** The accept attribute handed to the file check: each MIME type of the
    [accept] option followed by its extensions. *)
Definition acceptAttr (o : Options) : list string :=
  flat_map (fun entry => fst entry :: snd entry) (accept o).

(** Whether a file matches one entry of the accept attribute: an
    extension by the end of the file name, a wildcard by the base of the
    MIME type, anything else by the whole MIME type; letter case is
    ignored. *)
Definition matchesType (file : File.t) (type : string) : bool :=
  let validType := toLowerCase type in
  let mimeType := toLowerCase (File.type file) in
  match validType with
  | String "."%char _ => endsWith (toLowerCase (File.name file)) validType
  | _ =>
      if endsWith validType "/*"
      then String.eqb (baseType mimeType) (baseType validType)
      else String.eqb mimeType validType
  end.

Definition accepts (file : File.t) (acceptedFiles : list string) : bool :=
  match acceptedFiles with
  | [] => true
  | _ => existsb (matchesType file) acceptedFiles
  end.

(** The type check of a dropped file; the placeholder type that old
    Firefox versions report for every file is let through. *)
Definition fileAccepted (o : Options) (file : File.t) : bool :=
  String.eqb (File.type file) "application/x-moz-file"
  || accepts file (acceptAttr o).

Section Drop.
(** The message texts of the library's two error objects. *)
Variables invalidTypeMessage tooManyFilesMessage : string.

Definition invalidType : FileError.t :=
  FileError.mk "file-invalid-type" invalidTypeMessage.

Definition tooManyFiles : FileError.t :=
  FileError.mk "too-many-files" tooManyFilesMessage.

(** The accepted files and the rejections that [onDrop] is called with:
    each file is checked in turn; when more files pass than the options
    allow, all of them are rejected as well. *)
Definition setFiles (o : Options) (files : list File.t)
  : list File.t * list FileRejection.t :=
  let acceptedFiles := List.filter (fileAccepted o) files in
  let fileRejections :=
    map (fun file => FileRejection.mk file [invalidType])
        (List.filter (fun file => negb (fileAccepted o file)) files) in
  if negb (multiple o) && Nat.ltb 1 (length acceptedFiles)
     || multiple o && Nat.leb 1 (maxFiles o)
        && Nat.ltb (maxFiles o) (length acceptedFiles)
  then ([], (fileRejections
             ++ map (fun file => FileRejection.mk file [tooManyFiles]) acceptedFiles)%list)
  else (acceptedFiles, fileRejections).

End Drop.

End Dropzone.

Module AxiosError.
(** A failed request: [error.response?.data?.detail] and [error.message]. *)
Record t := mk { detail : option string; message : option string }.

(** [detail || message || fallback]. *)
Definition text (e : t) (fallback : string) : string :=
  JS.undef_or_str (detail e) (JS.undef_or_str (message e) fallback).
End AxiosError.

Module UploadResponse.
Record t := mk { task_id : option string; status : option string }.
End UploadResponse.

Module VideoUpload.

(** What [onDrop] does, in program order. *)
Inductive effect :=
| SetUploadError (e : option string)
| SetIsUploading (b : bool)
| UploadVideo (file : File.t)
| OnUploadSuccess (response : UploadResponse.t)
| OnUploadError (errorMessage : string)
| TypeError.

(** The callbacks passed as props may be absent. *)
Record Props := mkProps { onUploadSuccess : bool; onUploadError : bool }.

Section OnDrop.
Variable props : Props.
(** The outcome of the request that [uploadVideo] sends. *)
Variable uploadVideo : File.t -> UploadResponse.t + AxiosError.t.

Definition notifyError (msg : string) : list effect :=
  if onUploadError props then [OnUploadError msg] else [].

Definition onDrop (acceptedFiles : list File.t)
    (rejectedFiles : list FileRejection.t) : list effect :=
  SetUploadError None ::
  match rejectedFiles with
  | rejection :: _ =>
      match FileRejection.errors rejection with
      | [] => [TypeError]
      | error :: _ =>
          (if String.eqb (FileError.code error) "file-invalid-type"
           then SetUploadError (Some "Only MP4 files are allowed")
           else if String.eqb (FileError.code error) "too-many-files"
           then SetUploadError (Some "Please upload only one file at a time")
           else SetUploadError (Some (FileError.message error)))
          :: notifyError (FileError.message error)
      end
  | [] =>
      match acceptedFiles with
      | [] => []
      | file :: _ =>
          SetIsUploading true :: UploadVideo file ::
          match uploadVideo file with
          | inl response =>
              if onUploadSuccess props then [OnUploadSuccess response] else []
          | inr error =>
              let errorMessage := AxiosError.text error "Upload failed" in
              SetUploadError (Some errorMessage) :: notifyError errorMessage
          end
          ++ [SetIsUploading false]
      end
  end.

(** The options of [useDropzone]. *)
Definition dropzoneOptions (isUploading : bool) : Dropzone.Options :=
  Dropzone.mkOptions [("video/mp4", [".mp4"])] 1 false isUploading.

(** Files are dropped on the widget: a disabled dropzone ignores them,
    otherwise [onDrop] receives them sorted. *)
Definition drop (invalidTypeMessage tooManyFilesMessage : string)
    (isUploading : bool) (files : list File.t) : list effect :=
  let options := dropzoneOptions isUploading in
  if Dropzone.disabled options then []
  else
    let '(acceptedFiles, fileRejections) :=
      Dropzone.setFiles invalidTypeMessage tooManyFilesMessage options files in
    onDrop acceptedFiles fileRejections.

End OnDrop.

Definition isUploadVideo (e : effect) : bool :=
  match e with UploadVideo _ => true | _ => false end.

(** The value of [uploadError] after the effects: the last one set. *)
Definition uploadErrorAfter (init : option string) (es : list effect) : option string :=
  foldl (fun cur e => match e with SetUploadError v => v | _ => cur end) init es.

End VideoUpload.

(** ** App: upload, status polling, display *)

Module StatusData.
(** The response of [getStatus]. *)
Record t := mk {
  status : option string;
  progress : option Q;
  message : option string
}.
End StatusData.

Module App.

(** The five [useState] cells, and whether the polling interval set by
    the effect is still armed. *)
Record State := mkState {
  taskId : option string;
  status : option string;
  results : option Results.t;
  error : option string;
  progress : Q;
  polling : bool
}.

Definition initial : State := mkState None None None None 0 false.

Definition setTaskId v s :=
  mkState v (status s) (results s) (error s) (progress s) (polling s).
Definition setStatus v s :=
  mkState (taskId s) v (results s) (error s) (progress s) (polling s).
Definition setResults v s :=
  mkState (taskId s) (status s) v (error s) (progress s) (polling s).
Definition setError v s :=
  mkState (taskId s) (status s) (results s) v (progress s) (polling s).
Definition setProgress v s :=
  mkState (taskId s) (status s) (results s) (error s) v (polling s).
Definition setPolling v s :=
  mkState (taskId s) (status s) (results s) (error s) (progress s) v.

(** [clearInterval(pollInterval)]. *)
Definition clearInterval (s : State) : State := setPolling false s.

(** [status === lit]. *)
Definition statusIs (status : option string) (lit : string) : bool :=
  match status with
  | Some v => String.eqb v lit
  | None => false
  end.

Definition terminal (status : option string) : bool :=
  statusIs status "completed" || statusIs status "failed".

(** The guard of the polling effect: an interval is set unless
    [!taskId || status === 'completed' || status === 'failed']. *)
Definition shouldPoll (taskId status : option string) : bool :=
  JS.truthy_opt_str taskId && negb (terminal status).

(** React commits a state change: when a dependency of the effect
    ([taskId], [status]) changed, the cleanup clears the old interval and
    the effect runs again; otherwise the interval stays as the handler
    left it. *)
Definition commit (prev next : State) : State :=
  if bool_decide (taskId prev = taskId next ∧ status prev = status next)
  then next
  else setPolling (shouldPoll (taskId next) (status next)) next.

(** The body of the interval callback, given how the two requests end. *)
Definition pollStatus (getStatus : StatusData.t + AxiosError.t)
    (getResults : Results.t + AxiosError.t) (s : State) : State :=
  match getStatus with
  | inl statusData =>
      let s := setStatus (StatusData.status statusData) s in
      let s := setProgress (JS.undef_or_num (StatusData.progress statusData) 0) s in
      if statusIs (StatusData.status statusData) "completed" then
        match getResults with
        | inl resultsData => clearInterval (setResults (Some resultsData) s)
        | inr err =>
            clearInterval (setError (Some (AxiosError.text err "Failed to get status")) s)
        end
      else if statusIs (StatusData.status statusData) "failed" then
        clearInterval
          (setError (Some (JS.undef_or_str (StatusData.message statusData)
                                           "Processing failed")) s)
      else s
  | inr err =>
      clearInterval (setError (Some (AxiosError.text err "Failed to get status")) s)
  end.

Definition handleUploadSuccess (response : UploadResponse.t) (s : State) : State :=
  setProgress 0
    (setResults None
       (setError None
          (setStatus (UploadResponse.status response)
             (setTaskId (UploadResponse.task_id response) s)))).

Definition handleUploadError (errorMessage : string) (s : State) : State :=
  setError (Some errorMessage) s.

Definition handleReset (s : State) : State :=
  setProgress 0 (setError None (setResults None (setStatus None (setTaskId None s)))).

Definition getStatusMessage (s : State) : string :=
  if statusIs (status s) "queued" then "Video queued for processing..."
  else if statusIs (status s) "processing" then "Processing video..."
  else if statusIs (status s) "completed" then "Analysis complete!"
  else if statusIs (status s) "failed" then "Processing failed"
  else "".

(** Which parts of the page are mounted. *)
Definition uploadVisible (s : State) : bool :=
  negb (JS.truthy_opt_str (taskId s)) && negb (bool_decide (is_Some (results s))).
Definition processingVisible (s : State) : bool :=
  JS.truthy_opt_str (taskId s) && negb (statusIs (status s) "completed").
Definition resultsVisible (s : State) : bool :=
  bool_decide (is_Some (results s)) && statusIs (status s) "completed".
Definition errorVisible (s : State) : bool := JS.truthy_opt_str (error s).

Definition resetButton (label : string) : node :=
  el "button" "reset-button" [Text label].

Definition errorSection (s : State) : list node :=
  when (errorVisible s)
    [el "div" "error-section"
        [el "div" "error-card"
            [el "svg" "error-icon-large" [el "path" "" []];
             el "h3" "" [Text "Error"];
             el "p" "" [Text (default "" (error s))];
             resetButton "Try Again"]]].

(** The page; [VideoUpload] and [AnalysisResults] are left as
    component nodes. *)
Definition render (s : State) : node :=
  el "div" "app"
     [el "header" "app-header"
         [el "div" "header-content"
             [el "h1" "" [Text "🏈 NFL Video Analysis"];
              el "p" "tagline" [Text "AI-Powered Quarterback Decision Analysis"]]];
      el "main" "app-main"
         [el "div" "container"
             (when (uploadVisible s)
                [el "div" "intro-section"
                    [el "h2" "" [Text "Analyze Your Game Footage"];
                     el "p" "" [Text "Upload your NFL game video to get detailed analysis on player tracking, receiver openness scores, and quarterback decision-making feedback."]];
                 Comp "VideoUpload"]
              ++ when (processingVisible s)
                [el "div" "processing-section"
                    [el "div" "processing-card"
                        [el "div" "processing-icon" [el "div" "spinner-large" []];
                         el "h2" "" [Text (getStatusMessage s)];
                         el "div" "progress-bar"
                            [El "div" "progress-fill"
                                [("width", CssNum (progress s) "%")] []];
                         el "p" "progress-text" [Num (progress s); Text "% complete"];
                         el "p" "processing-info" [Text "This may take several minutes depending on video length. The video is being analyzed with YOLOv8 detection, player tracking, and OpenScore calculations."]]]]
              ++ when (resultsVisible s)
                [Comp "AnalysisResults";
                 el "div" "reset-section" [resetButton "Analyze Another Video"]]
              ++ errorSection s)];
      el "footer" "app-footer"
         [el "p" "" [Text "Powered by YOLOv8, FastAPI, and React | ByteTrack Player Tracking"]]].

(** The two halves of a callback that finds the task completed: up to
    its second [await] the status response is stored, after it the
    results are, or the error of fetching them. *)
Definition statusStored (statusData : StatusData.t) (s : State) : State :=
  setProgress (JS.undef_or_num (StatusData.progress statusData) 0)
    (setStatus (StatusData.status statusData) s).

Definition resultsFetched (getResults : Results.t + AxiosError.t) (s : State) : State :=
  match getResults with
  | inl resultsData => clearInterval (setResults (Some resultsData) s)
  | inr err =>
      clearInterval (setError (Some (AxiosError.text err "Failed to get status")) s)
  end.

(** The callback from the arrival of its status response on: to its end,
    or to its second [await] when the task is completed. *)
Definition statusArrived (getStatus : StatusData.t + AxiosError.t) (s : State) : State :=
  match getStatus with
  | inl statusData =>
      let s := statusStored statusData s in
      if statusIs (StatusData.status statusData) "completed" then s
      else if statusIs (StatusData.status statusData) "failed" then
        clearInterval
          (setError (Some (JS.undef_or_str (StatusData.message statusData)
                                           "Processing failed")) s)
      else s
  | inr err =>
      clearInterval (setError (Some (AxiosError.text err "Failed to get status")) s)
  end.

(** What can happen to the page.  The interval callback sends a status
    request and runs on when the response arrives, whatever has happened
    to the interval in the meantime: nothing cancels it, and the requests
    of successive ticks may overlap.  In the same way the upload handler
    of [VideoUpload] runs on when the upload is answered, whether or not
    the widget is still mounted.
    - [PollTick]: the response to a request of the interval that is armed
      (or of the last one, when it has been cleared and not replaced)
      arrives, and the callback runs to its end.
    - [LateTick]: the same for a request of an interval that the effect
      has replaced since.
    - [ResultsPending] and [ResultsTick]: the two halves of a callback
      that finds the task completed, when other events are handled between
      its two awaits.
    - [UploadSuccess] and [UploadError]: [VideoUpload] calls
      [onUploadSuccess] or [onUploadError].
    - [Reset]: a reset button is clicked.
    Here a response may arrive at any time; [Session] below keeps the
    requests that are in flight. *)
Inductive event :=
| PollTick (getStatus : StatusData.t + AxiosError.t)
           (getResults : Results.t + AxiosError.t)
| LateTick (getStatus : StatusData.t + AxiosError.t)
           (getResults : Results.t + AxiosError.t)
| ResultsPending (statusData : StatusData.t)
| ResultsTick (getResults : Results.t + AxiosError.t)
| UploadSuccess (response : UploadResponse.t)
| UploadError (errorMessage : string)
| Reset.

(** A [clearInterval] that names an interval which is no longer the
    current one leaves the current one as it is: so for the callback of a
    replaced interval, and for the second half of a callback, whose own
    interval went when the status became completed.  A reset needs one of
    the two reset buttons on the page. *)
Definition step (s : State) (e : event) : State :=
  match e with
  | PollTick getStatus getResults =>
      commit s (pollStatus getStatus getResults s)
  | LateTick getStatus getResults =>
      commit s (setPolling (polling s) (pollStatus getStatus getResults s))
  | ResultsPending statusData =>
      if statusIs (StatusData.status statusData) "completed"
      then commit s (statusStored statusData s)
      else s
  | ResultsTick getResults =>
      commit s (setPolling (polling s) (resultsFetched getResults s))
  | UploadSuccess response => commit s (handleUploadSuccess response s)
  | UploadError errorMessage => commit s (handleUploadError errorMessage s)
  | Reset =>
      if resultsVisible s || errorVisible s then commit s (handleReset s) else s
  end.

Definition run (s : State) (es : list event) : State := foldl step s es.

(** The progress held after each of a series of events. *)
Fixpoint progressTrace (s : State) (es : list event) : list Q :=
  match es with
  | [] => []
  | e :: es => progress (step s e) :: progressTrace (step s e) es
  end.

End App.

(** ** The page with its requests

    [App.step] tells what an event does to the page.  A session keeps, in
    addition, the requests that have been sent and not answered, so that a
    response arrives only for a request that is in flight, an interval
    fires only while it is armed, and a file is dropped only on a widget
    that is mounted and enabled. *)

Module Session.

(** A request whose response has not arrived.
    - [GetStatus]: sent by the interval callback; [current] as long as the
      effect has not run again since, so that the interval the callback
      will clear is the one of the page.
    - [GetResults]: sent by a callback that found the task completed.
    - [Upload]: sent by [VideoUpload]; [mounted] as long as that instance
      of the widget is. *)
Inductive request :=
| GetStatus (current : bool)
| GetResults
| Upload (mounted : bool).

(** The page, the [isUploading] cell of the mounted [VideoUpload] (false
    when none is mounted) and the requests in flight, oldest first. *)
Record t := mk {
  page : App.State;
  isUploading : bool;
  inFlight : list request
}.

Definition initial : t := mk App.initial false [].

Definition age (effectRan unmounted : bool) (r : request) : request :=
  match r with
  | GetStatus current => GetStatus (current && negb effectRan)
  | GetResults => GetResults
  | Upload mounted => Upload (mounted && negb unmounted)
  end.

(** The session after React has committed [next] in place of [prev]: when
    a dependency of the effect changed, the interval of the status
    requests in flight is gone; when [VideoUpload] is not on the page, its
    instance and state are gone, and the next one starts afresh. *)
Definition settle (prev next : App.State) (isUploading : bool) (requests : list request)
  : t :=
  let effectRan :=
    negb (bool_decide (App.taskId prev = App.taskId next
                       ∧ App.status prev = App.status next)) in
  let unmounted := negb (App.uploadVisible next) in
  mk next (isUploading && negb unmounted) (map (age effectRan unmounted) requests).

(** - [Tick]: the interval fires and its callback sends a status request.
    - [StatusArrives], [ResultsArrive], [UploadArrives]: the request at
      index [i] of those in flight is answered, or fails.
    - [Drop]: a file that the dropzone accepts is dropped.
    - [RejectedDrop]: files that the dropzone rejects are dropped;
      [message] is the one of the first error.
    - [ResetClick]: a reset button is clicked. *)
Inductive event :=
| Tick
| StatusArrives (i : nat) (getStatus : StatusData.t + AxiosError.t)
| ResultsArrive (i : nat) (getResults : Results.t + AxiosError.t)
| Drop
| RejectedDrop (message : string)
| UploadArrives (i : nat) (uploadVideo : UploadResponse.t + AxiosError.t)
| ResetClick.

(** The response says that the task is completed: the callback goes on
    to request the results. *)
Definition completed (getStatus : StatusData.t + AxiosError.t) : bool :=
  match getStatus with
  | inl statusData => App.statusIs (StatusData.status statusData) "completed"
  | inr _ => false
  end.

(** An event that cannot happen in the session (no such request in
    flight, interval not armed, widget or button not on the page) leaves
    it as it is. *)
Definition step (c : t) (e : event) : t :=
  let s := page c in
  match e with
  | Tick =>
      if App.polling s
      then mk s (isUploading c) (inFlight c ++ [GetStatus true])
      else c
  | StatusArrives i getStatus =>
      match inFlight c !! i with
      | Some (GetStatus current) =>
          let next := App.statusArrived getStatus s in
          let next := if current then next else App.setPolling (App.polling s) next in
          settle s (App.commit s next) (isUploading c)
            (delete i (inFlight c) ++ (if completed getStatus then [GetResults] else []))
      | _ => c
      end
  | ResultsArrive i getResults =>
      match inFlight c !! i with
      | Some GetResults =>
          let next := App.setPolling (App.polling s) (App.resultsFetched getResults s) in
          settle s (App.commit s next) (isUploading c) (delete i (inFlight c))
      | _ => c
      end
  | Drop =>
      if App.uploadVisible s && negb (isUploading c)
      then mk s true (inFlight c ++ [Upload true])
      else c
  | RejectedDrop message =>
      if App.uploadVisible s && negb (isUploading c)
      then settle s (App.commit s (App.handleUploadError message s))
             (isUploading c) (inFlight c)
      else c
  | UploadArrives i uploadVideo =>
      match inFlight c !! i with
      | Some (Upload mounted) =>
          let next :=
            match uploadVideo with
            | inl response => App.handleUploadSuccess response s
            | inr err => App.handleUploadError (AxiosError.text err "Upload failed") s
            end in
          settle s (App.commit s next) (isUploading c && negb mounted)
            (delete i (inFlight c))
      | _ => c
      end
  | ResetClick =>
      if App.resultsVisible s || App.errorVisible s
      then settle s (App.commit s (App.handleReset s)) (isUploading c) (inFlight c)
      else c
  end.

Definition run (c : t) (es : list event) : t := foldl step c es.

Definition isReset (e : event) : bool :=
  match e with ResetClick => true | _ => false end.

End Session.

(** ** A sample payload, used to exercise the definitions *)

Module Sample.

Definition receiver7 : Player.t := Player.mk 7 (100, 100, 200, 300)%Q (Some (145 # 2)).
Definition receiver9 : Player.t := Player.mk 9 (150, 150, 400, 400)%Q None.

(** Frame 1 is listed twice, frame 2 is a gap, frame 3 has no list. *)
Definition frames : list Frame.t :=
  [Frame.mk 0 (Some [receiver7]);
   Frame.mk 1 (Some [receiver7; receiver9]);
   Frame.mk 1 (Some [receiver9; receiver7]);
   Frame.mk 3 None].

Definition context9 : PlayerContext.t := PlayerContext.mk 1920 2 (-60).

Definition feedback : Feedback.t :=
  Feedback.mk "B" 78 "Solid reads." (Some (Statistics.mk 0 (Some 0%Q) 4))
              (Some []) (Some []) (Some []) (Some []) (Some []) (Some [])
              None (Some {["player_9" := context9]}).

Definition body : Results.body :=
  Results.mkBody (Some feedback) (Some 30%Q) (Some frames) (Some 1920%Q) (Some 1080%Q).

(** Feedback with six empty lists and no statistics. *)
Definition feedbackBare : Feedback.t :=
  Feedback.mk "B" 78 "Solid reads." None
              (Some []) (Some []) (Some []) (Some []) (Some []) (Some [])
              None None.

(** Feedback with six empty lists whose statistics lack the average. *)
Definition feedbackNoAverage : Feedback.t :=
  Feedback.mk "B" 78 "Solid reads." (Some (Statistics.mk 0 None 4))
              (Some []) (Some []) (Some []) (Some []) (Some []) (Some [])
              None None.

Definition resultsWith (feedback : Feedback.t) : Results.t :=
  Results.mk (Some (Results.mkBody (Some feedback) (Some 30%Q) (Some frames)
                                   (Some 1920%Q) (Some 1080%Q))).

(** The same play filmed at twice the resolution and frame rate. *)
Definition body4k : Results.body :=
  Results.mkBody (Some feedback) (Some 60%Q) (Some frames) (Some 3840%Q) (Some 2160%Q).

(** A payload without scale metadata. *)
Definition bodyBare : Results.body :=
  Results.mkBody (Some feedback) None (Some frames) None None.

(** A payload whose scale metadata are all zero. *)
Definition bodyZero : Results.body :=
  Results.mkBody (Some feedback) (Some 0%Q) (Some frames) (Some 0%Q) (Some 0%Q).

Definition video (t : Q) (paused : bool) : AnalysisResults.VideoEl :=
  AnalysisResults.mkVideo t paused 1280 720.

Definition rect : AnalysisResults.DOMRect := AnalysisResults.mkRect 10 20 960 540.

Definition refs (t : Q) (paused : bool) : AnalysisResults.Refs :=
  AnalysisResults.mkRefs (Some (video t paused)) (Some rect).

Definition mouse : AnalysisResults.MouseEvent := AnalysisResults.mkMouse 85 95.

Definition viewing (players : list Player.t) : AnalysisResults.State :=
  AnalysisResults.mkState players None (0, 0)%Q.

Definition props : VideoUpload.Props := VideoUpload.mkProps true true.

Definition uploadVideo (_ : File.t) : UploadResponse.t + AxiosError.t :=
  inl (UploadResponse.mk (Some "task-1") (Some "queued")).

Definition clip : File.t := File.mk "play.mp4" "video/mp4" 1024.

(** A QuickTime file that reports the MP4 type, a text file that reports
    the placeholder type, and a text file. *)
Definition mislabelled : File.t := File.mk "play.mov" "video/mp4" 2048.
Definition notes : File.t := File.mk "notes.txt" "text/plain" 12.

(** Message texts of the dropzone's error objects. *)
Definition invalidTypeText : string := "File type must be one of video/mp4, .mp4".
Definition tooManyFilesText : string := "Too many files".

Definition invalidType : FileError.t := Dropzone.invalidType invalidTypeText.

Definition rejectedNotes : FileRejection.t :=
  FileRejection.mk (File.mk "notes.txt" "text/plain" 12) [invalidType].

Definition uploaded : App.event :=
  App.UploadSuccess (UploadResponse.mk (Some "task-1") (Some "queued")).

Definition noResults : Results.t + AxiosError.t :=
  inr (AxiosError.mk None (Some "Network Error")).

Definition answers (status : string) (progress : Q) (message : option string)
  : StatusData.t := StatusData.mk (Some status) (Some progress) message.

Definition tick (statusData : StatusData.t) : App.event :=
  App.PollTick (inl statusData) noResults.

(** A task that is uploaded, processed half-way and then fails. *)
Definition failingRun : list App.event :=
  [uploaded; tick (answers "processing" 50 None);
   tick (answers "failed" 50 (Some "Corrupt stream ordering"))].

(** A task that completes. *)
Definition completingRun : list App.event :=
  [uploaded; tick (answers "processing" 50 None);
   App.PollTick (inl (answers "completed" 100 None)) (inl (Results.mk (Some body)))].

(** Two status requests of the same interval overlap: the second is
    answered first, with [completed], and the answer to the first,
    [processing], arrives after it. *)
Definition overtakenRun : list App.event :=
  [uploaded;
   App.PollTick (inl (answers "completed" 100 None)) (inl (Results.mk (Some body)))].

Definition overtaken : App.event := tick (answers "processing" 40 None).

Definition answered (status : string) : Session.event :=
  Session.UploadArrives 0 (inl (UploadResponse.mk (Some "task-1") (Some status))).

(** A file is dropped and uploaded; the task is processed and completes,
    each request answered before the next is sent. *)
Definition completingSession : list Session.event :=
  [Session.Drop; answered "queued";
   Session.Tick; Session.StatusArrives 0 (inl (answers "processing" 50 None));
   Session.Tick; Session.StatusArrives 0 (inl (answers "completed" 100 None));
   Session.ResultsArrive 0 (inl (Results.mk (Some body)))].

(** The interval fires twice before either status request is answered;
    the second request is answered first, with [completed], and the
    results are fetched.  The first request is then still in flight. *)
Definition overtakingSession : list Session.event :=
  [Session.Drop; answered "queued";
   Session.Tick; Session.Tick;
   Session.StatusArrives 1 (inl (answers "completed" 100 None));
   Session.ResultsArrive 1 (inl (Results.mk (Some body)))].

(** The answer to the first request: [processing]. *)
Definition overtakenAnswer : Session.event :=
  Session.StatusArrives 0 (inl (answers "processing" 40 None)).

(** The task fails while a second status request is in flight; the user
    resets and uploads again, and the new upload is answered with
    [completed] at once. *)
Definition secondTaskSession : list Session.event :=
  [Session.Drop; answered "queued";
   Session.Tick; Session.Tick;
   Session.StatusArrives 0 (inl (answers "failed" 50 (Some "Corrupt stream ordering")));
   Session.ResetClick;
   Session.Drop;
   Session.UploadArrives 1 (inl (UploadResponse.mk (Some "task-2") (Some "completed")))].

End Sample.

(** ** Specification-side notions *)


(** The point lies in the player's box, bounds included. *)
Definition contains (px py : Q) (player : Player.t) : Prop :=
  let '(x1, y1, x2, y2) := Player.bbox player in
  (x1 <= px)%Q ∧ (px <= x2)%Q ∧ (y1 <= py)%Q ∧ (py <= y2)%Q.

(** Who is hovered, as the viewer's contract words it; the boolean tells
    whether the video is paused. *)
Inductive hovers (px py : Q) (players : list Player.t) : bool -> option Player.t -> Prop :=
| hovers_playing :
    hovers px py players false None
| hovers_first (before : list Player.t) (player : Player.t) (after : list Player.t) :
    players = (before ++ player :: after)%list ->
    contains px py player ->
    Forall (fun q => ¬ contains px py q) before ->
    hovers px py players true (Some player)
| hovers_nobody :
    Forall (fun q => ¬ contains px py q) players ->
    hovers px py players true None.

(** A scale field of the payload carries the non-zero value [v]. *)
Definition carries (field : option Q) (v : Q) : Prop :=
  field = Some v ∧ ¬ (v == 0)%Q.

(** A scale field of the payload is absent or zero. *)
Definition lacks (field : option Q) : Prop :=
  field = None ∨ ∃ v, field = Some v ∧ (v == 0)%Q.

(** The same player entry, carrying the given score. *)
Definition withOpenscore (score : Q) (player : Player.t) : Player.t :=
  Player.mk (Player.track_id player) (Player.bbox player) (Some score).

(** The state in which [player] is the hovered one. *)
Definition hovering (player : Player.t) (st : AnalysisResults.State) : AnalysisResults.State :=
  AnalysisResults.setHoveredPlayer (Some player) st.

(** Class names of the six feedback sections. *)
Definition sectionClasses : list string :=
  ["feedback-section strengths"; "feedback-section improvements";
   "recommendations-section"; "best-options-section";
   "missed-section"; "key-moments-section"].

(** All six feedback lists are present and empty. *)
Definition feedbackListsEmpty (feedback : Feedback.t) : Prop :=
  Feedback.strengths feedback = Some []
  ∧ Feedback.areas_for_improvement feedback = Some []
  ∧ Feedback.recommendations feedback = Some []
  ∧ Feedback.best_options feedback = Some []
  ∧ Feedback.missed_opportunities feedback = Some []
  ∧ Feedback.key_moments feedback = Some [].


(** The message shown for a rejection, by the code of its first error. *)
Definition rejectionMessage (error : FileError.t) : string :=
  if String.eqb (FileError.code error) "file-invalid-type"
  then "Only MP4 files are allowed"
  else if String.eqb (FileError.code error) "too-many-files"
  then "Please upload only one file at a time"
  else FileError.message error.

(** The last entry of [frame_data] that carries a given [frame_id]. *)
Definition lastWithId (k : Z) (frames : list Frame.t) : option Frame.t :=
  last (filter (fun frame => Frame.frame_id frame = k) frames).


(** While the interval is armed there is a task and its status is open. *)
Definition pollingInvariant (s : App.State) : Prop :=
  App.polling s = true ->
  JS.truthy_opt_str (App.taskId s) = true ∧ App.terminal (App.status s) = false.

(** The sessions that can occur. *)
Definition inSession (c : Session.t) : Prop :=
  ∃ history, c = Session.run Session.initial history.

(** No status request and no upload is in flight. *)
Definition quiet (c : Session.t) : Prop :=
  Forall (fun r => r = Session.GetResults) (Session.inFlight c).

(** The progress a status response reports: [statusData.progress || 0]. *)
Definition reported (statusData : StatusData.t) : Q :=
  JS.undef_or_num (StatusData.progress statusData) 0.

(** Each value is at most the next one. *)
Definition nondecreasing (l : list Q) : Prop :=
  ∀ i a b, l !! i = Some a -> l !! S i = Some b -> (a <= b)%Q.

(** Successive polls answered by the given status responses. *)
Definition polls (answers : list (StatusData.t * (Results.t + AxiosError.t)))
  : list App.event :=
  map (fun answer => App.PollTick (inl (fst answer)) (snd answer)) answers.

(** ** Further parts of the client *)

(** The upload widget, revision with an upload percentage: the progress
    callback handed to [uploadVideo]. *)
Module VideoUploadProgress.

(** The byte counts of a progress event, integers that a JavaScript
    number holds exactly up to 2^53; [total] is absent when the length is
    not known. *)
Record ProgressEvent := mkEvent { loaded : Z; total : option Z }.

(** [Math.round(x)]: the nearest integer, the larger one on a tie. *)
Definition round (x : Q) : Z := Qfloor (x + (1 # 2))%Q.

(** [a || b] on byte counts, an absent one being falsy like zero. *)
Definition orBytes (a : option Z) (b : Z) : Z :=
  match a with
  | Some n => if (n =? 0)%Z then b else n
  | None => b
  end.

(** [progressEvent.total || file.size || 0]. *)
Definition totalOf (file : File.t) (progressEvent : ProgressEvent) : Z :=
  orBytes (Some (orBytes (total progressEvent) (File.size file))) 0.

(** The callback: the value of [uploadProgress] after it ran. *)
Definition onUploadProgress (file : File.t) (progressEvent : ProgressEvent)
    (uploadProgress : Z) : Z :=
  let total := totalOf file progressEvent in
  if (0 <? total)%Z
  then round (JS.quot (JS.mul (inject_Z (loaded progressEvent)) 100) (inject_Z total))
  else uploadProgress.

End VideoUploadProgress.

(** The upload widget: what it shows for its state. *)
Module VideoUploadView.

(** [isUploading] after the effects of a drop: the last value set. *)
Definition isUploadingAfter (init : bool) (es : list VideoUpload.effect) : bool :=
  foldl (fun cur e => match e with VideoUpload.SetIsUploading b => b | _ => cur end) init es.

Definition uploadIcon : node := el "svg" "upload-icon" [el "path" "" []].

Definition render (isUploading isDragActive : bool) (uploadError : option string) : node :=
  el "div" "video-upload-container"
     ([el "div"
          ("dropzone " +:+ (if isDragActive then "active" else "") +:+ " "
             +:+ (if isUploading then "uploading" else ""))
          [el "input" "" [];
           el "div" "dropzone-content"
              (if isUploading then
                 [el "div" "spinner" []; el "p" "" [Text "Uploading video..."]]
               else if isDragActive then
                 [uploadIcon; el "p" "primary-text" [Text "Drop the MP4 file here"]]
               else
                 [uploadIcon;
                  el "p" "primary-text" [Text "Drag & drop your NFL game video here"];
                  el "p" "secondary-text" [Text "or click to browse"];
                  el "p" "format-text" [Text "Only MP4 files are supported"]])]]
      ++ when (JS.truthy_opt_str uploadError)
           [el "div" "error-message"
               [el "svg" "error-icon" [el "path" "" []];
                Text (default "" uploadError)]]).

End VideoUploadView.

(** The AI-enhanced viewer: the page around the tooltip. *)
Module FeedbackAI.
(** The generated texts of [feedback], which only this revision reads. *)
Record t := mk {
  ai_summary : option string;
  ai_strengths_analysis : option string;
  ai_improvement_analysis : option string;
  ai_play_reading : option string
}.
End FeedbackAI.

Module AnalysisResultsAIPage.

Definition isDigit (c : Ascii.ascii) : bool :=
  Nat.leb 48 (Ascii.nat_of_ascii c) && Nat.leb (Ascii.nat_of_ascii c) 57.

(** What follows the prefix [p] in [s], when [s] starts with [p]. *)
Fixpoint stripPrefix (p s : string) : option string :=
  match p with
  | EmptyString => Some s
  | String a p' =>
      match s with
      | String b s' => if Ascii.eqb a b then stripPrefix p' s' else None
      | EmptyString => None
      end
  end.

(** The pattern [Receiver #\d+] matches at the start of [s]. *)
Definition matchesHere (s : string) : bool :=
  match stripPrefix "Receiver #" s with
  | Some (String c _) => isDigit c
  | _ => false
  end.

(** [s.replace(/Receiver #\d+/g, 'receiver')], scanning left to right:
    [skip] characters of a match are still to be dropped, and with
    [inDigits] the digits that follow belong to the match too. *)
Fixpoint replaceFrom (skip : nat) (inDigits : bool) (s : string) : string :=
  match s with
  | EmptyString => EmptyString
  | String c rest =>
      match skip with
      | S k => replaceFrom k inDigits rest
      | O =>
          if inDigits && isDigit c then replaceFrom 0 true rest
          else if matchesHere s then "receiver" +:+ replaceFrom 9 true rest
          else String c (replaceFrom 0 false rest)
      end
  end.

Definition replaceReceiverNumbers (s : string) : string := replaceFrom 0 false s.

(** No suffix of [s] starts with a match of the pattern. *)
Fixpoint noMatch (s : string) : bool :=
  negb (matchesHere s)
  && match s with
     | EmptyString => true
     | String _ rest => noMatch rest
     end.

Definition aiSummary (ai : FeedbackAI.t) : string :=
  JS.undef_or_str (FeedbackAI.ai_summary ai) "".

(** The summary beside the grade: the generated one when there is one. *)
Definition gradeSummary (feedback : Feedback.t) (ai : FeedbackAI.t) : node :=
  el "div" "grade-summary"
     [if JS.truthy_str (aiSummary ai) then
        el "div" "ai-summary-block"
           [el "div" "ai-badge" [Text "🤖 AI Analysis"];
            el "p" "" [Text (replaceReceiverNumbers (aiSummary ai))]]
      else el "p" "" [Text (Feedback.summary feedback)]].

(** The component function of this revision; [None] is a [TypeError]. *)
Definition render (results : option Results.t) (ai : FeedbackAI.t)
    (st : AnalysisResults.State) : option (list node) :=
  match results ≫= Results.results with
  | None => Some []
  | Some r =>
      feedback ← Results.feedback r;
      let gradeColor :=
        CssStr (AnalysisResults.getGradeColor (Feedback.overall_grade feedback)) in
      Some
        [el "div" "analysis-results"
            [el "h2" "" [Text "🏈 Analysis Complete"];
             el "div" "video-player-section"
                [el "h3" "" [Text "🎬 Annotated Video"];
                 el "p" "video-hint"
                    [Text "Pause the video and hover over players to see AI-powered OpenScore analysis."];
                 el "div" "video-player-card"
                    [el "div" "video-overlay-container"
                        ([el "video" "analysis-video-player"
                             [Text "Your browser does not support the video tag."]]
                         ++ AnalysisResultsAI.tooltip feedback st)]];
             el "div" "grade-section"
                [El "div" "grade-card" [("borderColor", gradeColor)]
                    [el "div" "grade-label" [Text "Overall Grade"];
                     El "div" "grade-value" [("color", gradeColor)]
                        [Text (Feedback.overall_grade feedback)];
                     el "div" "grade-score"
                        [Text "Score: "; Num (Feedback.overall_score feedback); Text "/100"]];
                 gradeSummary feedback ai]]]
  end.

End AnalysisResultsAIPage.

(** ** Further specification-side notions *)

(** The states the page can be in: those some series of events leads to. *)
Definition reachable (s : App.State) : Prop :=
  ∃ history, s = App.run App.initial history.

(** Results are held only for a task whose status is completed. *)
Definition resultsInvariant (s : App.State) : Prop :=
  is_Some (App.results s) ->
  JS.truthy_opt_str (App.taskId s) = true ∧ App.statusIs (App.status s) "completed" = true.

(** The number is a double: rounding leaves it as it is. *)
Definition isDouble (q : Q) : Prop := (Double.round q == q)%Q.

(** Every response to a status request arrives while the interval that
    sent the request is armed, and every callback runs from its status
    response to its end with nothing in between: requests do not overtake
    each other and none outlives its interval. *)
Fixpoint orderly (s : App.State) (history : list App.event) : Prop :=
  match history with
  | [] => True
  | e :: rest =>
      match e with
      | App.PollTick _ _ => App.polling s = true
      | App.LateTick _ _ | App.ResultsPending _ | App.ResultsTick _ => False
      | _ => True
      end
      ∧ orderly (App.step s e) rest
  end.

(** The rectangle an element's inline style places it at, in per cent. *)
Definition styleRect (n : node) : option (Q * Q * Q * Q) :=
  match n with
  | El _ _ [("left", CssNum l "%"); ("top", CssNum t "%");
            ("width", CssNum w "%"); ("height", CssNum h "%")] _ =>
      Some (l, t, w, h)
  | _ => None
  end.

(** The feedback carries everything the first viewer reads without a
    default: the statistics with their average, and the six lists. *)
Definition feedbackComplete (feedback : Feedback.t) : Prop :=
  is_Some (Feedback.statistics feedback ≫= Statistics.avg_openscore_all_receivers)
  ∧ is_Some (Feedback.strengths feedback)
  ∧ is_Some (Feedback.areas_for_improvement feedback)
  ∧ is_Some (Feedback.recommendations feedback)
  ∧ is_Some (Feedback.best_options feedback)
  ∧ is_Some (Feedback.missed_opportunities feedback)
  ∧ is_Some (Feedback.key_moments feedback).

(** The class name of each feedback section with the length of its list. *)
Definition sectionSizes (feedback : Feedback.t) : list (string * option nat) :=
  [("feedback-section strengths", length <$> Feedback.strengths feedback);
   ("feedback-section improvements", length <$> Feedback.areas_for_improvement feedback);
   ("recommendations-section", length <$> Feedback.recommendations feedback);
   ("best-options-section", length <$> Feedback.best_options feedback);
   ("missed-section", length <$> Feedback.missed_opportunities feedback);
   ("key-moments-section", length <$> Feedback.key_moments feedback)].

(** The key under which a player's explanation and context are filed. *)
Definition playerKey (player : Player.t) : string :=
  "player_" +:+ pretty (Player.track_id player).

(** The generated explanation of a player, when there is a non-empty one. *)
Definition aiExplanationOf (feedback : Feedback.t) (player : Player.t) : option string :=
  match AnalysisResultsAI.aiOpenscoreExplanations feedback !! playerKey player with
  | Some text => if JS.truthy_str text then Some text else None
  | None => None
  end.

(** Number of upload requests among the effects of a drop. *)
Definition uploadRequests (es : list VideoUpload.effect) : nat :=
  length (filter (fun e => VideoUpload.isUploadVideo e = true) es).

(** ** Further sample data *)

Module MoreSamples.

(** A payload whose frame ids are all different. *)
Definition bodyDistinct : Results.body :=
  Results.mkBody (Some Sample.feedback) (Some 30%Q)
    (Some [Frame.mk 0 (Some [Sample.receiver7]);
           Frame.mk 1 (Some [Sample.receiver7; Sample.receiver9]);
           Frame.mk 3 None])
    (Some 1920%Q) (Some 1080%Q).

(** Feedback with a generated explanation for receiver 9 besides its
    context. *)
Definition feedbackExplained : Feedback.t :=
  Feedback.mk "B" 78 "Solid reads." (Some (Statistics.mk 2 (Some (145 # 2)) 4))
              (Some ["Quick release"]) (Some []) (Some ["Look off the safety"])
              (Some [BestOption.mk "Receiver #7" (145 # 2) 90 (1 # 2)])
              (Some []) (Some [Moment.mk 12 "Receiver #7 wide open" 90])
              (Some {["player_9" := "Breaking free on the post route."]})
              (Some {["player_9" := Sample.context9]}).

Definition bodyExplained : Results.body :=
  Results.mkBody (Some feedbackExplained) (Some 30%Q) (Some Sample.frames)
    (Some 1920%Q) (Some 1080%Q).

(** A payload whose feedback has a grade and a summary only. *)
Definition bodyGradeOnly : Results.body :=
  Results.mkBody
    (Some (Feedback.mk "C" 61 "Receiver #4 was open late." None None None None None
                       None None None None))
    (Some 30%Q) (Some Sample.frames) (Some 1920%Q) (Some 1080%Q).

(** A request that fails without a server message. *)
Definition uploadFails (_ : File.t) : UploadResponse.t + AxiosError.t :=
  inr (AxiosError.mk None (Some "Network Error")).

End MoreSamples.

(** ** Proof steps for class-name goals *)

(** Prove a disjunction from the hypothesis that is one of its disjuncts. *)
Ltac pick_disjunct H :=
  match goal with
  | |- _ ∨ _ => (left; pick_disjunct H) || (right; pick_disjunct H)
  | _ => exact H
  end.

(** Refute the membership of a literal class name in literal lists. *)
Ltac refute_class :=
  repeat match goal with
    | H : _ ∨ _ |- _ => destruct H
    | H : _ ∧ _ |- _ => destruct H
    | H : _ ∈ _ :: _ |- _ => apply elem_of_cons in H
    | H : _ ∈ [] |- _ => by apply elem_of_nil in H
    | H : @eq string _ _ |- _ => discriminate H
    | H : ?l ≠ [] |- length ?l ≠ 0%nat => by destruct l
    end.

(** * Properties *)

(** ** Rounding to the nearest double *)

Section DoubleFacts.
Local Open Scope Q_scope.

Lemma pow2_pos (k : Z) : 0 < 2 ^ k.
Proof. by apply Qpower_0_lt. Qed.

Lemma pow2_add (a b : Z) : 2 ^ (a + b) == 2 ^ a * 2 ^ b.
Proof. by apply Qpower_plus. Qed.

Lemma pow2_le (a b : Z) : (a <= b)%Z -> 2 ^ a <= 2 ^ b.
Proof. intros H. by apply Qpower_le_compat_l. Qed.

Lemma pow2_Z (a : Z) : (0 <= a)%Z -> inject_Z (2 ^ a) == 2 ^ a.
Proof. intros H. by rewrite Zpower_Qpower. Qed.

(** The quotient by a positive number, through its defining product. *)
Lemma div_pos_le (x y c : Q) : 0 < c -> x <= y -> x / c <= y / c.
Proof.
  intros Hc H. apply Qle_shift_div_l; [exact Hc|].
  assert (E : x / c * c == x) by (field; intros E; rewrite E in Hc; by apply Qlt_irrefl in Hc).
  by rewrite E.
Qed.

(** [log2floor] brackets a positive number between two powers of two. *)
Lemma log2floor_spec (x : Q) :
  0 < x -> 2 ^ Double.log2floor x <= x ∧ x < 2 ^ (Double.log2floor x + 1).
Proof.
  intros Hx. destruct x as [n d].
  assert (Hn : (0 < n)%Z).
  { unfold Qlt in Hx. cbn in Hx. lia. }
  unfold Double.log2floor. cbn [Qnum Qden].
  set (a := Z.log2 n). set (b := Z.log2 (Z.pos d)).
  assert (Ha : (0 <= a)%Z) by apply Z.log2_nonneg.
  assert (Hb : (0 <= b)%Z) by apply Z.log2_nonneg.
  destruct (Z.log2_spec n Hn) as [Hn1 Hn2]. fold a in Hn1, Hn2.
  destruct (Z.log2_spec (Z.pos d) eq_refl) as [Hd1 Hd2]. fold b in Hd1, Hd2.
  replace (Z.succ a) with (a + 1)%Z in Hn2 by lia.
  replace (Z.succ b) with (b + 1)%Z in Hd2 by lia.
  rewrite Zle_Qle, pow2_Z in Hn1 by lia.
  rewrite Zlt_Qlt, pow2_Z in Hn2 by lia.
  rewrite Zle_Qle, pow2_Z in Hd1 by lia.
  rewrite Zlt_Qlt, pow2_Z in Hd2 by lia.
  pose proof (pow2_pos a) as Pa. pose proof (pow2_pos b) as Pb.
  pose proof (pow2_pos (a - b)) as Pab.
  assert (Eab : 2 ^ a == 2 ^ (a - b) * 2 ^ b).
  { rewrite <- pow2_add. by replace (a - b + b)%Z with a by lia. }
  assert (E1 : 2 ^ (a + 1) == 2 * 2 ^ a) by (rewrite pow2_add; ring).
  assert (E2 : 2 ^ (b + 1) == 2 * 2 ^ b) by (rewrite pow2_add; ring).
  assert (E3 : 2 ^ (a - b + 1) == 2 * 2 ^ (a - b)) by (rewrite pow2_add; ring).
  assert (E4 : 2 * 2 ^ (a - b - 1) == 2 ^ (a - b)).
  { replace (a - b)%Z with (a - b - 1 + 1)%Z at 2 by lia. rewrite pow2_add. ring. }
  pose proof (pow2_pos (a - b - 1)) as Pab1.
  set (N := inject_Z n) in *. set (D := inject_Z (Z.pos d)) in *.
  assert (HD : 0 < D) by (eapply Qlt_le_trans; [exact Pb | exact Hd1]).
  set (q := n # d).
  assert (Eq : q * D == N).
  { unfold q. rewrite (Qmake_Qdiv n d). fold N D. field.
    intros E. rewrite E in HD. by apply Qlt_irrefl in HD. }
  (* q lies strictly between 2^(a-b-1) and 2^(a-b+1) *)
  assert (Hup : q < 2 ^ (a - b + 1)).
  { apply (Qmult_lt_r _ _ D HD). rewrite Eq, E3.
    eapply Qlt_le_trans; [exact Hn2|]. rewrite E1, Eab.
    rewrite <- !Qmult_assoc. apply Qmult_le_l; [reflexivity|].
    apply Qmult_le_l; [exact Pab | exact Hd1]. }
  assert (Hlow : 2 ^ (a - b - 1) < q).
  { apply (Qmult_lt_r _ _ D HD). rewrite Eq.
    eapply Qlt_le_trans; [|exact Hn1]. rewrite Eab, <- E4.
    rewrite <- !Qmult_assoc.
    rewrite (Qmult_comm 2 (2 ^ (a - b - 1) * 2 ^ b)), <- Qmult_assoc.
    apply Qmult_lt_l; [exact Pab1|]. by rewrite Qmult_comm, <- E2. }
  destruct (Qle_bool (2 ^ (a - b)) q) eqn:Htest.
  - apply Qle_bool_iff in Htest. split; [exact Htest | exact Hup].
  - assert (Hlt : q < 2 ^ (a - b)).
    { apply Qnot_le_lt. intros H. apply Qle_bool_iff in H. congruence. }
    split; [by apply Qlt_le_weak|].
    by replace (a - b - 1 + 1)%Z with (a - b)%Z by lia.
Qed.


Lemma log2floor_mono (x y : Q) :
  0 < x -> x <= y -> (Double.log2floor x <= Double.log2floor y)%Z.
Proof.
  intros Hx Hxy.
  destruct (log2floor_spec x Hx) as [Hx1 _].
  destruct (log2floor_spec y (Qlt_le_trans _ _ _ Hx Hxy)) as [_ Hy2].
  assert (H : 2 ^ Double.log2floor x < 2 ^ (Double.log2floor y + 1)).
  { eapply Qle_lt_trans; [exact Hx1|]. eapply Qle_lt_trans; [exact Hxy | exact Hy2]. }
  apply Qpower_lt_compat_l_inv in H; [lia | reflexivity].
Qed.

Lemma ulpExponent_mono (x y : Q) :
  0 < x -> x <= y -> (Double.ulpExponent x <= Double.ulpExponent y)%Z.
Proof.
  intros Hx Hxy. pose proof (log2floor_mono x y Hx Hxy).
  unfold Double.ulpExponent. lia.
Qed.

(** The nearest integer is one of the two neighbours, the nearer one. *)
Lemma nearestEven_floor (q : Q) :
  (Qfloor q <= Double.nearestEven q <= Qfloor q + 1)%Z.
Proof.
  unfold Double.nearestEven.
  destruct (q - inject_Z (Qfloor q) ?= 1 # 2); [destruct (Z.even _)| |]; lia.
Qed.

Lemma nearestEven_mono (p q : Q) :
  p <= q -> (Double.nearestEven p <= Double.nearestEven q)%Z.
Proof.
  intros Hpq. pose proof (Qfloor_resp_le p q Hpq) as Hf.
  destruct (Z.eq_dec (Qfloor p) (Qfloor q)) as [E|NE].
  - unfold Double.nearestEven. rewrite E.
    destruct (Qcompare_spec (p - inject_Z (Qfloor q)) (1 # 2)) as [Hp|Hp|Hp];
      destruct (Qcompare_spec (q - inject_Z (Qfloor q)) (1 # 2)) as [Hq|Hq|Hq];
      try destruct (Z.even (Qfloor q)); try lia; exfalso; lra.
  - pose proof (nearestEven_floor p). pose proof (nearestEven_floor q). lia.
Qed.

Lemma nearestEven_Z (z : Z) : Double.nearestEven (inject_Z z) = z.
Proof.
  unfold Double.nearestEven. rewrite Qfloor_Z.
  destruct (Qcompare_spec (inject_Z z - inject_Z z) (1 # 2)) as [H|H|H];
    [exfalso; lra | reflexivity | exfalso; lra].
Qed.

Lemma nearestEven_near (q : Q) :
  inject_Z (Double.nearestEven q) <= q + (1 # 2).
Proof.
  unfold Double.nearestEven.
  pose proof (Qfloor_le q) as Hf.
  destruct (Qcompare_spec (q - inject_Z (Qfloor q)) (1 # 2)) as [H|H|H].
  - destruct (Z.even _); [lra|]. rewrite inject_Z_plus. change (inject_Z 1) with 1. lra.
  - lra.
  - rewrite inject_Z_plus. change (inject_Z 1) with 1. lra.
Qed.

Lemma scaled_le (x y : Q) (e : Z) : x <= y -> x / 2 ^ e <= y / 2 ^ e.
Proof. apply div_pos_le, pow2_pos. Qed.

Lemma unscale (x : Q) (e : Z) : x / 2 ^ e * 2 ^ e == x.
Proof.
  field. intros E. pose proof (pow2_pos e) as H. rewrite E in H.
  by apply Qlt_irrefl in H.
Qed.

(** A positive number rounds into its own binade. *)
Lemma roundPositive_upper (x : Q) :
  0 < x -> Double.roundPositive x <= 2 ^ (Double.ulpExponent x + 53).
Proof.
  intros Hx. destruct (log2floor_spec x Hx) as [_ Hup].
  unfold Double.roundPositive. set (e := Double.ulpExponent x).
  assert (He : (Double.log2floor x + 1 <= e + 53)%Z)
    by (unfold e, Double.ulpExponent; lia).
  rewrite pow2_add, (Qmult_comm (2 ^ e)).
  apply Qmult_le_compat_r; [|apply Qlt_le_weak, pow2_pos].
  rewrite <- (pow2_Z 53) by lia. rewrite <- Zle_Qle.
  rewrite <- (nearestEven_Z (2 ^ 53)). apply nearestEven_mono.
  rewrite pow2_Z by lia.
  apply Qle_shift_div_r; [apply pow2_pos|].
  rewrite <- pow2_add. apply Qlt_le_weak.
  eapply Qlt_le_trans; [exact Hup|]. apply pow2_le. lia.
Qed.

(** Above the subnormal range it does not fall below its binade. *)
Lemma roundPositive_lower (x : Q) :
  0 < x -> (-1074 < Double.ulpExponent x)%Z ->
  2 ^ (Double.ulpExponent x + 52) <= Double.roundPositive x.
Proof.
  intros Hx Hnormal. destruct (log2floor_spec x Hx) as [Hlow _].
  unfold Double.roundPositive. set (e := Double.ulpExponent x) in *.
  assert (He : (e + 52 = Double.log2floor x)%Z)
    by (unfold e, Double.ulpExponent in *; lia).
  rewrite pow2_add, (Qmult_comm (2 ^ e)).
  apply Qmult_le_compat_r; [|apply Qlt_le_weak, pow2_pos].
  rewrite <- (pow2_Z 52) by lia. rewrite <- Zle_Qle.
  rewrite <- (nearestEven_Z (2 ^ 52)) at 1. apply nearestEven_mono.
  rewrite pow2_Z by lia.
  apply Qle_shift_div_l; [apply pow2_pos|].
  rewrite <- pow2_add, (Z.add_comm 52 e), He. exact Hlow.
Qed.

Lemma roundPositive_nonneg (x : Q) : 0 < x -> 0 <= Double.roundPositive x.
Proof.
  intros Hx. unfold Double.roundPositive.
  apply Qmult_le_0_compat; [|apply Qlt_le_weak, pow2_pos].
  change 0 with (inject_Z 0). rewrite <- Zle_Qle.
  rewrite <- (nearestEven_Z 0) at 1. apply nearestEven_mono.
  apply Qle_shift_div_l; [apply pow2_pos|]. rewrite Qmult_0_l. by apply Qlt_le_weak.
Qed.

Lemma roundPositive_mono (x y : Q) :
  0 < x -> x <= y -> Double.roundPositive x <= Double.roundPositive y.
Proof.
  intros Hx Hxy. assert (Hy : 0 < y) by (eapply Qlt_le_trans; eassumption).
  pose proof (ulpExponent_mono x y Hx Hxy) as He.
  destruct (Z.eq_dec (Double.ulpExponent x) (Double.ulpExponent y)) as [E|NE].
  - unfold Double.roundPositive. rewrite E.
    apply Qmult_le_compat_r; [|apply Qlt_le_weak, pow2_pos].
    rewrite <- Zle_Qle. apply nearestEven_mono. by apply scaled_le.
  - eapply Qle_trans; [by apply roundPositive_upper|].
    eapply Qle_trans; [|apply roundPositive_lower; [exact Hy|]].
    + apply pow2_le. lia.
    + unfold Double.ulpExponent in *. lia.
Qed.

(** Rounding keeps the order. *)
Lemma round_mono (x y : Q) : x <= y -> Double.round x <= Double.round y.
Proof.
  intros Hxy. unfold Double.round.
  destruct (Qcompare_spec x 0) as [Hx|Hx|Hx];
    destruct (Qcompare_spec y 0) as [Hy|Hy|Hy];
    rewrite ?Qred_correct; try (exfalso; lra).
  - apply Qle_refl.
  - by apply roundPositive_nonneg.
  - pose proof (roundPositive_nonneg (- x)). lra.
  - pose proof (roundPositive_mono (- y) (- x)). lra.
  - pose proof (roundPositive_nonneg (- x)). pose proof (roundPositive_nonneg y). lra.
  - by apply roundPositive_mono.
Qed.

(** Equal numbers round to the same double, however they are written. *)
Lemma round_proper (x y : Q) : x == y -> Double.round x == Double.round y.
Proof.
  intros E. apply Qle_antisym; apply round_mono; rewrite E; apply Qle_refl.
Qed.

(** From one on, rounding adds at most the fraction [2^-53]. *)
Lemma round_relative (x : Q) :
  1 <= x -> Double.round x <= x + x * (1 # 9007199254740992).
Proof.
  intros Hx. assert (H0 : 0 < x) by lra.
  unfold Double.round. destruct (Qcompare_spec x 0) as [H|H|H]; try (exfalso; lra).
  rewrite Qred_correct.
  destruct (log2floor_spec x H0) as [Hlow Hup].
  assert (HL : (0 <= Double.log2floor x)%Z).
  { assert (Hp : 2 ^ 0 < 2 ^ (Double.log2floor x + 1)).
    { eapply Qle_lt_trans; [|exact Hup]. exact Hx. }
    apply (Qpower_lt_compat_l_inv 2 0 (Double.log2floor x + 1)) in Hp;
      [lia | reflexivity]. }
  unfold Double.roundPositive. set (e := Double.ulpExponent x).
  assert (He : (e + 52 = Double.log2floor x)%Z)
    by (unfold e, Double.ulpExponent; lia).
  pose proof (nearestEven_near (x / 2 ^ e)) as Hn.
  pose proof (pow2_pos e) as Pe.
  apply (Qmult_le_compat_r _ _ (2 ^ e)) in Hn; [|by apply Qlt_le_weak].
  eapply Qle_trans; [exact Hn|].
  rewrite Qmult_plus_distr_l, unscale.
  assert (Hu : 2 ^ e * 2 ^ 52 <= x).
  { rewrite <- pow2_add, He. exact Hlow. }
  change (2 ^ 52) with (4503599627370496 # 1) in Hu. lra.
Qed.

Lemma round_0 : Double.round 0 = 0.
Proof. reflexivity. Qed.

Lemma round_nonneg (x : Q) : 0 <= x -> 0 <= Double.round x.
Proof. intros H. rewrite <- round_0. by apply round_mono. Qed.

Lemma round_nonpos (x : Q) : x <= 0 -> Double.round x <= 0.
Proof. intros H. rewrite <- round_0. by apply round_mono. Qed.

End DoubleFacts.

(** Known doubles: the nearest to 0.1; a tie between two doubles, which
    goes to the one with the even significand; the smallest subnormal
    number, and half of it, which goes to zero. *)
Example round_samples :
  Double.round (1 # 10) = (3602879701896397 # 36028797018963968)%Q
  ∧ Double.round 9007199254740993 = 9007199254740992%Q
  ∧ Double.round 9007199254740995 = 9007199254740996%Q
  ∧ Double.round (- (1 # 3)) = (- (6004799503160661 # 18014398509481984))%Q
  ∧ (Double.round (2 ^ (-1074)) == 2 ^ (-1074))%Q
  ∧ (Double.round (2 ^ (-1075)) == 0)%Q
  ∧ (Double.round (3 * 2 ^ (-1075)) == 2 ^ (-1073))%Q.
Proof. repeat split; by vm_compute. Qed.

(** ** The frame-to-players map *)

Lemma foldl_set_lookup (frames : list Frame.t) (m : gmap Z (list Player.t)) (k : Z) :
  foldl (fun map frame =>
           <[Frame.frame_id frame := default [] (Frame.players frame)]> map)
        m frames !! k =
    match lastWithId k frames with
    | Some frame => Some (default [] (Frame.players frame))
    | None => m !! k
    end.
Proof.
  unfold lastWithId.
  induction frames as [|frame frames IH] using rev_ind; [done|].
  rewrite foldl_app, filter_app. cbn [foldl].
  destruct (decide (Frame.frame_id frame = k)) as [Heq|Hne].
  - rewrite filter_cons_True, filter_nil by done.
    rewrite last_snoc, <- Heq. apply lookup_insert_eq.
  - rewrite filter_cons_False, filter_nil, app_nil_r by done.
    rewrite lookup_insert_ne by done. apply IH.
Qed.

Lemma framePlayerMap_lookup (r : Results.body) (k : Z) :
  AnalysisResults.framePlayerMap r !! k =
    (fun frame => default [] (Frame.players frame))
      <$> lastWithId k (AnalysisResults.frameData r).
Proof.
  unfold AnalysisResults.framePlayerMap.
  rewrite (foldl_set_lookup _ ∅ k).
  destruct (lastWithId _ _); [done|]. apply lookup_empty.
Qed.

Lemma lastWithId_None (k : Z) (frames : list Frame.t) :
  (∀ frame, frame ∈ frames -> Frame.frame_id frame ≠ k) ->
  lastWithId k frames = None.
Proof.
  intros Hno. unfold lastWithId.
  destruct (last _) as [frame|] eqn:Hlast; [|done].
  apply last_Some in Hlast as [l' Hl'].
  assert (frame ∈ filter (fun frame => Frame.frame_id frame = k) frames) as Hin
    by (rewrite Hl'; apply elem_of_app; right; apply elem_of_cons; by left).
  apply list_elem_of_filter in Hin as [Hid Hin]. by destruct (Hno frame Hin).
Qed.

(** C9: when several entries of [frame_data] carry the same [frame_id], the
    map built by [framePlayerMap] holds the players list of the last of
    them in sequence order (an absent list counting as empty), and holds
    nothing for an id that no entry carries; the map is thus determined by
    the ordered list. *)
Theorem framePlayerMap_last_entry_wins (r : Results.body) (k : Z) :
  AnalysisResults.framePlayerMap r !! k =
    match lastWithId k (AnalysisResults.frameData r) with
    | Some frame => Some (default [] (Frame.players frame))
    | None => None
    end.
Proof.
  rewrite framePlayerMap_lookup. by destruct (lastWithId _ _).
Qed.

Example framePlayerMap_duplicate_frame :
  AnalysisResults.framePlayerMap Sample.body !! 1
  = Some [Sample.receiver9; Sample.receiver7].
Proof. vm_compute. reflexivity. Qed.

(** C7: when the frame id computed from the playback time has no entry in
    [frame_data], the active players become the empty list; the update is a
    total function, so nothing is raised. *)
Theorem gap_frame_has_no_active_players
    (r : Results.body) (refs : AnalysisResults.Refs)
    (videoEl : AnalysisResults.VideoEl) (st : AnalysisResults.State) :
  AnalysisResults.videoRef refs = Some videoEl ->
  (∀ frame, frame ∈ AnalysisResults.frameData r ->
     Frame.frame_id frame
       ≠ AnalysisResults.frameIdAt r (AnalysisResults.currentTime videoEl)) ->
  AnalysisResults.activePlayers
    (AnalysisResults.updateActivePlayersForCurrentTime r refs st) = [].
Proof.
  intros Hvideo Hgap. unfold AnalysisResults.updateActivePlayersForCurrentTime.
  rewrite Hvideo. cbn.
  rewrite framePlayerMap_lookup, (lastWithId_None _ _ Hgap). done.
Qed.

Lemma gap_frame_has_no_active_players_witness :
  AnalysisResults.activePlayers
    (AnalysisResults.updateActivePlayersForCurrentTime Sample.body
       (Sample.refs (1 # 15) false) (Sample.viewing [Sample.receiver7])) = [].
Proof.
  apply (gap_frame_has_no_active_players Sample.body (Sample.refs (1 # 15) false)
           (Sample.video (1 # 15) false)); [reflexivity|].
  refine (proj1 (Forall_forall _ _) _).
  repeat constructor; vm_compute; discriminate.
Defined.

(** The product of the time and the frame rate is the rounded one: at the
    double nearest to 1/30 of a second, just below it, the frame played
    at 30 frames per second is frame 1, not frame 0. *)
Example frame_index_of_rounded_product :
  (JS.literal (1 # 30) * 30 < 1)%Q
  ∧ AnalysisResults.frameIdAt Sample.body (JS.literal (1 # 30)) = 1
  ∧ AnalysisResults.activePlayers
      (AnalysisResults.updateActivePlayersForCurrentTime Sample.body
         (Sample.refs (JS.literal (1 # 30)) false) (Sample.viewing []))
    = [Sample.receiver9; Sample.receiver7].
Proof. repeat split; vm_compute; reflexivity. Qed.

(** ** Hover hit-testing *)

Lemma inBox_contains (px py : Q) (player : Player.t) :
  AnalysisResults.inBox (Some px) (Some py) player = true ↔ contains px py player.
Proof.
  unfold AnalysisResults.inBox, contains.
  destruct (Player.bbox player) as [[[x1 y1] x2] y2].
  rewrite !andb_true_iff, !Qle_bool_iff. tauto.
Qed.

Lemma find_first_match {A} (f : A -> bool) (l : list A) :
  match List.find f l with
  | Some x => ∃ before after,
      l = (before ++ x :: after)%list ∧ f x = true ∧ Forall (fun y => f y = false) before
  | None => Forall (fun y => f y = false) l
  end.
Proof.
  induction l as [|a l IH]; cbn; [constructor|].
  destruct (f a) eqn:Hfa.
  - exists [], l. by repeat split.
  - destruct (List.find f l) as [x|].
    + destruct IH as (before & after & -> & Hx & Hb).
      exists (a :: before), after. repeat split; [done|]. by constructor.
    + by constructor.
Qed.

Lemma not_inBox_not_contains (px py : Q) (l : list Player.t) :
  Forall (fun y => AnalysisResults.inBox (Some px) (Some py) y = false) l ->
  Forall (fun q => ¬ contains px py q) l.
Proof.
  intros Hall. eapply Forall_impl; [exact Hall|].
  intros q Hq Hc. apply inBox_contains in Hc. congruence.
Qed.

(** C10: with the video and the overlay mounted and the cursor at the point
    [(px, py)] of the source frame, the hovered player is the first one in
    list order whose box contains the point, bounds included; it is nobody
    when no box contains the point or when the video is playing. *)
Theorem hover_is_first_containing_box
    (r : Results.body) (refs : AnalysisResults.Refs)
    (videoEl : AnalysisResults.VideoEl) (rect : AnalysisResults.DOMRect)
    (event : AnalysisResults.MouseEvent) (st : AnalysisResults.State) (px py : Q) :
  AnalysisResults.videoRef refs = Some videoEl ->
  AnalysisResults.overlayRef refs = Some rect ->
  AnalysisResults.cursorPoint r videoEl rect event = (Some px, Some py) ->
  hovers px py (AnalysisResults.activePlayers st) (AnalysisResults.paused videoEl)
    (AnalysisResults.hoveredPlayer
       (AnalysisResults.handleOverlayMouseMove r refs event st)).
Proof.
  intros Hvideo Hoverlay Hpoint. unfold AnalysisResults.handleOverlayMouseMove.
  rewrite Hvideo, Hoverlay, Hpoint.
  destruct (AnalysisResults.paused videoEl); cbn; [|constructor].
  pose proof (find_first_match (AnalysisResults.inBox (Some px) (Some py))
                (AnalysisResults.activePlayers st)) as Hfind.
  destruct (List.find _ _) as [hit|]; cbn.
  - destruct Hfind as (before & after & Heq & Hhit & Hbefore).
    eapply hovers_first; [exact Heq| |].
    + by apply inBox_contains.
    + by apply not_inBox_not_contains.
  - apply hovers_nobody. by apply not_inBox_not_contains.
Qed.

Lemma hover_is_first_containing_box_witness :
  hovers 150 150 [Sample.receiver7; Sample.receiver9] true
    (AnalysisResults.hoveredPlayer
       (AnalysisResults.handleOverlayMouseMove Sample.body (Sample.refs 0 true)
          Sample.mouse (Sample.viewing [Sample.receiver7; Sample.receiver9]))).
Proof.
  apply (hover_is_first_containing_box Sample.body (Sample.refs 0 true)
           (Sample.video 0 true) Sample.rect Sample.mouse
           (Sample.viewing [Sample.receiver7; Sample.receiver9]));
    vm_compute; reflexivity.
Defined.

Example hover_picks_first_of_overlapping_boxes :
  AnalysisResults.hoveredPlayer
    (AnalysisResults.handleOverlayMouseMove Sample.body (Sample.refs 0 true)
       Sample.mouse (Sample.viewing [Sample.receiver7; Sample.receiver9]))
  = Some Sample.receiver7.
Proof. vm_compute. reflexivity. Qed.

(** The point that is tested is the computed one: 125 pixels into an
    overlay 960 wide over a frame 1920 wide come out a little to the
    right of 250, outside a box whose right edge is 250. *)
Example hover_tests_the_rounded_point :
  let edge := Player.mk 4 (100, 100, 250, 300)%Q None in
  let event := AnalysisResults.mkMouse 135 95 in
  fst (AnalysisResults.cursorPoint Sample.body (Sample.video 0 true) Sample.rect event)
  = Some (8796093022208001 # 35184372088832)
  ∧ (250 < 8796093022208001 # 35184372088832)%Q
  ∧ AnalysisResults.hoveredPlayer
      (AnalysisResults.handleOverlayMouseMove Sample.body (Sample.refs 0 true)
         event (Sample.viewing [edge]))
    = None.
Proof. repeat split; vm_compute; reflexivity. Qed.

Example hover_while_playing :
  AnalysisResults.hoveredPlayer
    (AnalysisResults.handleOverlayMouseMove Sample.body (Sample.refs 0 false)
       Sample.mouse (Sample.viewing [Sample.receiver7; Sample.receiver9]))
  = None.
Proof. vm_compute. reflexivity. Qed.

(** ** The tooltip of a player without a score *)

Lemma undef_or_num_absent (d : Q) : JS.undef_or_num None d = d.
Proof. reflexivity. Qed.

Lemma undef_or_num_zero (d : Q) : JS.undef_or_num (Some 0%Q) d = d.
Proof. reflexivity. Qed.

(** C1, as stated, fails: a hovered player whose entry carries no
    openscore is reported with the score 0.0, in the first revision of the
    tooltip and in the AI-enhanced one. *)
Lemma absent_openscore_reported_as_zero :
  ¬ (∀ (player : Player.t) (st : AnalysisResults.State),
       Player.openscore player = None ->
       AnalysisResults.hoveredPlayer st = Some player ->
       Text "0.0" ∉ flat_map leaves (AnalysisResults.tooltip st))
  ∧ ¬ (∀ (player : Player.t) (st : AnalysisResults.State),
         Player.openscore player = None ->
         AnalysisResults.hoveredPlayer st = Some player ->
         Text "0.0" ∉ flat_map leaves (AnalysisResultsAI.tooltip Sample.feedback st)).
Proof.
  split; intros Hclaim;
    apply (Hclaim Sample.receiver9 (hovering Sample.receiver9 (Sample.viewing [])));
    try reflexivity; vm_compute; set_solver.
Qed.

(** C1, amended: a player entry without an openscore is displayed exactly
    like the same entry with the score 0: the tooltip reads 0.0, and in the
    AI-enhanced revision carries the label of the lowest band. *)
Theorem absent_openscore_displayed_like_zero
    (player : Player.t) (feedback : Feedback.t) (st : AnalysisResults.State) :
  Player.openscore player = None ->
  AnalysisResults.hoveredPlayer st = Some player ->
  AnalysisResults.tooltip st
    = AnalysisResults.tooltip (hovering (withOpenscore 0 player) st)
  ∧ AnalysisResultsAI.tooltip feedback st
    = AnalysisResultsAI.tooltip feedback (hovering (withOpenscore 0 player) st)
  ∧ Text "0.0" ∈ flat_map leaves (AnalysisResults.tooltip st)
  ∧ Text "0.0" ∈ flat_map leaves (AnalysisResultsAI.tooltip feedback st)
  ∧ Text "Locked Down" ∈ flat_map leaves (AnalysisResultsAI.tooltip feedback st).
Proof.
  intros Hscore Hhover.
  unfold AnalysisResults.tooltip, AnalysisResultsAI.tooltip, hovering.
  cbn [AnalysisResults.hoveredPlayer AnalysisResults.setHoveredPlayer
       AnalysisResults.tooltipPos].
  rewrite Hhover. unfold withOpenscore.
  cbn [Player.openscore Player.track_id]. rewrite Hscore.
  rewrite undef_or_num_absent, undef_or_num_zero.
  unfold AnalysisResultsAI.getPlayerTooltipExplanation.
  cbn [Player.track_id].
  repeat split.
  - cbn. set_solver.
  - cbn. set_solver.
  - cbn. set_solver.
Qed.

Lemma absent_openscore_displayed_like_zero_witness :
  Text "0.0" ∈ flat_map leaves
    (AnalysisResults.tooltip (hovering Sample.receiver9 (Sample.viewing []))).
Proof.
  apply (absent_openscore_displayed_like_zero Sample.receiver9 Sample.feedback
           (hovering Sample.receiver9 (Sample.viewing []))); reflexivity.
Defined.

(** ** Scale factors *)

Lemma or_num_truthy (a b : Q) : JS.truthy_num a = true -> JS.or_num a b = a.
Proof. unfold JS.or_num. by intros ->. Qed.

(** C2, as stated, fails.  A payload without [fps], or with [fps] zero, is
    played at the built-in 30 frames per second; without [video_width]
    and [video_height], or with zeros, the boxes are placed by the video
    element's own size, or by 1.  The yard figure of the tooltip is the
    same for a play filmed 1920 and 3840 pixels wide: a distance of 1920
    pixels reads 53.3 yards in both. *)
Lemma scale_factors_not_only_from_payload :
  Results.fps Sample.bodyBare = None
  ∧ AnalysisResults.frameIdAt Sample.bodyBare 1 = 30
  ∧ AnalysisResults.frameIdAt Sample.bodyZero 1 = 30
  ∧ Results.video_width Sample.bodyBare = None
  ∧ AnalysisResults.nativeWidth Sample.bodyBare (Sample.video 0 true) = 1280%Q
  ∧ AnalysisResults.nativeWidth Sample.bodyZero (Sample.video 0 true) = 1280%Q
  ∧ AnalysisResults.nativeWidth Sample.bodyBare (AnalysisResults.mkVideo 0 true 0 0) = 1%Q
  ∧ Results.video_height Sample.bodyBare = None
  ∧ AnalysisResults.nativeHeight Sample.bodyBare (Sample.video 0 true) = 720%Q
  ∧ AnalysisResults.nativeHeight Sample.bodyZero (Sample.video 0 true) = 720%Q
  ∧ AnalysisResults.nativeHeight Sample.bodyBare (AnalysisResults.mkVideo 0 true 0 0) = 1%Q
  ∧ Results.video_width Sample.body ≠ Results.video_width Sample.body4k
  ∧ AnalysisResultsAI.explanationFor Sample.body Sample.receiver9
    = Some (Some "Nearest defender: ~53.3 yds. 2 defenders converging. Defender moving away.")
  ∧ AnalysisResultsAI.explanationFor Sample.body4k Sample.receiver9
    = AnalysisResultsAI.explanationFor Sample.body Sample.receiver9.
Proof.
  repeat split; try (vm_compute; reflexivity). vm_compute. discriminate.
Qed.

Lemma carries_or_num (field : option Q) (v d : Q) :
  carries field v -> JS.undef_or_num field d = v.
Proof.
  intros [-> Hv]. cbn. apply or_num_truthy. unfold JS.truthy_num.
  apply negb_true_iff, not_true_is_false. intros H. by apply Qeq_bool_iff in H.
Qed.

Lemma lacks_or_num (field : option Q) (d : Q) :
  lacks field -> JS.undef_or_num field d = d.
Proof.
  intros [->|(v & -> & Hv)]; [done|]. cbn. unfold JS.or_num, JS.truthy_num.
  apply Qeq_bool_iff in Hv. by rewrite Hv.
Qed.

Lemma or_num_falsy (a b : Q) : (a == 0)%Q -> JS.or_num a b = b.
Proof.
  intros H. unfold JS.or_num, JS.truthy_num. apply Qeq_bool_iff in H. by rewrite H.
Qed.

Lemma or_num_nonzero (a b : Q) : ¬ (a == 0)%Q -> JS.or_num a b = a.
Proof.
  intros H. apply or_num_truthy. unfold JS.truthy_num.
  apply negb_true_iff, not_true_is_false. intros E. by apply Qeq_bool_iff in E.
Qed.

Example scale_factors_samples :
  AnalysisResults.frameIdAt Sample.body (1 # 15) = 2
  ∧ AnalysisResults.frameIdAt Sample.body4k (1 # 15) = 4
  ∧ AnalysisResults.nativeWidth Sample.body4k (Sample.video 0 true) = 3840%Q
  ∧ JS.toFixed1 (AnalysisResultsAI.yardsOf (PlayerContext.mk 960 0 0)) = "26.6".
Proof. repeat split; by vm_compute. Qed.

(** C2, amended.  The frame index is the floor of the rounded product of the
    playback time and the payload's [fps] when the payload carries a
    non-zero one, and of the time and 30 otherwise.  The pixel space of
    the boxes and of the hit test is the payload's [video_width] by
    [video_height] where it carries non-zero values; a value that is
    absent or zero is replaced by the video element's own, and by 1 when
    that is zero too.  Frame index, boxes and cursor point depend on the
    payload through these factors only.  The yard figure of the tooltip
    divides by the fixed [1920 / 53.3] pixels per yard, a little over 36,
    and is the same for payloads that differ only in their scale
    metadata. *)
Theorem scale_factors_in_use
    (r : Results.body) (videoEl : AnalysisResults.VideoEl) (t : Q)
    (ctx : PlayerContext.t) (player : Player.t) :
  (∀ v, carries (Results.fps r) v ->
     AnalysisResults.frameIdAt r t = Z.max 0 (Qfloor (JS.mul t v)))
  ∧ (lacks (Results.fps r) ->
     AnalysisResults.frameIdAt r t = Z.max 0 (Qfloor (JS.mul t 30)))
  ∧ (∀ v, carries (Results.video_width r) v -> AnalysisResults.nativeWidth r videoEl = v)
  ∧ (lacks (Results.video_width r) ->
     (¬ (AnalysisResults.videoWidth videoEl == 0)%Q ->
      AnalysisResults.nativeWidth r videoEl = AnalysisResults.videoWidth videoEl)
     ∧ ((AnalysisResults.videoWidth videoEl == 0)%Q ->
        AnalysisResults.nativeWidth r videoEl = 1%Q))
  ∧ (∀ v, carries (Results.video_height r) v -> AnalysisResults.nativeHeight r videoEl = v)
  ∧ (lacks (Results.video_height r) ->
     (¬ (AnalysisResults.videoHeight videoEl == 0)%Q ->
      AnalysisResults.nativeHeight r videoEl = AnalysisResults.videoHeight videoEl)
     ∧ ((AnalysisResults.videoHeight videoEl == 0)%Q ->
        AnalysisResults.nativeHeight r videoEl = 1%Q))
  ∧ (∀ r' refs rect event st,
       AnalysisResults.videoRef refs = Some videoEl ->
       AnalysisResults.nativeWidth r' videoEl = AnalysisResults.nativeWidth r videoEl ->
       AnalysisResults.nativeHeight r' videoEl = AnalysisResults.nativeHeight r videoEl ->
       AnalysisResults.hoverBoxes r' refs st = AnalysisResults.hoverBoxes r refs st
       ∧ AnalysisResults.cursorPoint r' videoEl rect event
         = AnalysisResults.cursorPoint r videoEl rect event)
  ∧ (∀ r', AnalysisResults.fps r' = AnalysisResults.fps r ->
       AnalysisResults.frameIdAt r' t = AnalysisResults.frameIdAt r t)
  ∧ AnalysisResultsAI.yardsOf ctx
    = JS.quot (PlayerContext.nearest_defender_distance ctx) AnalysisResultsAI.pxPerYard
  ∧ (36 < AnalysisResultsAI.pxPerYard)%Q ∧ (AnalysisResultsAI.pxPerYard < 37)%Q
  ∧ (∀ fps' width' height',
       AnalysisResultsAI.explanationFor
         (Results.mkBody (Results.feedback r) fps' (Results.frame_data r) width' height')
         player
       = AnalysisResultsAI.explanationFor r player).
Proof.
  unfold AnalysisResults.frameIdAt, AnalysisResults.fps,
    AnalysisResults.nativeWidth, AnalysisResults.nativeHeight,
    AnalysisResults.sourceWidth, AnalysisResults.sourceHeight.
  split; [intros v Hv; by rewrite (carries_or_num _ v 30 Hv)|].
  split; [intros Hno; by rewrite (lacks_or_num _ 30 Hno)|].
  split.
  { intros v Hv. rewrite (carries_or_num _ v 0 Hv). apply or_num_nonzero, Hv. }
  split.
  { intros Hno. rewrite (lacks_or_num _ 0 Hno), (or_num_falsy 0) by reflexivity.
    split; intros Hel; [by apply or_num_nonzero | by apply or_num_falsy]. }
  split.
  { intros v Hv. rewrite (carries_or_num _ v 0 Hv). apply or_num_nonzero, Hv. }
  split.
  { intros Hno. rewrite (lacks_or_num _ 0 Hno), (or_num_falsy 0) by reflexivity.
    split; intros Hel; [by apply or_num_nonzero | by apply or_num_falsy]. }
  split.
  { intros r' refs rect event st Hvideo Hw Hh.
    unfold AnalysisResults.hoverBoxes, AnalysisResults.cursorPoint,
      AnalysisResults.nativeWidth, AnalysisResults.nativeHeight,
      AnalysisResults.sourceWidth, AnalysisResults.sourceHeight.
    rewrite Hvideo, Hw, Hh. done. }
  split; [by intros r' ->|].
  split; [reflexivity|].
  split; [by vm_compute|]. split; [by vm_compute|].
  reflexivity.
Qed.

(** ** Rendering a result without feedback items *)

Lemma hoverBoxes_classes (r : Results.body) (refs : AnalysisResults.Refs)
    (st : AnalysisResults.State) (c : string) :
  c ∈ flat_map classNames (AnalysisResults.hoverBoxes r refs st) ->
  c = "player-hover-box".
Proof.
  unfold AnalysisResults.hoverBoxes.
  destruct (AnalysisResults.videoRef refs) as [videoEl|]; [|by intros ?%elem_of_nil].
  destruct (AnalysisResults.paused videoEl); [|by intros ?%elem_of_nil].
  cbn [when]. induction (AnalysisResults.activePlayers st) as [|player players IH].
  - by intros ?%elem_of_nil.
  - cbn [map flat_map]. destruct (Player.bbox player) as [[[x1 y1] x2] y2].
    cbn. intros [->|Hin]%elem_of_cons; [done|]. by apply IH.
Qed.

Lemma tooltip_classes (st : AnalysisResults.State) (c : string) :
  c ∈ flat_map classNames (AnalysisResults.tooltip st) ->
  c ∈ ["player-tooltip"; "tooltip-title"; ""; "tooltip-placeholder"].
Proof.
  unfold AnalysisResults.tooltip.
  destruct (AnalysisResults.hoveredPlayer st); cbn; [|by intros ?%elem_of_nil].
  done.
Qed.

Lemma listSection_empty {A} (className title listTag listClass : string)
    (item : nat -> A -> node) :
  AnalysisResults.listSection className title listTag listClass item [] = [].
Proof. reflexivity. Qed.

(** C6, as stated, fails: empty lists alone do not make the viewer
    render.  A result whose six feedback lists are empty but whose
    feedback has no statistics, or statistics without the average
    OpenScore, raises a [TypeError] in the statistics grid. *)
Lemma empty_feedback_lists_do_not_suffice :
  ¬ (∀ (results : Results.t) (r : Results.body) (feedback : Feedback.t)
       (refs : AnalysisResults.Refs) (st : AnalysisResults.State),
       Results.results results = Some r ->
       Results.feedback r = Some feedback ->
       feedbackListsEmpty feedback ->
       is_Some (AnalysisResults.render (Some results) refs st))
  ∧ feedbackListsEmpty Sample.feedbackBare
  ∧ AnalysisResults.render (Some (Sample.resultsWith Sample.feedbackBare))
      (Sample.refs 0 true) (Sample.viewing []) = None
  ∧ feedbackListsEmpty Sample.feedbackNoAverage
  ∧ AnalysisResults.render (Some (Sample.resultsWith Sample.feedbackNoAverage))
      (Sample.refs 0 true) (Sample.viewing []) = None.
Proof.
  split; [|by repeat split].
  intros Hclaim.
  destruct (Hclaim (Sample.resultsWith Sample.feedbackBare) _ Sample.feedbackBare
              (Sample.refs 0 true) (Sample.viewing []) eq_refl eq_refl)
    as [out Hout]; [by repeat split|].
  discriminate Hout.
Qed.

(** C6, amended: a completed result whose six feedback lists are empty and
    whose feedback carries the statistics with their average OpenScore,
    which the viewer prints unconditionally, is rendered without error,
    and none of the six feedback sections is part of the output. *)
Theorem empty_feedback_lists_omit_sections
    (results : Results.t) (r : Results.body) (feedback : Feedback.t)
    (statistics : Statistics.t) (avg : Q)
    (refs : AnalysisResults.Refs) (st : AnalysisResults.State) :
  Results.results results = Some r ->
  Results.feedback r = Some feedback ->
  Feedback.statistics feedback = Some statistics ->
  Statistics.avg_openscore_all_receivers statistics = Some avg ->
  feedbackListsEmpty feedback ->
  ∃ out, AnalysisResults.render (Some results) refs st = Some out
         ∧ ∀ c, c ∈ sectionClasses -> c ∉ flat_map classNames out.
Proof.
  intros Hres Hfb Hstats Havg (Hs & Ha & Hr & Hb & Hm & Hk).
  unfold AnalysisResults.render. cbn [mbind option_bind]. rewrite Hres. cbn [mbind option_bind].
  rewrite Hfb. cbn [mbind option_bind]. rewrite Hstats. cbn [mbind option_bind].
  rewrite Havg. cbn [mbind option_bind].
  rewrite Hs, Ha, Hr, Hb, Hm, Hk. cbn [mbind option_bind].
  rewrite !listSection_empty.
  eexists. split; [reflexivity|].
  intros c Hc Hin. cbn in Hin.
  rewrite !app_nil_r, flat_map_app in Hin.
  assert (c ∈ ["player-tooltip"; "tooltip-title"; ""; "tooltip-placeholder";
               "player-hover-box"; "analysis-results"; "grade-section";
               "grade-card"; "grade-label"; "grade-value"; "grade-score";
               "grade-summary"; "stats-grid"; "stat-card"; "stat-label";
               "stat-value"; "feedback-grid"; "video-player-section";
               "video-player-card"; "video-overlay-container";
               "analysis-video-player"]) as Hknown.
  { rewrite !elem_of_cons, elem_of_app in Hin. rewrite !elem_of_cons.
    pose proof (hoverBoxes_classes r refs st c) as Hboxes.
    pose proof (tooltip_classes st c) as Htip.
    rewrite !elem_of_cons in Htip. tauto. }
  clear Hin. revert c Hc Hknown.
  refine (proj1 (Forall_forall (fun c => c ∈ _ -> False) _) _).
  unfold sectionClasses.
  repeat constructor; intros Hin;
    repeat (apply elem_of_cons in Hin as [Hin|Hin]; [discriminate Hin|]);
    by apply elem_of_nil in Hin.
Qed.

Lemma empty_feedback_lists_omit_sections_witness :
  ∃ out, AnalysisResults.render (Some (Results.mk (Some Sample.body)))
           (Sample.refs 0 true) (Sample.viewing [Sample.receiver7]) = Some out
         ∧ ∀ c, c ∈ sectionClasses -> c ∉ flat_map classNames out.
Proof.
  apply (empty_feedback_lists_omit_sections
           (Results.mk (Some Sample.body)) Sample.body Sample.feedback
           (Statistics.mk 0 (Some 0%Q) 4) 0%Q);
    try reflexivity.
  repeat split.
Defined.

(** ** Dropped files *)













Example drop_examples :
  let drop :=
    VideoUpload.drop Sample.props Sample.uploadVideo
      Sample.invalidTypeText Sample.tooManyFilesText in
  drop false [Sample.clip]
  = VideoUpload.onDrop Sample.props Sample.uploadVideo [Sample.clip] []
  ∧ VideoUpload.uploadErrorAfter None (drop false [Sample.clip; Sample.notes])
    = Some "Only MP4 files are allowed"
  ∧ VideoUpload.uploadErrorAfter None (drop false [Sample.clip; Sample.mislabelled])
    = Some "Please upload only one file at a time"
  ∧ drop true [Sample.clip] = [].
Proof. repeat split; vm_compute; reflexivity. Qed.

(** ** The task-state contract, seen from the page *)

Lemma commit_polling (prev next : App.State) :
  App.polling (App.commit prev next) = true ->
  (App.polling next = true
   ∧ App.taskId prev = App.taskId next ∧ App.status prev = App.status next)
  ∨ App.shouldPoll (App.taskId next) (App.status next) = true.
Proof.
  unfold App.commit. case_bool_decide as Hdeps; cbn; [|by right].
  intros Hp. left. tauto.
Qed.

Lemma commit_fields (prev next : App.State) :
  App.taskId (App.commit prev next) = App.taskId next
  ∧ App.status (App.commit prev next) = App.status next
  ∧ App.results (App.commit prev next) = App.results next
  ∧ App.error (App.commit prev next) = App.error next
  ∧ App.progress (App.commit prev next) = App.progress next.
Proof. unfold App.commit. by case_bool_decide. Qed.

Lemma commit_invariant (prev next : App.State) :
  pollingInvariant prev ->
  (App.polling next = true -> App.polling prev = true) ->
  pollingInvariant (App.commit prev next).
Proof.
  intros Hinv Hmono Hp.
  destruct (commit_fields prev next) as (-> & -> & _).
  apply commit_polling in Hp as [(Hp & <- & <-)|Hp].
  - apply Hinv, Hmono, Hp.
  - unfold App.shouldPoll in Hp. apply andb_true_iff in Hp as [? ?%negb_true_iff]. done.
Qed.

Lemma pollStatus_polling getStatus getResults (s : App.State) :
  App.polling (App.pollStatus getStatus getResults s) = true -> App.polling s = true.
Proof.
  unfold App.pollStatus.
  destruct getStatus as [statusData|err]; [|done].
  destruct (App.statusIs _ "completed"); [by destruct getResults|].
  by destruct (App.statusIs _ "failed").
Qed.

Lemma step_invariant (s : App.State) (e : App.event) :
  pollingInvariant s -> pollingInvariant (App.step s e).
Proof.
  intros Hinv.
  destruct e as [getStatus getResults|getStatus getResults|statusData|getResults
                |response|msg|];
    cbn [App.step].
  - apply commit_invariant; [done|]. apply pollStatus_polling.
  - by apply commit_invariant.
  - destruct (App.statusIs _ _); [|done]. by apply commit_invariant.
  - by apply commit_invariant.
  - by apply commit_invariant.
  - by apply commit_invariant.
  - destruct (_ || _); [|done]. by apply commit_invariant.
Qed.

Lemma run_invariant (es : list App.event) (s : App.State) :
  pollingInvariant s -> pollingInvariant (App.run s es).
Proof.
  revert s. induction es as [|e es IH]; intros s Hinv; [done|].
  apply (IH (App.step s e)), step_invariant, Hinv.
Qed.

Lemma initial_invariant : pollingInvariant App.initial.
Proof. by intros ?. Qed.

(** The two halves of a callback, taken one after the other, are the
    callback. *)
Lemma callback_halves_compose (s : App.State) (statusData : StatusData.t)
    (getResults : Results.t + AxiosError.t) :
  pollingInvariant s ->
  App.statusIs (StatusData.status statusData) "completed" = true ->
  App.step (App.step s (App.ResultsPending statusData)) (App.ResultsTick getResults)
  = App.step s (App.PollTick (inl statusData) getResults).
Proof.
  intros Hinv Hdone. cbn [App.step]. rewrite Hdone.
  unfold App.pollStatus. rewrite Hdone. fold (App.statusStored statusData s).
  assert (Hterminal : App.terminal (StatusData.status statusData) = true)
    by (unfold App.terminal; by rewrite Hdone).
  assert (Hoff : App.polling (App.commit s (App.statusStored statusData s)) = false).
  { unfold App.commit. case_bool_decide as Hdeps; cbn.
    - destruct Hdeps as [_ Hsame]. cbn in Hsame.
      destruct (App.polling s) eqn:Hp; [|done].
      destruct (Hinv Hp) as [_ Hopen]. congruence.
    - unfold App.shouldPoll. rewrite Hterminal. apply andb_false_r. }
  set (s1 := App.commit s (App.statusStored statusData s)) in *.
  destruct (commit_fields s (App.statusStored statusData s))
    as (Hf1 & Hf2 & Hf3 & Hf4 & Hf5).
  fold s1 in Hf1, Hf2, Hf3, Hf4, Hf5.
  assert (Hs1 : s1 = App.setPolling false (App.statusStored statusData s)).
  { destruct s1. cbn in *. by subst. }
  rewrite Hoff, Hs1.
  unfold App.commit at 1. rewrite bool_decide_eq_true_2 by (by destruct getResults).
  unfold App.commit. case_bool_decide as Hdeps; destruct getResults; cbn; try done;
    unfold App.shouldPoll; rewrite Hterminal, andb_false_r; done.
Qed.

(** The callback, seen from the arrival of its status response. *)
Lemma pollStatus_statusArrived getStatus getResults (s : App.State) :
  App.pollStatus getStatus getResults s
  = if Session.completed getStatus
    then App.resultsFetched getResults (App.statusArrived getStatus s)
    else App.statusArrived getStatus s.
Proof.
  destruct getStatus as [statusData|err]; [|done].
  unfold App.pollStatus, App.statusArrived, Session.completed.
  fold (App.statusStored statusData s).
  by destruct (App.statusIs (StatusData.status statusData) "completed").
Qed.

(** What a session does to the page is what the page does at some event. *)
Lemma page_step (c : Session.t) (e : Session.event) :
  Session.page (Session.step c e) = Session.page c
  ∨ ∃ e', Session.page (Session.step c e) = App.step (Session.page c) e'.
Proof.
  destruct e as [|i getStatus|i getResults| |message|i uploadVideo|];
    cbn [Session.step].
  - left. by destruct (App.polling _).
  - destruct (Session.inFlight c !! i) as [[current| |mounted]|]; [|by left..].
    right. cbn [Session.settle Session.page].
    destruct (Session.completed getStatus) eqn:Hdone.
    + destruct getStatus as [statusData|err]; [|done]. cbn in Hdone.
      exists (App.ResultsPending statusData). cbn [App.step]. rewrite Hdone.
      unfold App.statusArrived. rewrite Hdone. by destruct current.
    + destruct current.
      * exists (App.PollTick getStatus (inr (AxiosError.mk None None))).
        cbn [App.step]. by rewrite pollStatus_statusArrived, Hdone.
      * exists (App.LateTick getStatus (inr (AxiosError.mk None None))).
        cbn [App.step]. by rewrite pollStatus_statusArrived, Hdone.
  - destruct (Session.inFlight c !! i) as [[current| |mounted]|]; [by left| |by left..].
    right. by exists (App.ResultsTick getResults).
  - left. by destruct (_ && _).
  - destruct (_ && _); [|by left]. right. by exists (App.UploadError message).
  - destruct (Session.inFlight c !! i) as [[current| |mounted]|]; [by left..| |by left].
    right. destruct uploadVideo as [response|err].
    + by exists (App.UploadSuccess response).
    + by exists (App.UploadError (AxiosError.text err "Upload failed")).
  - destruct (_ || _) eqn:Hbutton; [|by left]. right. exists App.Reset.
    cbn [App.step]. by rewrite Hbutton.
Qed.

Lemma session_step_invariant (c : Session.t) (e : Session.event) :
  pollingInvariant (Session.page c) -> pollingInvariant (Session.page (Session.step c e)).
Proof.
  intros Hinv. destruct (page_step c e) as [->|[e' ->]]; [done|].
  by apply step_invariant.
Qed.

Lemma session_invariant (c : Session.t) :
  inSession c -> pollingInvariant (Session.page c).
Proof.
  intros [history ->]. unfold Session.run.
  induction history as [|e history IH] using rev_ind; [apply initial_invariant|].
  rewrite foldl_app. cbn [foldl]. by apply session_step_invariant.
Qed.

Lemma inSession_step (c : Session.t) (e : Session.event) :
  inSession c -> inSession (Session.step c e).
Proof.
  intros [history ->]. exists (history ++ [e])%list. unfold Session.run.
  by rewrite foldl_app.
Qed.

(** The pages of sessions are among those that series of page events
    lead to. *)
Lemma session_page_reachable (c : Session.t) :
  inSession c -> reachable (Session.page c).
Proof.
  intros [history ->]. unfold Session.run.
  induction history as [|e history IH] using rev_ind; [by exists []|].
  rewrite foldl_app. cbn [foldl].
  destruct (page_step (foldl Session.step Session.initial history) e) as [->|[e' ->]];
    [done|].
  destruct IH as [events ->]. exists (events ++ [e'])%list. unfold App.run.
  by rewrite foldl_app.
Qed.

Lemma quiet_lookup (c : Session.t) (i : nat) (r : Session.request) :
  quiet c -> Session.inFlight c !! i = Some r -> r = Session.GetResults.
Proof. intros Hq Hi. exact (proj1 (Forall_lookup _ _) Hq i r Hi). Qed.

Lemma hidden_widget (s : App.State) :
  JS.truthy_opt_str (App.taskId s) = true -> App.uploadVisible s = false.
Proof. intros Htask. unfold App.uploadVisible. by rewrite Htask. Qed.

(** With a task on the page, the interval cleared and neither a status
    request nor an upload in flight, no event but a reset touches the
    task, its status or the interval, and none sends such a request. *)
Lemma quiet_step (c : Session.t) (e : Session.event) :
  JS.truthy_opt_str (App.taskId (Session.page c)) = true ->
  App.polling (Session.page c) = false ->
  quiet c ->
  Session.isReset e = false ->
  App.taskId (Session.page (Session.step c e)) = App.taskId (Session.page c)
  ∧ App.status (Session.page (Session.step c e)) = App.status (Session.page c)
  ∧ App.polling (Session.page (Session.step c e)) = false
  ∧ quiet (Session.step c e).
Proof.
  intros Htask Hp Hq Hreset.
  destruct e as [|i getStatus|i getResults| |message|i uploadVideo|];
    cbn [Session.step]; try discriminate Hreset.
  - by rewrite Hp.
  - destruct (Session.inFlight c !! i) as [r|] eqn:Hi; [|done].
    by rewrite (quiet_lookup c i r Hq Hi).
  - destruct (Session.inFlight c !! i) as [r|] eqn:Hi; [|done].
    rewrite (quiet_lookup c i r Hq Hi).
    cbn [Session.settle Session.page Session.inFlight].
    assert (Hdeps : App.taskId (Session.page c)
                    = App.taskId (App.setPolling (App.polling (Session.page c))
                                    (App.resultsFetched getResults (Session.page c)))
                    ∧ App.status (Session.page c)
                      = App.status (App.setPolling (App.polling (Session.page c))
                                      (App.resultsFetched getResults (Session.page c))))
      by (by destruct getResults).
    unfold App.commit. rewrite !bool_decide_eq_true_2 by done.
    destruct Hdeps as [<- <-]. repeat split; [done|].
    unfold quiet. cbn [Session.inFlight]. apply Forall_fmap.
    eapply Forall_impl; [apply Forall_delete, Hq|].
    by intros r' ->.
  - by rewrite hidden_widget.
  - by rewrite hidden_widget.
  - destruct (Session.inFlight c !! i) as [r|] eqn:Hi; [|done].
    by rewrite (quiet_lookup c i r Hq Hi).
Qed.

Lemma quiet_run (later : list Session.event) (c : Session.t) :
  JS.truthy_opt_str (App.taskId (Session.page c)) = true ->
  App.polling (Session.page c) = false ->
  quiet c ->
  Forall (fun e => Session.isReset e = false) later ->
  App.taskId (Session.page (Session.run c later)) = App.taskId (Session.page c)
  ∧ App.status (Session.page (Session.run c later)) = App.status (Session.page c)
  ∧ App.polling (Session.page (Session.run c later)) = false
  ∧ quiet (Session.run c later).
Proof.
  revert c. induction later as [|e later IH]; intros c Htask Hp Hq Hreset; [done|].
  apply Forall_cons in Hreset as [He Hlater].
  destruct (quiet_step c e Htask Hp Hq He) as (Ht & Hs & Hp' & Hq').
  unfold Session.run. cbn [foldl]. fold (Session.run (Session.step c e) later).
  destruct (IH (Session.step c e)) as (Ht2 & Hs2 & Hp2 & Hq2); try done.
  - by rewrite Ht.
  - rewrite Ht2, Hs2. done.
Qed.

(** With a task on the page, the interval cleared and nothing in flight,
    the session stays as it is at every event that is not a click on a
    reset button of the page. *)
Lemma idle_step (c : Session.t) (e : Session.event) :
  JS.truthy_opt_str (App.taskId (Session.page c)) = true ->
  App.polling (Session.page c) = false ->
  Session.inFlight c = [] ->
  Session.isReset e = false
  ∨ App.resultsVisible (Session.page c) || App.errorVisible (Session.page c) = false ->
  Session.step c e = c.
Proof.
  intros Htask Hp Hnone Hreset.
  destruct e as [|i getStatus|i getResults| |message|i uploadVideo|];
    cbn [Session.step]; rewrite ?Hnone, ?Hp, ?hidden_widget by done; try done.
  destruct Hreset as [Hreset|Hnone']; [done|]. by rewrite Hnone'.
Qed.

Lemma idle_run (later : list Session.event) (c : Session.t) :
  JS.truthy_opt_str (App.taskId (Session.page c)) = true ->
  App.polling (Session.page c) = false ->
  Session.inFlight c = [] ->
  Forall (fun e => Session.isReset e = false) later
  ∨ App.resultsVisible (Session.page c) || App.errorVisible (Session.page c) = false ->
  Session.run c later = c.
Proof.
  intros Htask Hp Hnone Hreset. induction later as [|e later IH]; [done|].
  unfold Session.run. cbn [foldl]. rewrite idle_step; try done.
  - apply IH. destruct Hreset as [Hreset|Hreset]; [left|by right].
    by apply Forall_cons in Hreset as [_ ?].
  - destruct Hreset as [Hreset|Hreset]; [left|by right].
    by apply Forall_cons in Hreset as [? _].
Qed.

(** C4, as stated, fails.  The callback of the interval is not cancelled
    when the interval is cleared.  In the session below the interval
    fires twice before either status request is answered; the second
    request is answered first, with [completed], and the results are
    fetched; the answer to the first, [processing], arrives afterwards.
    The page then holds [processing] again for the same task, and the
    effect arms a new interval. *)
Lemma late_response_reopens_status :
  ¬ (∀ history later : list Session.event,
       let c := Session.run Session.initial history in
       JS.truthy_opt_str (App.taskId (Session.page c)) = true ->
       App.terminal (App.status (Session.page c)) = true ->
       Forall (fun e => Session.isReset e = false) later ->
       App.status (Session.page (Session.run c later)) = App.status (Session.page c))
  ∧ (let c := Session.run Session.initial Sample.overtakingSession in
     let c' := Session.step c Sample.overtakenAnswer in
     App.status (Session.page c) = Some "completed"
     ∧ App.polling (Session.page c) = false
     ∧ Session.inFlight c = [Session.GetStatus false]
     ∧ App.taskId (Session.page c') = App.taskId (Session.page c)
     ∧ App.status (Session.page c') = Some "processing"
     ∧ App.polling (Session.page c') = true).
Proof.
  split; [|by vm_compute].
  intros Hclaim.
  specialize (Hclaim Sample.overtakingSession [Sample.overtakenAnswer] eq_refl eq_refl).
  discriminate Hclaim. repeat constructor.
Qed.

(** C4, amended: once the page holds the status [completed] or [failed] for
    a task, the polling interval is cleared.  If, in addition, no status
    request and no upload is in flight any more, then through every
    series of events without a reset the task and its status stay as they
    are, the interval stays cleared, and no status request or upload is
    sent. *)
Theorem terminal_status_is_final (history : list Session.event) :
  let c := Session.run Session.initial history in
  JS.truthy_opt_str (App.taskId (Session.page c)) = true ->
  App.terminal (App.status (Session.page c)) = true ->
  App.polling (Session.page c) = false
  ∧ (quiet c ->
     ∀ later : list Session.event,
       Forall (fun e => Session.isReset e = false) later ->
       App.taskId (Session.page (Session.run c later)) = App.taskId (Session.page c)
       ∧ App.status (Session.page (Session.run c later)) = App.status (Session.page c)
       ∧ App.polling (Session.page (Session.run c later)) = false
       ∧ quiet (Session.run c later)).
Proof.
  cbn zeta. set (c := Session.run Session.initial history).
  intros Htask Hterminal.
  assert (Hp : App.polling (Session.page c) = false).
  { assert (Hinv : pollingInvariant (Session.page c))
      by (apply session_invariant; by exists history).
    destruct (App.polling (Session.page c)) eqn:Harmed; [|done].
    destruct (Hinv Harmed) as [_ Hopen]; congruence. }
  split; [exact Hp|]. intros Hq later Hreset. by apply quiet_run.
Qed.

Lemma terminal_status_is_final_witness :
  App.status
    (Session.page
       (Session.run (Session.run Session.initial Sample.completingSession)
          [Session.Tick; Session.Drop; Session.RejectedDrop Sample.tooManyFilesText;
           Session.StatusArrives 0 (inl (Sample.answers "processing" 40 None));
           Sample.answered "queued"]))
  = Some "completed".
Proof.
  apply (terminal_status_is_final Sample.completingSession);
    [reflexivity | reflexivity | constructor | repeat constructor].
Defined.

Lemma poll_processing (s : App.State) (statusData : StatusData.t)
    (getResults : Results.t + AxiosError.t) :
  App.polling s = true ->
  JS.truthy_opt_str (App.taskId s) = true ->
  StatusData.status statusData = Some "processing" ->
  let s' := App.step s (App.PollTick (inl statusData) getResults) in
  App.progress s' = reported statusData
  ∧ App.polling s' = true
  ∧ App.taskId s' = App.taskId s
  ∧ App.status s' = Some "processing".
Proof.
  intros Hp Htask Hstatus. cbn zeta. cbn [App.step].
  unfold App.pollStatus. rewrite Hstatus. cbn [App.statusIs String.eqb]. cbn.
  unfold App.commit. case_bool_decide as Hdeps; cbn.
  - done.
  - unfold App.shouldPoll. by rewrite Htask.
Qed.

(** C3, as stated, fails: the page stores whatever the latest response
    reports, so two consecutive [processing] responses with 50 and then 30
    move the stored progress backward. *)
Lemma stored_progress_can_move_backward :
  ¬ (∀ (s : App.State) (first second : StatusData.t)
       (res1 res2 : Results.t + AxiosError.t),
       App.polling s = true ->
       StatusData.status first = Some "processing" ->
       StatusData.status second = Some "processing" ->
       (App.progress (App.step s (App.PollTick (inl first) res1))
        <= App.progress
             (App.step (App.step s (App.PollTick (inl first) res1))
                (App.PollTick (inl second) res2)))%Q).
Proof.
  intros Hclaim.
  specialize (Hclaim (App.run App.initial [Sample.uploaded])
                (Sample.answers "processing" 50 None)
                (Sample.answers "processing" 30 None)
                Sample.noResults Sample.noResults eq_refl eq_refl eq_refl).
  vm_compute in Hclaim. by apply Hclaim.
Qed.

(** C3, amended: while the responses say [processing], the progress held
    after each poll is exactly the one that response reports (0 when it
    reports none); it is therefore non-decreasing whenever the reported
    values are. *)
Theorem stored_progress_mirrors_responses
    (s : App.State) (answers : list (StatusData.t * (Results.t + AxiosError.t))) :
  App.polling s = true ->
  JS.truthy_opt_str (App.taskId s) = true ->
  Forall (fun answer => StatusData.status (fst answer) = Some "processing") answers ->
  App.progressTrace s (polls answers) = map (fun answer => reported (fst answer)) answers
  ∧ (nondecreasing (map (fun answer => reported (fst answer)) answers) ->
     nondecreasing (App.progressTrace s (polls answers))).
Proof.
  intros Hp Htask Hall.
  assert (Htrace : App.progressTrace s (polls answers)
                   = map (fun answer => reported (fst answer)) answers).
  { revert s Hp Htask.
    induction Hall as [|[statusData getResults] answers Hstatus _ IH]; intros s Hp Htask;
      [done|].
    cbn [polls map App.progressTrace fst snd].
    destruct (poll_processing s statusData getResults Hp Htask Hstatus)
      as (Hprogress & Hp' & Htask' & _).
    rewrite Hprogress. f_equal. apply IH; [done|]. by rewrite Htask'. }
  split; [exact Htrace|]. by rewrite Htrace.
Qed.

Lemma stored_progress_mirrors_responses_witness :
  App.progressTrace (App.run App.initial [Sample.uploaded])
    (polls [(Sample.answers "processing" 20 None, Sample.noResults);
            (StatusData.mk (Some "processing") None None, Sample.noResults);
            (Sample.answers "processing" 60 None, Sample.noResults)])
  = [20; 0; 60]%Q.
Proof.
  apply (stored_progress_mirrors_responses (App.run App.initial [Sample.uploaded])
           [(Sample.answers "processing" 20 None, Sample.noResults);
            (StatusData.mk (Some "processing") None None, Sample.noResults);
            (Sample.answers "processing" 60 None, Sample.noResults)]);
    [reflexivity | reflexivity | repeat constructor].
Defined.

(** ** Failure reports *)

Lemma undef_or_str_truthy (a : option string) (b : string) :
  JS.truthy_str b = true -> JS.truthy_str (JS.undef_or_str a b) = true.
Proof.
  intros Hb. unfold JS.undef_or_str. destruct a as [v|]; [|done].
  by destruct (JS.truthy_str v) eqn:Hv.
Qed.

Lemma render_error_classes (s : App.State) (c : string) :
  c ∈ flat_map classNames (App.errorSection s) -> c ∈ classNames (App.render s).
Proof.
  intros Hin. unfold App.render, el. cbn [classNames flat_map].
  rewrite !flat_map_app, !app_nil_r.
  repeat (rewrite elem_of_app || rewrite elem_of_cons). tauto.
Qed.

Lemma render_error_leaves (s : App.State) (n : node) :
  n ∈ flat_map leaves (App.errorSection s) -> n ∈ leaves (App.render s).
Proof.
  intros Hin. unfold App.render, el. cbn [leaves flat_map].
  rewrite !flat_map_app, !app_nil_r.
  repeat (rewrite elem_of_app || rewrite elem_of_cons). tauto.
Qed.

(** C5: a status poll answered with [failed] leaves the page with the
    status [failed], the interval cleared, and a non-empty reason as its
    error: the message of the response, or "Processing failed" when the
    response has none.  The error card with that reason and the retry
    button is part of the rendered page. *)
Theorem failed_poll_surfaces_reason
    (s : App.State) (statusData : StatusData.t)
    (getResults : Results.t + AxiosError.t) :
  App.polling s = true ->
  StatusData.status statusData = Some "failed" ->
  let s' := App.step s (App.PollTick (inl statusData) getResults) in
  let reason := JS.undef_or_str (StatusData.message statusData) "Processing failed" in
  App.error s' = Some reason
  ∧ JS.truthy_str reason = true
  ∧ App.status s' = Some "failed"
  ∧ App.polling s' = false
  ∧ App.errorSection s'
    = [el "div" "error-section"
          [el "div" "error-card"
              [el "svg" "error-icon-large" [el "path" "" []];
               el "h3" "" [Text "Error"];
               el "p" "" [Text reason];
               App.resetButton "Try Again"]]]
  ∧ "error-section" ∈ classNames (App.render s')
  ∧ Text reason ∈ leaves (App.render s').
Proof.
  intros Hp Hstatus. cbn zeta. cbn [App.step].
  set (reason := JS.undef_or_str (StatusData.message statusData) "Processing failed").
  assert (Hreason : JS.truthy_str reason = true) by by apply undef_or_str_truthy.
  destruct (commit_fields s (App.pollStatus (inl statusData) getResults s))
    as (Htask & Hst & Hres & Herr & Hprog).
  assert (Herror : App.error (App.commit s (App.pollStatus (inl statusData) getResults s))
                   = Some reason).
  { rewrite Herr. unfold App.pollStatus. rewrite Hstatus. done. }
  assert (Hfailed : App.status (App.commit s (App.pollStatus (inl statusData) getResults s))
                    = Some "failed").
  { rewrite Hst. unfold App.pollStatus. rewrite Hstatus. done. }
  assert (Hsection : App.errorSection (App.commit s (App.pollStatus (inl statusData) getResults s))
                     = [el "div" "error-section"
                           [el "div" "error-card"
                               [el "svg" "error-icon-large" [el "path" "" []];
                                el "h3" "" [Text "Error"];
                                el "p" "" [Text reason];
                                App.resetButton "Try Again"]]]).
  { unfold App.errorSection, App.errorVisible. rewrite Herror. cbn. by rewrite Hreason. }
  split; [exact Herror|]. split; [exact Hreason|]. split; [exact Hfailed|].
  split; [|split; [exact Hsection|]].
  - unfold App.commit. case_bool_decide as Hdeps; cbn.
    + unfold App.pollStatus. rewrite Hstatus. done.
    + unfold App.shouldPoll, App.pollStatus. rewrite Hstatus. cbn.
      apply andb_false_r.
  - split.
    + apply render_error_classes. rewrite Hsection. cbn.
      rewrite !elem_of_cons. tauto.
    + apply render_error_leaves. rewrite Hsection. cbn.
      rewrite !elem_of_cons. tauto.
Qed.

Lemma failed_poll_surfaces_reason_witness :
  App.error (App.run App.initial Sample.failingRun) = Some "Corrupt stream ordering".
Proof.
  apply (failed_poll_surfaces_reason
           (App.run App.initial [Sample.uploaded; Sample.tick (Sample.answers "processing" 50 None)])
           (Sample.answers "failed" 50 (Some "Corrupt stream ordering"))
           Sample.noResults); reflexivity.
Defined.

(** * Further properties *)

(** ** Frames and playback *)

Lemma lastWithId_Some (k : Z) (frames : list Frame.t) (frame : Frame.t) :
  lastWithId k frames = Some frame ->
  frame ∈ frames ∧ Frame.frame_id frame = k.
Proof.
  unfold lastWithId. intros Hlast.
  apply last_Some in Hlast as [l' Hl'].
  assert (frame ∈ filter (fun frame => Frame.frame_id frame = k) frames) as Hin
    by (rewrite Hl'; apply elem_of_app; right; apply elem_of_cons; by left).
  apply list_elem_of_filter in Hin as [Hid Hin]. done.
Qed.

(** X1: the map has an entry for a frame id exactly when some entry of
    [frame_data] carries that id. *)
Theorem framePlayerMap_has_exactly_listed_ids (r : Results.body) (k : Z) :
  is_Some (AnalysisResults.framePlayerMap r !! k)
  ↔ ∃ frame, frame ∈ AnalysisResults.frameData r ∧ Frame.frame_id frame = k.
Proof.
  rewrite framePlayerMap_lookup. split.
  - intros [players Hplayers].
    destruct (lastWithId k _) as [frame|] eqn:Hlast; [|done].
    exists frame. by apply lastWithId_Some.
  - intros (frame & Hin & Hid).
    destruct (lastWithId k _) as [found|] eqn:Hlast; [by eexists|].
    exfalso. unfold lastWithId in Hlast.
    assert (frame ∈ filter (fun frame => Frame.frame_id frame = k)
                      (AnalysisResults.frameData r)) as Hfiltered
      by by apply list_elem_of_filter.
    destruct (filter _ _) as [|x l] using rev_ind.
    + by apply elem_of_nil in Hfiltered.
    + by rewrite last_snoc in Hlast.
Qed.

Lemma lastWithId_unique (frames : list Frame.t) (frame : Frame.t) :
  NoDup (map Frame.frame_id frames) ->
  frame ∈ frames ->
  lastWithId (Frame.frame_id frame) frames = Some frame.
Proof.
  intros Hnodup Hin.
  destruct (lastWithId (Frame.frame_id frame) frames) as [found|] eqn:Hlast.
  - apply lastWithId_Some in Hlast as [Hfound Hid]. f_equal.
    apply list_elem_of_lookup in Hfound as [i Hi].
    apply list_elem_of_lookup in Hin as [j Hj].
    assert (i = j) as ->.
    { eapply NoDup_lookup; [exact Hnodup| |].
      - rewrite list_lookup_fmap, Hi. reflexivity.
      - rewrite list_lookup_fmap, Hj. cbn. by rewrite Hid. }
    congruence.
  - exfalso.
    assert (is_Some (lastWithId (Frame.frame_id frame) frames)) as [? ?]; [|congruence].
    unfold lastWithId.
    assert (frame ∈ filter (fun f => Frame.frame_id f = Frame.frame_id frame) frames)
      as Hfiltered by by apply list_elem_of_filter.
    destruct (filter _ _) as [|x l] using rev_ind.
    + by apply elem_of_nil in Hfiltered.
    + rewrite last_snoc. by eexists.
Qed.

(** X2: when no two entries of [frame_data] share a frame id, looking up the
    id of any entry gives that entry's own players list (the empty list when
    the entry has none). *)
Theorem framePlayerMap_lookup_own_players (r : Results.body) (frame : Frame.t) :
  NoDup (map Frame.frame_id (AnalysisResults.frameData r)) ->
  frame ∈ AnalysisResults.frameData r ->
  AnalysisResults.framePlayerMap r !! Frame.frame_id frame
  = Some (default [] (Frame.players frame)).
Proof.
  intros Hnodup Hin.
  by rewrite framePlayerMap_lookup, (lastWithId_unique _ _ Hnodup Hin).
Qed.

Lemma framePlayerMap_lookup_own_players_witness :
  AnalysisResults.framePlayerMap MoreSamples.bodyDistinct !! 3 = Some [].
Proof.
  apply (framePlayerMap_lookup_own_players MoreSamples.bodyDistinct (Frame.mk 3 None)).
  - apply (bool_decide_unpack _). vm_compute. reflexivity.
  - do 2 apply list_elem_of_further. apply list_elem_of_here.
Defined.

(** X3: the players shown after a time update are never taken from another
    frame: a non-empty list of active players is the players list of an
    entry of [frame_data] whose id is the frame index of the playback
    time. *)
Theorem active_players_come_from_current_frame
    (r : Results.body) (refs : AnalysisResults.Refs)
    (videoEl : AnalysisResults.VideoEl) (st : AnalysisResults.State) :
  AnalysisResults.videoRef refs = Some videoEl ->
  AnalysisResults.activePlayers
    (AnalysisResults.updateActivePlayersForCurrentTime r refs st) ≠ [] ->
  ∃ frame,
    frame ∈ AnalysisResults.frameData r
    ∧ Frame.frame_id frame
      = AnalysisResults.frameIdAt r (AnalysisResults.currentTime videoEl)
    ∧ Frame.players frame
      = Some (AnalysisResults.activePlayers
                (AnalysisResults.updateActivePlayersForCurrentTime r refs st)).
Proof.
  intros Hvideo. unfold AnalysisResults.updateActivePlayersForCurrentTime.
  rewrite Hvideo. cbn. rewrite framePlayerMap_lookup.
  destruct (lastWithId _ _) as [frame|] eqn:Hlast; cbn; [|done].
  intros Hne. exists frame.
  apply lastWithId_Some in Hlast as [Hin Hid].
  repeat split; [done..|].
  destruct (Frame.players frame); [done|]. by destruct Hne.
Qed.

Lemma active_players_come_from_current_frame_witness :
  ∃ frame,
    frame ∈ AnalysisResults.frameData Sample.body
    ∧ Frame.frame_id frame = 1
    ∧ Frame.players frame = Some [Sample.receiver9; Sample.receiver7].
Proof.
  apply (active_players_come_from_current_frame Sample.body
           (Sample.refs (1 # 30) true) (Sample.video (1 # 30) true) (Sample.viewing []));
    [reflexivity | vm_compute; discriminate].
Defined.

Lemma floor_nonneg_mono (x y : Q) :
  (x <= y)%Q -> JS.floor_nonneg x <= JS.floor_nonneg y.
Proof.
  intros Hle. unfold JS.floor_nonneg.
  apply Z.max_le_compat_l. by apply Qfloor_resp_le.
Qed.

(** X4: the frame index is never negative, and with a non-negative frame
    rate it does not go backward as the playback time advances; in
    particular every time up to zero maps to frame 0. *)
Theorem frame_index_follows_time (r : Results.body) (t1 t2 : Q) :
  (0 <= AnalysisResults.fps r)%Q ->
  (t1 <= t2)%Q ->
  0 <= AnalysisResults.frameIdAt r t1
  ∧ AnalysisResults.frameIdAt r t1 <= AnalysisResults.frameIdAt r t2
  ∧ ((t2 <= 0)%Q -> AnalysisResults.frameIdAt r t1 = 0).
Proof.
  intros Hfps Hle. unfold AnalysisResults.frameIdAt, JS.mul.
  split; [apply Z.le_max_l|]. split.
  - apply floor_nonneg_mono, round_mono. by apply Qmult_le_compat_r.
  - intros Hneg. unfold JS.floor_nonneg.
    assert (t1 * AnalysisResults.fps r <= 0)%Q as Hprod.
    { rewrite <- (Qmult_0_l (AnalysisResults.fps r)).
      apply Qmult_le_compat_r; [|done]. by apply (Qle_trans _ t2). }
    apply round_nonpos, Qfloor_resp_le in Hprod.
    change (Qfloor 0) with 0 in Hprod. lia.
Qed.

Lemma frame_index_follows_time_witness :
  AnalysisResults.frameIdAt Sample.body (1 # 15)
  <= AnalysisResults.frameIdAt Sample.body (1 # 10).
Proof.
  apply (frame_index_follows_time Sample.body (1 # 15) (1 # 10));
    vm_compute; discriminate.
Defined.

(** ** The overlay *)

(** X5: moving the mouse never changes the list of active players, and a
    player hovered afterwards is always one of them. *)
Theorem hovered_player_is_active
    (r : Results.body) (refs : AnalysisResults.Refs)
    (event : AnalysisResults.MouseEvent) (st : AnalysisResults.State) :
  AnalysisResults.activePlayers (AnalysisResults.handleOverlayMouseMove r refs event st)
  = AnalysisResults.activePlayers st
  ∧ ∀ player,
      AnalysisResults.hoveredPlayer (AnalysisResults.handleOverlayMouseMove r refs event st)
      = Some player ->
      player ∈ AnalysisResults.activePlayers st.
Proof.
  unfold AnalysisResults.handleOverlayMouseMove.
  destruct (AnalysisResults.videoRef refs) as [videoEl|]; [|by split].
  destruct (AnalysisResults.overlayRef refs) as [rect|]; [|by split].
  destruct (negb (AnalysisResults.paused videoEl)); [by split|].
  destruct (AnalysisResults.cursorPoint r videoEl rect event) as [px py].
  destruct (List.find _ _) as [hit|] eqn:Hfind; [|by split].
  split; [done|]. cbn. intros player [= <-].
  apply find_some in Hfind as [Hin _]. by apply list_elem_of_In.
Qed.

Lemma div_by_zero (a b : Q) : (b == 0)%Q -> JS.div a b = None.
Proof.
  intros Hb. unfold JS.div.
  by rewrite (proj2 (Qeq_bool_iff b 0) Hb).
Qed.

(** X6: over an overlay without extent (zero width or zero height) nobody
    is hovered, whatever the players' boxes are. *)
Theorem no_hover_over_empty_overlay
    (r : Results.body) (refs : AnalysisResults.Refs) (rect : AnalysisResults.DOMRect)
    (event : AnalysisResults.MouseEvent) (st : AnalysisResults.State) :
  AnalysisResults.overlayRef refs = Some rect ->
  (AnalysisResults.width rect == 0)%Q ∨ (AnalysisResults.height rect == 0)%Q ->
  AnalysisResults.hoveredPlayer (AnalysisResults.handleOverlayMouseMove r refs event st)
  = None.
Proof.
  intros Hrect Hzero. unfold AnalysisResults.handleOverlayMouseMove.
  destruct (AnalysisResults.videoRef refs) as [videoEl|]; [|done].
  rewrite Hrect.
  destruct (negb (AnalysisResults.paused videoEl)); [done|].
  unfold AnalysisResults.cursorPoint.
  assert (List.find
            (AnalysisResults.inBox
               ((fun q => JS.mul q (AnalysisResults.nativeWidth r videoEl))
                  <$> JS.div (JS.sub (AnalysisResults.clientX event)
                                     (AnalysisResults.left rect))
                        (AnalysisResults.width rect))
               ((fun q => JS.mul q (AnalysisResults.nativeHeight r videoEl))
                  <$> JS.div (JS.sub (AnalysisResults.clientY event)
                                     (AnalysisResults.top rect))
                        (AnalysisResults.height rect)))
            (AnalysisResults.activePlayers st) = None) as ->; [|done].
  destruct Hzero as [Hw|Hh].
  - rewrite (div_by_zero _ _ Hw). cbn.
    induction (AnalysisResults.activePlayers st); [done|]. done.
  - rewrite (div_by_zero _ _ Hh). cbn.
    induction (AnalysisResults.activePlayers st) as [|p ps IH]; [done|].
    cbn. by destruct (JS.div _ _).
Qed.

Lemma no_hover_over_empty_overlay_witness :
  AnalysisResults.hoveredPlayer
    (AnalysisResults.handleOverlayMouseMove Sample.body
       (AnalysisResults.mkRefs (Some (Sample.video 0 true))
          (Some (AnalysisResults.mkRect 10 20 0 540)))
       Sample.mouse (Sample.viewing [Sample.receiver7; Sample.receiver9]))
  = None.
Proof.
  apply (no_hover_over_empty_overlay Sample.body
           (AnalysisResults.mkRefs (Some (Sample.video 0 true))
              (Some (AnalysisResults.mkRect 10 20 0 540)))
           (AnalysisResults.mkRect 10 20 0 540));
    [reflexivity | left; reflexivity].
Defined.

(** X7: when the move hits a player the tooltip is anchored at the cursor,
    relative to the overlay and 12 pixels right of and below it; when it
    hits nobody the stored position stays and no tooltip is drawn. *)
Theorem tooltip_follows_cursor
    (r : Results.body) (refs : AnalysisResults.Refs)
    (event : AnalysisResults.MouseEvent) (st : AnalysisResults.State) :
  let st' := AnalysisResults.handleOverlayMouseMove r refs event st in
  match AnalysisResults.hoveredPlayer st' with
  | Some player =>
      ∃ rect children,
        AnalysisResults.overlayRef refs = Some rect
        ∧ AnalysisResults.tooltip st'
          = [El "div" "player-tooltip"
               [("left",
                 CssNum (JS.add (JS.sub (AnalysisResults.clientX event)
                                        (AnalysisResults.left rect)) 12) "px");
                ("top",
                 CssNum (JS.add (JS.sub (AnalysisResults.clientY event)
                                        (AnalysisResults.top rect)) 12) "px")]
               children]
  | None =>
      AnalysisResults.tooltipPos st' = AnalysisResults.tooltipPos st
      ∧ AnalysisResults.tooltip st' = []
  end.
Proof.
  cbn zeta. unfold AnalysisResults.handleOverlayMouseMove, AnalysisResults.tooltip.
  destruct (AnalysisResults.videoRef refs) as [videoEl|]; [|by split].
  destruct (AnalysisResults.overlayRef refs) as [rect|]; [|by split].
  destruct (negb (AnalysisResults.paused videoEl)); [by split|].
  destruct (AnalysisResults.cursorPoint r videoEl rect event) as [px py].
  destruct (List.find _ _) as [hit|]; [|by split].
  cbn. by eexists rect, _.
Qed.

Lemma hoverBoxes_lookup (r : Results.body) (refs : AnalysisResults.Refs)
    (st : AnalysisResults.State) (i : nat) (box : node) :
  AnalysisResults.hoverBoxes r refs st !! i = Some box ->
  ∃ videoEl player x1 y1 x2 y2,
    AnalysisResults.videoRef refs = Some videoEl
    ∧ AnalysisResults.paused videoEl = true
    ∧ AnalysisResults.activePlayers st !! i = Some player
    ∧ Player.bbox player = (x1, y1, x2, y2)
    ∧ classNames box = ["player-hover-box"]
    ∧ styleRect box
      = Some (JS.mul (JS.quot x1 (AnalysisResults.nativeWidth r videoEl)) 100,
              JS.mul (JS.quot y1 (AnalysisResults.nativeHeight r videoEl)) 100,
              JS.mul (JS.quot (JS.sub x2 x1) (AnalysisResults.nativeWidth r videoEl)) 100,
              JS.mul (JS.quot (JS.sub y2 y1) (AnalysisResults.nativeHeight r videoEl)) 100).
Proof.
  unfold AnalysisResults.hoverBoxes.
  destruct (AnalysisResults.videoRef refs) as [videoEl|]; [|done].
  destruct (AnalysisResults.paused videoEl) eqn:Hpaused; [|done].
  cbn [when]. rewrite list_lookup_fmap.
  destruct (AnalysisResults.activePlayers st !! i) as [player|]; [|done].
  cbn. destruct (Player.bbox player) as [[[x1 y1] x2] y2] eqn:Hbbox.
  intros [= <-]. by exists videoEl, player, x1, y1, x2, y2.
Qed.

(** X8: whoever is hovered has a box on screen.  A player hovered after a
    mouse move is one of the active players, the video is paused, and the
    box drawn at that player's place in the list is there to be seen. *)
Theorem hovered_player_has_a_box
    (r : Results.body) (refs : AnalysisResults.Refs)
    (event : AnalysisResults.MouseEvent) (st : AnalysisResults.State) :
  let st' := AnalysisResults.handleOverlayMouseMove r refs event st in
  ∀ player,
    AnalysisResults.hoveredPlayer st' = Some player ->
    ∃ i box,
      AnalysisResults.activePlayers st' !! i = Some player
      ∧ AnalysisResults.hoverBoxes r refs st' !! i = Some box
      ∧ classNames box = ["player-hover-box"].
Proof.
  cbn zeta. intros player.
  unfold AnalysisResults.handleOverlayMouseMove, AnalysisResults.hoverBoxes.
  destruct (AnalysisResults.videoRef refs) as [videoEl|]; [|done].
  destruct (AnalysisResults.overlayRef refs) as [rect|]; [|done].
  destruct (AnalysisResults.paused videoEl); [|done]. cbn [negb when].
  destruct (AnalysisResults.cursorPoint r videoEl rect event) as [px py].
  destruct (List.find _ _) as [hit|] eqn:Hfind; [|done].
  cbn. intros [= <-].
  apply find_some in Hfind as [Hin _].
  apply list_elem_of_In, list_elem_of_lookup in Hin as [i Hi].
  exists i. rewrite list_lookup_fmap, Hi. cbn.
  destruct (Player.bbox hit) as [[[x1 y1] x2] y2]. by eexists.
Qed.

Lemma hovered_player_has_a_box_witness :
  ∃ i box,
    AnalysisResults.activePlayers
      (AnalysisResults.handleOverlayMouseMove Sample.body (Sample.refs 0 true)
         Sample.mouse (Sample.viewing [Sample.receiver7; Sample.receiver9])) !! i
    = Some Sample.receiver7
    ∧ AnalysisResults.hoverBoxes Sample.body (Sample.refs 0 true)
        (AnalysisResults.handleOverlayMouseMove Sample.body (Sample.refs 0 true)
           Sample.mouse (Sample.viewing [Sample.receiver7; Sample.receiver9])) !! i
      = Some box
    ∧ classNames box = ["player-hover-box"].
Proof.
  apply (hovered_player_has_a_box Sample.body (Sample.refs 0 true) Sample.mouse
           (Sample.viewing [Sample.receiver7; Sample.receiver9]) Sample.receiver7).
  by vm_compute.
Defined.

Lemma round_1 : Double.round 1 = 1%Q.
Proof. by vm_compute. Qed.

Lemma round_100 : Double.round 100 = 100%Q.
Proof. by vm_compute. Qed.

(** A part of a positive whole comes out between 0 and 100 per cent. *)
Lemma percent_bounds (a w : Q) :
  (0 < w)%Q -> (0 <= a)%Q -> (a <= w)%Q ->
  (0 <= JS.mul (JS.quot a w) 100 <= 100)%Q.
Proof.
  intros Hw Ha Haw. unfold JS.mul, JS.quot.
  assert (H0 : (0 <= a / w)%Q).
  { apply Qle_shift_div_l; [done|]. by rewrite Qmult_0_l. }
  assert (H1 : (a / w <= 1)%Q).
  { apply Qle_shift_div_r; [done|]. by rewrite Qmult_1_l. }
  pose proof (round_nonneg _ H0) as R0.
  pose proof (round_mono _ _ H1) as R1. rewrite round_1 in R1.
  split.
  - apply round_nonneg. lra.
  - rewrite <- round_100 at 2. apply round_mono. lra.
Qed.

(** X9: a box that lies within the frame is drawn within the overlay: for
    0 <= x1 <= x2 <= width and 0 <= y1 <= y2 <= height of the pixel space,
    each of its offsets and each of its extents comes out between 0 and
    100 per cent. *)
Theorem box_within_frame_stays_within_overlay
    (r : Results.body) (refs : AnalysisResults.Refs) (st : AnalysisResults.State)
    (videoEl : AnalysisResults.VideoEl)
    (i : nat) (player : Player.t) (box : node) (x1 y1 x2 y2 : Q) :
  AnalysisResults.videoRef refs = Some videoEl ->
  AnalysisResults.activePlayers st !! i = Some player ->
  AnalysisResults.hoverBoxes r refs st !! i = Some box ->
  Player.bbox player = (x1, y1, x2, y2) ->
  (0 < AnalysisResults.nativeWidth r videoEl)%Q ->
  (0 < AnalysisResults.nativeHeight r videoEl)%Q ->
  isDouble (AnalysisResults.nativeWidth r videoEl) ->
  isDouble (AnalysisResults.nativeHeight r videoEl) ->
  (0 <= x1)%Q -> (x1 <= x2)%Q -> (x2 <= AnalysisResults.nativeWidth r videoEl)%Q ->
  (0 <= y1)%Q -> (y1 <= y2)%Q -> (y2 <= AnalysisResults.nativeHeight r videoEl)%Q ->
  ∃ l t w h,
    styleRect box = Some (l, t, w, h)
    ∧ (0 <= l <= 100)%Q ∧ (0 <= w <= 100)%Q
    ∧ (0 <= t <= 100)%Q ∧ (0 <= h <= 100)%Q.
Proof.
  intros Hvideo Hplayer Hbox Hbbox HW HH DW DH Hx1 Hx12 Hx2 Hy1 Hy12 Hy2.
  apply hoverBoxes_lookup in Hbox
    as (videoEl' & player' & a1 & b1 & a2 & b2 & Hvideo' & _ & Hplayer' & Hbbox'
        & _ & Hstyle).
  assert (videoEl' = videoEl) as -> by congruence.
  assert (player' = player) as -> by congruence.
  assert (a1 = x1 ∧ b1 = y1 ∧ a2 = x2 ∧ b2 = y2) as (-> & -> & -> & ->)
    by (rewrite Hbbox in Hbbox'; by inversion Hbbox').
  eexists _, _, _, _. split; [exact Hstyle|].
  assert (Hextent : ∀ a b w : Q, isDouble w -> (0 <= a)%Q -> (a <= b)%Q -> (b <= w)%Q ->
            (0 <= JS.sub b a)%Q ∧ (JS.sub b a <= w)%Q).
  { intros a b w Dw Ha Hab Hbw. unfold JS.sub. split.
    - apply round_nonneg. lra.
    - unfold isDouble in Dw. apply (Qle_trans _ (Double.round w)).
      + apply round_mono. lra.
      + rewrite Dw. apply Qle_refl. }
  destruct (Hextent x1 x2 _ DW Hx1 Hx12 Hx2) as [? ?].
  destruct (Hextent y1 y2 _ DH Hy1 Hy12 Hy2) as [? ?].
  repeat split; apply percent_bounds; (done || lra).
Qed.

Lemma box_within_frame_stays_within_overlay_witness :
  ∃ l t w h,
    styleRect
      (El "div" "player-hover-box"
          [("left", CssNum (JS.mul (JS.quot 100 1920) 100) "%");
           ("top", CssNum (JS.mul (JS.quot 100 1080) 100) "%");
           ("width", CssNum (JS.mul (JS.quot (JS.sub 200 100) 1920) 100) "%");
           ("height", CssNum (JS.mul (JS.quot (JS.sub 300 100) 1080) 100) "%")] [])
    = Some (l, t, w, h)
    ∧ (0 <= l <= 100)%Q ∧ (0 <= w <= 100)%Q
    ∧ (0 <= t <= 100)%Q ∧ (0 <= h <= 100)%Q.
Proof.
  apply (box_within_frame_stays_within_overlay Sample.body (Sample.refs 0 true)
           (Sample.viewing [Sample.receiver7; Sample.receiver9])
           (Sample.video 0 true) 0 Sample.receiver7 _ 100 100 200 300);
    try reflexivity; vm_compute; (discriminate || reflexivity).
Defined.

(** Offset and extent are rounded separately, so that their sum can pass
    100 per cent by a rounding error: a box from 4 to the right edge of a
    frame 1920 wide ends a little beyond the overlay. *)
Example box_end_is_rounded :
  (100 < JS.mul (JS.quot 4 1920) 100 + JS.mul (JS.quot (JS.sub 1920 4) 1920) 100)%Q.
Proof. by vm_compute. Qed.

(** ** Rendering the result *)

Lemma render_outcome
    (results : option Results.t) (refs : AnalysisResults.Refs)
    (st : AnalysisResults.State) :
  match results ≫= Results.results with
  | None => AnalysisResults.render results refs st = Some []
  | Some r =>
      is_Some (AnalysisResults.render results refs st)
      ↔ ∃ feedback, Results.feedback r = Some feedback ∧ feedbackComplete feedback
  end.
Proof.
  unfold AnalysisResults.render.
  destruct (results ≫= Results.results) as [r|]; [|done].
  unfold feedbackComplete. split.
  - intros [out Hout].
    destruct (Results.feedback r) as [feedback|]; [|done].
    exists feedback. split; [done|]. cbn in Hout.
    destruct (Feedback.statistics feedback) as [statistics|]; [|done]. cbn in Hout |- *.
    destruct (Statistics.avg_openscore_all_receivers statistics); [|done].
    destruct (Feedback.strengths feedback); [|done].
    destruct (Feedback.areas_for_improvement feedback); [|done].
    destruct (Feedback.recommendations feedback); [|done].
    destruct (Feedback.best_options feedback); [|done].
    destruct (Feedback.missed_opportunities feedback); [|done].
    destruct (Feedback.key_moments feedback); [|done].
    repeat split; by eexists.
  - intros (feedback & -> & [avg Havg] & [? Hs] & [? Ha] & [? Hr] & [? Hb] & [? Hm] & [? Hk]).
    cbn. destruct (Feedback.statistics feedback) as [statistics|]; [|done].
    cbn in Havg |- *. rewrite Havg. cbn.
    rewrite Hs, Ha, Hr, Hb, Hm, Hk. cbn. by eexists.
Qed.


(** X10: the first viewer renders nothing when there are no results, and
    otherwise renders without error exactly when the payload carries the
    feedback with its statistics, their average and all six lists; any of
    them missing makes the whole render fail. *)
Theorem render_succeeds_iff_feedback_complete
    (results : option Results.t) (refs : AnalysisResults.Refs)
    (st : AnalysisResults.State) :
  match results ≫= Results.results with
  | None => AnalysisResults.render results refs st = Some []
  | Some r =>
      is_Some (AnalysisResults.render results refs st)
      ↔ ∃ feedback, Results.feedback r = Some feedback ∧ feedbackComplete feedback
  end.
Proof. apply render_outcome. Qed.

(** ** The explanation in the tooltip *)

Lemma contextExplanation_truthy (ctx : PlayerContext.t) :
  JS.truthy_str (AnalysisResultsAI.contextExplanation ctx) = true.
Proof.
  unfold AnalysisResultsAI.contextExplanation.
  repeat match goal with |- context [if ?b then _ else _] => destruct b end;
    reflexivity.
Qed.

Lemma getPlayerTooltipExplanation_cases (feedback : Feedback.t) (player : Player.t) :
  AnalysisResultsAI.getPlayerTooltipExplanation feedback player
  = match aiExplanationOf feedback player with
    | Some text => Some text
    | None =>
        AnalysisResultsAI.contextExplanation
          <$> AnalysisResultsAI.playerContexts feedback !! playerKey player
    end.
Proof.
  unfold AnalysisResultsAI.getPlayerTooltipExplanation, aiExplanationOf, playerKey.
  destruct (AnalysisResultsAI.aiOpenscoreExplanations feedback !! _) as [text|]; [|done].
  by destruct (JS.truthy_str text).
Qed.

Lemma explanation_truthy (feedback : Feedback.t) (player : Player.t) (text : string) :
  AnalysisResultsAI.getPlayerTooltipExplanation feedback player = Some text ->
  JS.truthy_str text = true.
Proof.
  rewrite getPlayerTooltipExplanation_cases. unfold aiExplanationOf.
  destruct (AnalysisResultsAI.aiOpenscoreExplanations feedback !! _) as [ai|].
  - destruct (JS.truthy_str ai) eqn:Hai; [by intros [= <-]|].
    destruct (_ !! _); [|done]. intros [= <-]. apply contextExplanation_truthy.
  - destruct (_ !! _); [|done]. intros [= <-]. apply contextExplanation_truthy.
Qed.

(** X11: a generated explanation that is not empty always wins: the tooltip
    of that player shows it, whether or not a context is filed for the
    player too. *)
Theorem generated_explanation_is_preferred
    (feedback : Feedback.t) (st : AnalysisResults.State)
    (player : Player.t) (text : string) :
  AnalysisResults.hoveredPlayer st = Some player ->
  AnalysisResultsAI.aiOpenscoreExplanations feedback !! playerKey player = Some text ->
  JS.truthy_str text = true ->
  AnalysisResultsAI.getPlayerTooltipExplanation feedback player = Some text
  ∧ el "div" "tooltip-ai-explanation" [Text text]
    ∈ match AnalysisResultsAI.tooltip feedback st with
      | [El _ _ _ children] => children
      | _ => []
      end.
Proof.
  intros Hhover Hai Htext.
  assert (AnalysisResultsAI.getPlayerTooltipExplanation feedback player = Some text)
    as Hexpl.
  { rewrite getPlayerTooltipExplanation_cases. unfold aiExplanationOf.
    by rewrite Hai, Htext. }
  split; [done|].
  unfold AnalysisResultsAI.tooltip. rewrite Hhover, Hexpl, Htext. cbn [when].
  apply elem_of_app; right. apply list_elem_of_here.
Qed.

Lemma generated_explanation_is_preferred_witness :
  AnalysisResultsAI.getPlayerTooltipExplanation MoreSamples.feedbackExplained
    Sample.receiver9
  = Some "Breaking free on the post route.".
Proof.
  apply (generated_explanation_is_preferred MoreSamples.feedbackExplained
           (hovering Sample.receiver9 (Sample.viewing []))
           Sample.receiver9 "Breaking free on the post route.");
    reflexivity.
Defined.

(** X12: the tooltip has an explanation line exactly when the hovered
    player has a non-empty generated explanation or a filed context; with
    neither, the line is left out. *)
Theorem explanation_line_iff_available
    (feedback : Feedback.t) (st : AnalysisResults.State) (player : Player.t) :
  AnalysisResults.hoveredPlayer st = Some player ->
  "tooltip-ai-explanation"
    ∈ flat_map classNames (AnalysisResultsAI.tooltip feedback st)
  ↔ is_Some (aiExplanationOf feedback player)
    ∨ is_Some (AnalysisResultsAI.playerContexts feedback !! playerKey player).
Proof.
  intros Hhover. unfold AnalysisResultsAI.tooltip. rewrite Hhover.
  pose proof (explanation_truthy feedback player) as Htruthy.
  rewrite getPlayerTooltipExplanation_cases in Htruthy |- *.
  destruct (aiExplanationOf feedback player) as [text|].
  - rewrite (Htruthy text eq_refl). cbn.
    split; [intros _; left; by eexists|intros _].
    rewrite !elem_of_cons. tauto.
  - destruct (_ !! playerKey player) as [ctx|]; cbn.
    + rewrite (Htruthy _ eq_refl). cbn.
      split; [intros _; right; by eexists|intros _].
      rewrite !elem_of_cons. tauto.
    + split.
      * rewrite !elem_of_cons, elem_of_nil. intros Hin.
        repeat destruct Hin as [Hin|Hin]; done.
      * intros [[? ?]|[? ?]]; done.
Qed.

Lemma explanation_line_iff_available_witness :
  "tooltip-ai-explanation"
    ∈ flat_map classNames
        (AnalysisResultsAI.tooltip Sample.feedback
           (hovering Sample.receiver9 (Sample.viewing [])))
  ↔ is_Some (aiExplanationOf Sample.feedback Sample.receiver9)
    ∨ is_Some (AnalysisResultsAI.playerContexts Sample.feedback
                 !! playerKey Sample.receiver9).
Proof.
  apply (explanation_line_iff_available Sample.feedback
           (hovering Sample.receiver9 (Sample.viewing [])) Sample.receiver9).
  reflexivity.
Defined.

(** ** Score bands *)

Lemma Qle_bool_weaken (a b s : Q) :
  (a <= b)%Q -> Qle_bool b s = true -> Qle_bool a s = true.
Proof.
  rewrite !Qle_bool_iff. intros Hab Hbs. by apply (Qle_trans _ b).
Qed.

(** X13: label and colour of a score never disagree: green goes only with
    "Open" or "Wide Open" and every "Wide Open" is green; red goes only
    with "Covered" or "Locked Down" and every "Locked Down" is red. *)
Theorem score_label_agrees_with_colour (score : Q) :
  (AnalysisResultsAI.getScoreColor score = "#22c55e" ->
   AnalysisResultsAI.getScoreLabel score = "Wide Open"
   ∨ AnalysisResultsAI.getScoreLabel score = "Open")
  ∧ (AnalysisResultsAI.getScoreLabel score = "Wide Open" ->
     AnalysisResultsAI.getScoreColor score = "#22c55e")
  ∧ (AnalysisResultsAI.getScoreColor score = "#ef4444" ->
     AnalysisResultsAI.getScoreLabel score = "Covered"
     ∨ AnalysisResultsAI.getScoreLabel score = "Locked Down")
  ∧ (AnalysisResultsAI.getScoreLabel score = "Locked Down" ->
     AnalysisResultsAI.getScoreColor score = "#ef4444").
Proof.
  unfold AnalysisResultsAI.getScoreColor, AnalysisResultsAI.getScoreLabel.
  pose proof (Qle_bool_weaken 70 80 score) as H78.
  pose proof (Qle_bool_weaken 60 70 score) as H67.
  pose proof (Qle_bool_weaken 50 60 score) as H56.
  pose proof (Qle_bool_weaken 40 50 score) as H45.
  pose proof (Qle_bool_weaken 30 40 score) as H34.
  pose proof (Qle_bool_weaken 20 30 score) as H23.
  destruct (Qle_bool 80 score), (Qle_bool 70 score), (Qle_bool 60 score),
    (Qle_bool 50 score), (Qle_bool 40 score), (Qle_bool 30 score),
    (Qle_bool 20 score);
    repeat split; intros; try discriminate; auto;
    try (discriminate (H78 ltac:(done) eq_refl));
    try (discriminate (H67 ltac:(done) eq_refl));
    try (discriminate (H56 ltac:(done) eq_refl));
    try (discriminate (H45 ltac:(done) eq_refl));
    try (discriminate (H34 ltac:(done) eq_refl));
    try (discriminate (H23 ltac:(done) eq_refl)).
Qed.

(** ** Feedback sections *)

Lemma flat_map_imap_classes {A} (item : nat -> A -> node) (l : list A)
    (allowed : list string) (c : string) :
  (∀ i x c, c ∈ classNames (item i x) -> c ∈ allowed) ->
  c ∈ flat_map classNames (imap item l) -> c ∈ allowed.
Proof.
  intros Hitem Hin.
  apply list_elem_of_In, in_flat_map in Hin as (n & Hn & Hc).
  apply list_elem_of_In, elem_of_lookup_imap in Hn as (i & x & -> & _).
  apply (Hitem i x). by apply list_elem_of_In.
Qed.

Lemma listSection_classes {A} (className title listTag listClass : string)
    (item : nat -> A -> node) (l : list A) (allowed : list string) (c : string) :
  (∀ i x c, c ∈ classNames (item i x) -> c ∈ allowed) ->
  c ∈ flat_map classNames
        (AnalysisResults.listSection className title listTag listClass item l) ->
  l ≠ [] ∧ (c = className ∨ c = "" ∨ c = listClass ∨ c ∈ allowed).
Proof.
  intros Hitem. unfold AnalysisResults.listSection.
  destruct l as [|x l]; [by intros ?%elem_of_nil|].
  cbn [length Nat.ltb Nat.leb when flat_map classNames el].
  rewrite !app_nil_r. intros Hin. split; [done|].
  apply elem_of_cons in Hin as [->|Hin]; [by left|].
  apply elem_of_cons in Hin as [->|Hin]; [by right; left|].
  apply elem_of_cons in Hin as [->|Hin]; [by right; right; left|].
  right; right; right. by apply (flat_map_imap_classes item (x :: l)).
Qed.

Lemma listSection_shown {A} (className title listTag listClass : string)
    (item : nat -> A -> node) (l : list A) :
  l ≠ [] ->
  className ∈ flat_map classNames
                (AnalysisResults.listSection className title listTag listClass item l).
Proof.
  destruct l as [|x l]; [done|]. intros _. apply list_elem_of_here.
Qed.

Lemma textItem_classes (i : nat) (s c : string) :
  c ∈ classNames (AnalysisResults.textItem i s) -> c ∈ [""].
Proof. done. Qed.

Lemma optionCard_classes (i : nat) (option : BestOption.t) (c : string) :
  c ∈ classNames (AnalysisResults.optionCard i option) ->
  c ∈ ["option-card"; "option-rank"; "option-receiver"; "option-stats";
       "option-stat"; "label"; "value"].
Proof. cbn. rewrite !elem_of_cons, !elem_of_nil. tauto. Qed.

Lemma missedCard_classes (i : nat) (missed : Missed.t) (c : string) :
  c ∈ classNames (AnalysisResults.missedCard i missed) ->
  c ∈ ["missed-card"; "missed-receiver"; "missed-stats"; ""; "missed-note"].
Proof. cbn. rewrite !elem_of_cons, !elem_of_nil. tauto. Qed.

Lemma momentCard_classes (i : nat) (moment : Moment.t) (c : string) :
  c ∈ classNames (AnalysisResults.momentCard i moment) ->
  c ∈ ["moment-card"; "moment-frame"; "moment-description"; "moment-score"].
Proof. cbn. rewrite !elem_of_cons, !elem_of_nil. tauto. Qed.

(** X14: in a successful render each of the six feedback sections is part
    of the output exactly when its list is not empty. *)
Theorem section_shown_iff_list_nonempty
    (results : Results.t) (r : Results.body) (feedback : Feedback.t)
    (refs : AnalysisResults.Refs) (st : AnalysisResults.State)
    (out : list node) (c : string) (n : nat) :
  Results.results results = Some r ->
  Results.feedback r = Some feedback ->
  AnalysisResults.render (Some results) refs st = Some out ->
  (c, Some n) ∈ sectionSizes feedback ->
  c ∈ flat_map classNames out ↔ n ≠ 0%nat.
Proof.
  intros Hres Hfb. unfold AnalysisResults.render. cbn [mbind option_bind].
  rewrite Hres. cbn [mbind option_bind]. rewrite Hfb. cbn [mbind option_bind].
  destruct (Feedback.statistics feedback) as [statistics|]; [|done]. cbn [mbind option_bind].
  destruct (Statistics.avg_openscore_all_receivers statistics) as [avg|]; [|done].
  cbn [mbind option_bind]. unfold sectionSizes.
  destruct (Feedback.strengths feedback) as [l1|]; [|done].
  destruct (Feedback.areas_for_improvement feedback) as [l2|]; [|done].
  destruct (Feedback.recommendations feedback) as [l3|]; [|done].
  destruct (Feedback.best_options feedback) as [l4|]; [|done].
  destruct (Feedback.missed_opportunities feedback) as [l5|]; [|done].
  destruct (Feedback.key_moments feedback) as [l6|]; [|done].
  cbn [mbind option_bind fmap option_fmap option_map].
  intros [= <-] Hc.
  pose proof (listSection_shown "feedback-section strengths" "💪 Strengths" "ul" ""
                AnalysisResults.textItem l1) as S1.
  pose proof (listSection_shown "feedback-section improvements" "📈 Areas for Improvement"
                "ul" "" AnalysisResults.textItem l2) as S2.
  pose proof (listSection_shown "recommendations-section" "💡 Recommendations" "ul"
                "recommendations-list" AnalysisResults.textItem l3) as S3.
  pose proof (listSection_shown "best-options-section" "🎯 Best Passing Options" "div"
                "options-grid" AnalysisResults.optionCard l4) as S4.
  pose proof (listSection_shown "missed-section" "⚠️ Missed Opportunities" "div"
                "missed-list" AnalysisResults.missedCard l5) as S5.
  pose proof (listSection_shown "key-moments-section" "⭐ Key Moments" "div"
                "moments-list" AnalysisResults.momentCard l6) as S6.
  pose proof (listSection_classes "feedback-section strengths" "💪 Strengths" "ul" ""
                AnalysisResults.textItem l1 _ c (fun i x c => textItem_classes i x c)) as C1.
  pose proof (listSection_classes "feedback-section improvements" "📈 Areas for Improvement"
                "ul" "" AnalysisResults.textItem l2 _ c
                (fun i x c => textItem_classes i x c)) as C2.
  pose proof (listSection_classes "recommendations-section" "💡 Recommendations" "ul"
                "recommendations-list" AnalysisResults.textItem l3 _ c
                (fun i x c => textItem_classes i x c)) as C3.
  pose proof (listSection_classes "best-options-section" "🎯 Best Passing Options" "div"
                "options-grid" AnalysisResults.optionCard l4 _ c
                (fun i x c => optionCard_classes i x c)) as C4.
  pose proof (listSection_classes "missed-section" "⚠️ Missed Opportunities" "div"
                "missed-list" AnalysisResults.missedCard l5 _ c
                (fun i x c => missedCard_classes i x c)) as C5.
  pose proof (listSection_classes "key-moments-section" "⭐ Key Moments" "div"
                "moments-list" AnalysisResults.momentCard l6 _ c
                (fun i x c => momentCard_classes i x c)) as C6.
  pose proof (hoverBoxes_classes r refs st c) as Cboxes.
  pose proof (tooltip_classes st c) as Ctip.
  set (sec1 := AnalysisResults.listSection _ _ _ _ _ l1) in *.
  set (sec2 := AnalysisResults.listSection _ _ _ _ _ l2) in *.
  set (sec3 := AnalysisResults.listSection _ _ _ _ _ l3) in *.
  set (sec4 := AnalysisResults.listSection _ _ _ _ _ l4) in *.
  set (sec5 := AnalysisResults.listSection _ _ _ _ _ l5) in *.
  set (sec6 := AnalysisResults.listSection _ _ _ _ _ l6) in *.
  set (boxes := AnalysisResults.hoverBoxes r refs st) in *.
  set (tip := AnalysisResults.tooltip st) in *.
  repeat (progress cbn [flat_map classNames el AnalysisResults.statCard app]
          || rewrite flat_map_app || rewrite app_nil_r).
  repeat (rewrite elem_of_app || rewrite (elem_of_cons _ c)).
  split.
  - intros Hin.
    assert (c ∈ flat_map classNames sec1 ∨ c ∈ flat_map classNames sec2
            ∨ c ∈ flat_map classNames sec3 ∨ c ∈ flat_map classNames sec4
            ∨ c ∈ flat_map classNames sec5 ∨ c ∈ flat_map classNames sec6) as Hsection.
    { clear S1 S2 S3 S4 S5 S6 C1 C2 C3 C4 C5 C6.
      repeat (apply elem_of_cons in Hc as [Hc|Hc]; [injection Hc as -> _|]);
        try (by apply elem_of_nil in Hc);
        repeat match type of Hin with _ ∨ _ => destruct Hin as [Hin|Hin] end;
        try discriminate Hin; try (by apply elem_of_nil in Hin); auto 10;
        try (apply Cboxes in Hin; discriminate Hin);
        try (apply Ctip in Hin; refute_class). }
    clear Hin Cboxes Ctip S1 S2 S3 S4 S5 S6.
    repeat (apply elem_of_cons in Hc as [Hc|Hc]; [injection Hc as -> ->|]);
      try (by apply elem_of_nil in Hc);
      destruct Hsection as [Hs|[Hs|[Hs|[Hs|[Hs|Hs]]]]];
      first [apply C1 in Hs | apply C2 in Hs | apply C3 in Hs
            | apply C4 in Hs | apply C5 in Hs | apply C6 in Hs];
      clear C1 C2 C3 C4 C5 C6; refute_class.
  - intros Hn. clear C1 C2 C3 C4 C5 C6 Cboxes Ctip.
    repeat (apply elem_of_cons in Hc as [Hc|Hc]; [injection Hc as -> ->|]);
      try (by apply elem_of_nil in Hc).
    + assert (l1 ≠ []) as H1 by by destruct l1. apply S1 in H1. pick_disjunct H1.
    + assert (l2 ≠ []) as H2 by by destruct l2. apply S2 in H2. pick_disjunct H2.
    + assert (l3 ≠ []) as H3 by by destruct l3. apply S3 in H3. pick_disjunct H3.
    + assert (l4 ≠ []) as H4 by by destruct l4. apply S4 in H4. pick_disjunct H4.
    + assert (l5 ≠ []) as H5 by by destruct l5. apply S5 in H5. pick_disjunct H5.
    + assert (l6 ≠ []) as H6 by by destruct l6. apply S6 in H6. pick_disjunct H6.
Qed.

Lemma section_shown_iff_list_nonempty_witness :
  "best-options-section"
    ∈ flat_map classNames
        (default []
           (AnalysisResults.render (Some (Results.mk (Some MoreSamples.bodyExplained)))
              (Sample.refs 0 true) (Sample.viewing [])))
  ↔ 1%nat ≠ 0%nat.
Proof.
  apply (section_shown_iff_list_nonempty
           (Results.mk (Some MoreSamples.bodyExplained)) MoreSamples.bodyExplained
           MoreSamples.feedbackExplained (Sample.refs 0 true) (Sample.viewing []));
    [reflexivity | reflexivity | reflexivity |].
  do 3 apply list_elem_of_further. apply list_elem_of_here.
Defined.

(** ** The upload widget *)

Lemma notifyError_effects (props : VideoUpload.Props) (msg : string) :
  VideoUpload.notifyError props msg
  = if VideoUpload.onUploadError props then [VideoUpload.OnUploadError msg] else [].
Proof. reflexivity. Qed.

Lemma axios_text_truthy (err : AxiosError.t) (fallback : string) :
  JS.truthy_str fallback = true -> JS.truthy_str (AxiosError.text err fallback) = true.
Proof.
  intros Hfallback. unfold AxiosError.text.
  by do 2 apply undef_or_str_truthy.
Qed.

(** X15: a drop sends at most one upload request, however many files were
    accepted; when it sends one the widget has left the uploading state by
    the end of the handler, whether the request succeeded or failed, and
    when it sends none the uploading state is not touched. *)
Theorem upload_state_is_always_released
    (props : VideoUpload.Props)
    (uploadVideo : File.t -> UploadResponse.t + AxiosError.t)
    (acceptedFiles : list File.t) (rejectedFiles : list FileRejection.t)
    (isUploading : bool) :
  let effects := VideoUpload.onDrop props uploadVideo acceptedFiles rejectedFiles in
  (uploadRequests effects <= 1)%nat
  ∧ VideoUploadView.isUploadingAfter isUploading effects
    = if Nat.eqb (uploadRequests effects) 1 then false else isUploading.
Proof.
  cbn zeta. unfold VideoUpload.onDrop, VideoUpload.notifyError.
  destruct rejectedFiles as [|rejection rest].
  - destruct acceptedFiles as [|file others];
      [split; vm_compute; (reflexivity || lia)|].
    destruct (uploadVideo file) as [response|err];
      [destruct (VideoUpload.onUploadSuccess props)
      |destruct (VideoUpload.onUploadError props)];
      split; vm_compute; (reflexivity || lia).
  - destruct (FileRejection.errors rejection) as [|error others];
      [split; vm_compute; (reflexivity || lia)|].
    destruct (String.eqb (FileError.code error) "file-invalid-type");
      [|destruct (String.eqb (FileError.code error) "too-many-files")];
      destruct (VideoUpload.onUploadError props);
      split; vm_compute; (reflexivity || lia).
Qed.

(** X16: an upload that succeeds leaves no error on the widget, whatever
    was shown before; it hands the response to the parent when the parent
    listens, and reports no error to it. *)
Theorem successful_upload_clears_error
    (props : VideoUpload.Props)
    (uploadVideo : File.t -> UploadResponse.t + AxiosError.t)
    (file : File.t) (others : list File.t) (response : UploadResponse.t)
    (previousError : option string) :
  uploadVideo file = inl response ->
  let effects := VideoUpload.onDrop props uploadVideo (file :: others) [] in
  VideoUpload.uploadErrorAfter previousError effects = None
  ∧ (VideoUpload.OnUploadSuccess response ∈ effects
     ↔ VideoUpload.onUploadSuccess props = true)
  ∧ ∀ msg, VideoUpload.OnUploadError msg ∉ effects.
Proof.
  intros Hok. cbn zeta. unfold VideoUpload.onDrop. rewrite Hok.
  destruct (VideoUpload.onUploadSuccess props); cbn.
  - repeat split; [by rewrite !elem_of_cons; tauto|].
    intros msg. rewrite !elem_of_cons, elem_of_nil. intros Hin.
    repeat destruct Hin as [Hin|Hin]; done.
  - repeat split; [|done|].
    + rewrite !elem_of_cons, elem_of_nil. intros Hin.
      repeat destruct Hin as [Hin|Hin]; done.
    + intros msg. rewrite !elem_of_cons, elem_of_nil. intros Hin.
      repeat destruct Hin as [Hin|Hin]; done.
Qed.

Lemma successful_upload_clears_error_witness :
  VideoUpload.uploadErrorAfter (Some "Only MP4 files are allowed")
    (VideoUpload.onDrop Sample.props Sample.uploadVideo [Sample.clip] [])
  = None.
Proof.
  apply (successful_upload_clears_error Sample.props Sample.uploadVideo Sample.clip []
           (UploadResponse.mk (Some "task-1") (Some "queued"))
           (Some "Only MP4 files are allowed")).
  reflexivity.
Defined.

(** X17: an upload that fails always leaves a non-empty error on the
    widget: the server's detail, else the error's message, else "Upload
    failed"; the same text goes to the parent when it listens, and the
    success callback is not called. *)
Theorem failed_upload_reports_reason
    (props : VideoUpload.Props)
    (uploadVideo : File.t -> UploadResponse.t + AxiosError.t)
    (file : File.t) (others : list File.t) (err : AxiosError.t)
    (previousError : option string) :
  uploadVideo file = inr err ->
  let effects := VideoUpload.onDrop props uploadVideo (file :: others) [] in
  let reason := AxiosError.text err "Upload failed" in
  VideoUpload.uploadErrorAfter previousError effects = Some reason
  ∧ JS.truthy_str reason = true
  ∧ (VideoUpload.OnUploadError reason ∈ effects
     ↔ VideoUpload.onUploadError props = true)
  ∧ ∀ response, VideoUpload.OnUploadSuccess response ∉ effects.
Proof.
  intros Hfail. cbn zeta. unfold VideoUpload.onDrop. rewrite Hfail.
  rewrite notifyError_effects.
  split; [|split; [by apply axios_text_truthy|]].
  - by destruct (VideoUpload.onUploadError props).
  - destruct (VideoUpload.onUploadError props); cbn.
    + split; [by rewrite !elem_of_cons; tauto|].
      intros response. rewrite !elem_of_cons, elem_of_nil. intros Hin.
      repeat destruct Hin as [Hin|Hin]; done.
    + split; [split; [|done]|].
      * rewrite !elem_of_cons, elem_of_nil. intros Hin.
        repeat destruct Hin as [Hin|Hin]; done.
      * intros response. rewrite !elem_of_cons, elem_of_nil. intros Hin.
        repeat destruct Hin as [Hin|Hin]; done.
Qed.

Lemma failed_upload_reports_reason_witness :
  VideoUpload.uploadErrorAfter None
    (VideoUpload.onDrop Sample.props MoreSamples.uploadFails [Sample.clip] [])
  = Some "Network Error".
Proof.
  apply (failed_upload_reports_reason Sample.props MoreSamples.uploadFails Sample.clip []
           (AxiosError.mk None (Some "Network Error")) None).
  reflexivity.
Defined.

Lemma rejection_effects
    (props : VideoUpload.Props)
    (uploadVideo : File.t -> UploadResponse.t + AxiosError.t)
    (acceptedFiles : list File.t)
    (rejection : FileRejection.t) (rest : list FileRejection.t)
    (error : FileError.t) (others : list FileError.t) (init : option string) :
  FileRejection.errors rejection = error :: others ->
  uploadRequests (VideoUpload.onDrop props uploadVideo acceptedFiles (rejection :: rest))
  = 0%nat
  ∧ VideoUpload.uploadErrorAfter init
      (VideoUpload.onDrop props uploadVideo acceptedFiles (rejection :: rest))
    = Some (rejectionMessage error).
Proof.
  intros Herrors. unfold VideoUpload.onDrop, rejectionMessage.
  rewrite Herrors, notifyError_effects.
  destruct (String.eqb (FileError.code error) "file-invalid-type");
    [|destruct (String.eqb (FileError.code error) "too-many-files")];
    destruct (VideoUpload.onUploadError props); by split.
Qed.

Lemma widget_error_shown (isUploading isDragActive : bool) (msg : string) :
  JS.truthy_str msg = true ->
  "error-message" ∈ classNames (VideoUploadView.render isUploading isDragActive (Some msg))
  ∧ Text msg ∈ leaves (VideoUploadView.render isUploading isDragActive (Some msg)).
Proof.
  intros Hmsg. unfold VideoUploadView.render. cbn [JS.truthy_opt_str]. rewrite Hmsg.
  cbn [when default]. unfold el.
  repeat (progress cbn [classNames leaves flat_map app]
          || rewrite flat_map_app || rewrite app_nil_r).
  split.
  - repeat (rewrite elem_of_app || rewrite elem_of_cons). tauto.
  - repeat (rewrite elem_of_app || rewrite elem_of_cons). tauto.
Qed.

(** X18: after a drop with a rejected file the widget, drawn from the state
    the handler leaves, shows the error line with the rejection's message
    (when that message is not empty) and is not in its uploading state. *)
Theorem rejected_drop_shows_message
    (props : VideoUpload.Props)
    (uploadVideo : File.t -> UploadResponse.t + AxiosError.t)
    (acceptedFiles : list File.t)
    (rejection : FileRejection.t) (rest : list FileRejection.t)
    (error : FileError.t) (others : list FileError.t)
    (previousError : option string) (isDragActive : bool) :
  FileRejection.errors rejection = error :: others ->
  JS.truthy_str (rejectionMessage error) = true ->
  let effects := VideoUpload.onDrop props uploadVideo acceptedFiles (rejection :: rest) in
  let widget :=
    VideoUploadView.render (VideoUploadView.isUploadingAfter false effects) isDragActive
      (VideoUpload.uploadErrorAfter previousError effects) in
  "error-message" ∈ classNames widget
  ∧ Text (rejectionMessage error) ∈ leaves widget
  ∧ "spinner" ∉ classNames widget.
Proof.
  intros Herrors Hmsg. cbn zeta.
  destruct (rejection_effects props uploadVideo acceptedFiles
              rejection rest error others previousError Herrors) as [Hno ->].
  assert (VideoUploadView.isUploadingAfter false
            (VideoUpload.onDrop props uploadVideo acceptedFiles (rejection :: rest))
          = false) as ->.
  { unfold VideoUpload.onDrop. rewrite Herrors, notifyError_effects.
    destruct (String.eqb (FileError.code error) "file-invalid-type");
      [|destruct (String.eqb (FileError.code error) "too-many-files")];
      destruct (VideoUpload.onUploadError props); reflexivity. }
  destruct (widget_error_shown false isDragActive _ Hmsg) as [Hclass Htext].
  split; [done|]. split; [done|].
  unfold VideoUploadView.render. cbn [JS.truthy_opt_str]. rewrite Hmsg.
  destruct isDragActive; cbn; rewrite !elem_of_cons, elem_of_nil; intros Hin;
    repeat destruct Hin as [Hin|Hin]; done.
Qed.

Lemma rejected_drop_shows_message_witness :
  Text "Only MP4 files are allowed"
    ∈ leaves
        (VideoUploadView.render
           (VideoUploadView.isUploadingAfter false
              (VideoUpload.onDrop Sample.props Sample.uploadVideo [Sample.clip]
                 [Sample.rejectedNotes]))
           false
           (VideoUpload.uploadErrorAfter None
              (VideoUpload.onDrop Sample.props Sample.uploadVideo [Sample.clip]
                 [Sample.rejectedNotes]))).
Proof.
  apply (rejected_drop_shows_message Sample.props Sample.uploadVideo [Sample.clip]
           Sample.rejectedNotes [] Sample.invalidType [] None false);
    reflexivity.
Defined.

(** ** Upload progress *)

Lemma round_100_quarter : Double.round (401 # 4) = (401 # 4)%Q.
Proof. by vm_compute. Qed.

(** X19: the upload percentage is left alone when no positive total is
    known; with a positive total it stays between 0 and 100 as long as the
    reported bytes are not negative and do not exceed the total. *)
Theorem upload_percentage_is_bounded
    (file : File.t) (progressEvent : VideoUploadProgress.ProgressEvent)
    (uploadProgress : Z) :
  let total := VideoUploadProgress.totalOf file progressEvent in
  let after := VideoUploadProgress.onUploadProgress file progressEvent uploadProgress in
  (total <= 0 -> after = uploadProgress)
  ∧ (0 < total -> 0 <= VideoUploadProgress.loaded progressEvent <= total ->
     0 <= after <= 100).
Proof.
  cbn zeta. unfold VideoUploadProgress.onUploadProgress.
  set (total := VideoUploadProgress.totalOf file progressEvent).
  set (loaded := VideoUploadProgress.loaded progressEvent).
  split.
  - intros Hnone. by rewrite (proj2 (Z.ltb_ge 0 total) Hnone).
  - intros Hpos [Hlow Hhigh]. rewrite (proj2 (Z.ltb_lt 0 total) Hpos).
    unfold VideoUploadProgress.round, JS.quot, JS.mul.
    assert (HT : (1 <= inject_Z total)%Q) by (rewrite <- (Zle_Qle 1); lia).
    assert (HL0 : (0 <= inject_Z loaded)%Q) by (by rewrite <- (Zle_Qle 0)).
    assert (HLT : (inject_Z loaded <= inject_Z total)%Q) by (by rewrite <- Zle_Qle).
    set (T := inject_Z total) in *. set (L := inject_Z loaded) in *.
    set (a := Double.round (L * 100)).
    assert (Ha0 : (0 <= a)%Q) by (apply round_nonneg; lra).
    assert (Ha : (a <= T * 100 + T * 100 * (1 # 9007199254740992))%Q).
    { apply (Qle_trans _ (Double.round (T * 100))).
      - apply round_mono. lra.
      - apply round_relative. lra. }
    assert (Hq0 : (0 <= a / T)%Q).
    { apply Qle_shift_div_l; [lra|]. by rewrite Qmult_0_l. }
    assert (Hq : (a / T <= 401 # 4)%Q).
    { apply Qle_shift_div_r; [lra|]. lra. }
    pose proof (round_nonneg _ Hq0) as Hv0.
    pose proof (round_mono _ _ Hq) as Hv. rewrite round_100_quarter in Hv.
    split.
    + change 0 with (Qfloor (0 + (1 # 2))). apply Qfloor_resp_le. lra.
    + change 100 with (Qfloor ((401 # 4) + (1 # 2))). apply Qfloor_resp_le. lra.
Qed.

Example upload_percentage_samples :
  VideoUploadProgress.onUploadProgress Sample.clip
    (VideoUploadProgress.mkEvent 512 None) 0 = 50
  ∧ VideoUploadProgress.onUploadProgress Sample.clip
      (VideoUploadProgress.mkEvent 1 (Some 3)) 0 = 33
  ∧ VideoUploadProgress.onUploadProgress (File.mk "empty.mp4" "video/mp4" 0)
      (VideoUploadProgress.mkEvent 0 (Some 0)) 7 = 7
  ∧ VideoUploadProgress.onUploadProgress (File.mk "empty.mp4" "video/mp4" 0)
      (VideoUploadProgress.mkEvent 200 None) 7 = 7.
Proof. repeat split; by vm_compute. Qed.

(** ** The page *)

(** X20: of the upload widget, the processing card and the results at most
    one is mounted, in every state. *)
Theorem panels_exclude_each_other (s : App.State) :
  App.uploadVisible s && App.processingVisible s = false
  ∧ App.uploadVisible s && App.resultsVisible s = false
  ∧ App.processingVisible s && App.resultsVisible s = false.
Proof.
  unfold App.uploadVisible, App.processingVisible, App.resultsVisible.
  destruct (JS.truthy_opt_str (App.taskId s)), (App.statusIs (App.status s) "completed"),
    (App.results s); cbn; done.
Qed.

Lemma pollStatus_results getStatus getResults (s : App.State) :
  App.polling s = true ->
  pollingInvariant s ->
  resultsInvariant s ->
  resultsInvariant (App.pollStatus getStatus getResults s).
Proof.
  intros Hp Hpoll Hres.
  destruct (Hpoll Hp) as [Htask Hopen].
  assert (App.results s = None) as Hnone.
  { destruct (App.results s) eqn:Hr; [|done].
    destruct Hres as [_ Hdone]; [by eexists|].
    unfold App.terminal in Hopen. by rewrite Hdone in Hopen. }
  unfold App.pollStatus, resultsInvariant.
  destruct getStatus as [statusData|err]; cbn; [|by rewrite Hnone; intros [? ?]].
  destruct (App.statusIs (StatusData.status statusData) "completed") eqn:Hdone.
  - destruct getResults; cbn; [done|]. rewrite Hnone. by intros [? ?].
  - destruct (App.statusIs (StatusData.status statusData) "failed");
      cbn; rewrite Hnone; by intros [? ?].
Qed.

Lemma commit_resultsInvariant (prev next : App.State) :
  resultsInvariant next -> resultsInvariant (App.commit prev next).
Proof.
  unfold resultsInvariant.
  by destruct (commit_fields prev next) as (-> & -> & -> & _).
Qed.

Lemma step_resultsInvariant (s : App.State) (e : App.event) :
  pollingInvariant s -> resultsInvariant s -> orderly s [e] ->
  resultsInvariant (App.step s e).
Proof.
  intros Hpoll Hres [Horder _].
  destruct e as [getStatus getResults|getStatus getResults|statusData|getResults
                |response|msg|];
    cbn [App.step]; [| done | done | done | | |].
  - by apply commit_resultsInvariant, pollStatus_results.
  - apply commit_resultsInvariant. by intros [? ?].
  - apply commit_resultsInvariant. exact Hres.
  - destruct (_ || _); [|done]. apply commit_resultsInvariant. by intros [? ?].
Qed.

Lemma orderly_invariants (history : list App.event) (s : App.State) :
  pollingInvariant s -> resultsInvariant s -> orderly s history ->
  pollingInvariant (App.run s history) ∧ resultsInvariant (App.run s history).
Proof.
  revert s. induction history as [|e history IH]; intros s Hpoll Hres Horder; [done|].
  destruct Horder as [He Hrest]. unfold App.run. cbn [foldl]. apply IH.
  - by apply step_invariant.
  - by apply step_resultsInvariant.
  - exact Hrest.
Qed.

Lemma reachable_invariants (s : App.State) : reachable s -> pollingInvariant s.
Proof.
  intros [history ->]. apply run_invariant, initial_invariant.
Qed.

Lemma reachable_step (s : App.State) (e : App.event) :
  reachable s -> reachable (App.step s e).
Proof.
  intros [history ->]. exists (history ++ [e])%list. unfold App.run. by rewrite foldl_app.
Qed.

(** X21: as long as every response to a status request arrives while the
    interval that sent the request is armed, the results are mounted
    exactly when results are held, and held results always belong to a
    task whose status is completed. *)
Theorem results_shown_iff_held (history : list App.event) :
  orderly App.initial history ->
  let s := App.run App.initial history in
  (is_Some (App.results s) ↔ App.resultsVisible s = true)
  ∧ (is_Some (App.results s) ->
     App.status s = Some "completed" ∧ JS.truthy_opt_str (App.taskId s) = true).
Proof.
  intros Horder. cbn zeta. set (s := App.run App.initial history).
  assert (Hres : resultsInvariant s).
  { apply orderly_invariants; [apply initial_invariant | by intros [? ?] | done]. }
  unfold App.resultsVisible. split.
  - split.
    + intros Hsome. destruct (Hres Hsome) as [_ ->].
      by rewrite bool_decide_eq_true_2.
    + intros [Hsome _]%andb_true_iff. by apply bool_decide_eq_true in Hsome.
  - intros Hsome. destruct (Hres Hsome) as [Htask Hdone]. split; [|done].
    unfold App.statusIs in Hdone. destruct (App.status s) as [v|]; [|done].
    by apply String.eqb_eq in Hdone as ->.
Qed.

Lemma results_shown_iff_held_witness :
  is_Some (App.results (App.run App.initial Sample.completingRun))
  ↔ App.resultsVisible (App.run App.initial Sample.completingRun) = true.
Proof.
  apply (results_shown_iff_held Sample.completingRun).
  repeat split; reflexivity.
Defined.

(** A response that was overtaken breaks this: after the session in which
    the answer [processing] arrives behind the answer [completed], results
    are held but not shown, and the processing card is back. *)
Example overtaken_response_hides_results :
  let c := Session.run Session.initial
             (Sample.overtakingSession ++ [Sample.overtakenAnswer]) in
  let s := Session.page c in
  s = App.run App.initial (Sample.overtakenRun ++ [Sample.overtaken])
  ∧ ¬ orderly App.initial (Sample.overtakenRun ++ [Sample.overtaken])
  ∧ is_Some (App.results s)
  ∧ App.resultsVisible s = false
  ∧ App.processingVisible s = true.
Proof.
  cbn zeta. split; [by vm_compute|]. split; [|by vm_compute; eauto].
  intros (_ & _ & Harmed & _). vm_compute in Harmed. discriminate Harmed.
Qed.

(** X22: a reset, whenever a reset button is on the page, brings the page
    back to its initial state: no task, no status, no results, no error,
    progress 0 and no polling. *)
Theorem reset_restores_initial_state (s : App.State) :
  reachable s ->
  App.resultsVisible s || App.errorVisible s = true ->
  App.step s App.Reset = App.initial.
Proof.
  intros Hreach Hbutton. pose proof (reachable_invariants s Hreach) as Hpoll.
  cbn [App.step]. rewrite Hbutton. unfold App.commit.
  case_bool_decide as Hdeps.
  - destruct Hdeps as [Htask _]. cbn in Htask.
    destruct (App.polling s) eqn:Hp.
    + destruct (Hpoll Hp) as [Htruthy _]. by rewrite Htask in Htruthy.
    + unfold App.handleReset, App.setProgress, App.setError, App.setResults,
        App.setStatus, App.setTaskId. cbn. by rewrite Hp.
  - reflexivity.
Qed.

Lemma reset_restores_initial_state_witness :
  App.step (App.run App.initial Sample.failingRun) App.Reset = App.initial.
Proof.
  apply (reset_restores_initial_state (App.run App.initial Sample.failingRun));
    [exists Sample.failingRun; reflexivity | reflexivity].
Defined.

(** X23: when a status request of the armed interval fails, the polling
    ends: task, status, progress and results stay as they were, the
    interval is cleared and a non-empty error is shown with the retry
    button.  When that request was the only one in flight, nothing but a
    reset changes the session afterwards. *)
Theorem poll_error_stops_polling (c : Session.t) (i : nat) (err : AxiosError.t) :
  inSession c ->
  App.polling (Session.page c) = true ->
  Session.inFlight c !! i = Some (Session.GetStatus true) ->
  let s := Session.page c in
  let c' := Session.step c (Session.StatusArrives i (inr err)) in
  let s' := Session.page c' in
  App.taskId s' = App.taskId s
  ∧ App.status s' = App.status s
  ∧ App.progress s' = App.progress s
  ∧ App.results s' = App.results s
  ∧ App.polling s' = false
  ∧ App.error s' = Some (AxiosError.text err "Failed to get status")
  ∧ App.errorVisible s' = true
  ∧ (Session.inFlight c = [Session.GetStatus true] ->
     ∀ later : list Session.event,
       Forall (fun e => Session.isReset e = false) later ->
       Session.run c' later = c').
Proof.
  intros Hin Hp Hi. cbn zeta.
  destruct (session_invariant c Hin Hp) as [Htask _].
  cbn [Session.step]. rewrite Hi. cbn [Session.completed App.statusArrived].
  unfold App.commit. rewrite bool_decide_eq_true_2 by done.
  cbn [Session.settle Session.page].
  split; [done|]. split; [done|]. split; [done|]. split; [done|].
  split; [done|]. split; [done|].
  split; [unfold App.errorVisible; cbn; by apply axios_text_truthy|].
  intros Hone later Hreset. apply idle_run; cbn [Session.page Session.inFlight].
  - exact Htask.
  - done.
  - rewrite Hone in Hi |- *. destruct i as [|i]; [done|]. by destruct i.
  - by left.
Qed.

Lemma poll_error_stops_polling_witness :
  App.polling
    (Session.page
       (Session.step
          (Session.run Session.initial
             [Session.Drop; Sample.answered "queued"; Session.Tick])
          (Session.StatusArrives 0 (inr (AxiosError.mk None (Some "Network Error"))))))
  = false.
Proof.
  apply (poll_error_stops_polling
           (Session.run Session.initial
              [Session.Drop; Sample.answered "queued"; Session.Tick])
           0 (AxiosError.mk None (Some "Network Error")));
    [eexists; reflexivity | reflexivity | reflexivity].
Defined.

(** Results of an earlier poll may still be held when a status request is
    answered: after a response that was overtaken has reopened the
    status, the page polls again with the results in place, and a failure
    to fetch them anew leaves the old ones mounted beside the error. *)
Example earlier_results_survive_fetch_failure :
  let c := Session.run Session.initial
             (Sample.overtakingSession ++ [Sample.overtakenAnswer]) in
  let c' := Session.run c
              [Session.Tick;
               Session.StatusArrives 0 (inl (Sample.answers "completed" 100 None));
               Session.ResultsArrive 0 Sample.noResults] in
  App.polling (Session.page c) = true
  ∧ is_Some (App.results (Session.page c))
  ∧ App.resultsVisible (Session.page c') = true
  ∧ App.errorVisible (Session.page c') = true.
Proof. cbn zeta. split; [|split; [|split]]; vm_compute; eauto. Qed.



Lemma upload_success_state (s : App.State) (response : UploadResponse.t) :
  reachable s ->
  App.uploadVisible s = true ->
  let s' := App.step s (App.UploadSuccess response) in
  App.taskId s' = UploadResponse.task_id response
  ∧ App.status s' = UploadResponse.status response
  ∧ App.error s' = None
  ∧ App.results s' = None
  ∧ App.progress s' = 0%Q
  ∧ App.polling s'
    = App.shouldPoll (UploadResponse.task_id response) (UploadResponse.status response).
Proof.
  intros Hreach Hvisible. cbn zeta.
  pose proof (reachable_invariants s Hreach) as Hpoll.
  assert (JS.truthy_opt_str (App.taskId s) = false) as Hnotask.
  { unfold App.uploadVisible in Hvisible.
    apply andb_true_iff in Hvisible as [Hv _]. by apply negb_true_iff in Hv. }
  assert (App.polling s = false) as Hp.
  { destruct (App.polling s) eqn:Hp; [|done].
    destruct (Hpoll Hp) as [Htask _]. congruence. }
  cbn [App.step].
  destruct (commit_fields s (App.handleUploadSuccess response s))
    as (-> & -> & -> & -> & ->).
  repeat split.
  unfold App.commit. case_bool_decide as Hdeps; cbn; [|done].
  destruct Hdeps as [Htask Hstatus]. cbn in Htask, Hstatus.
  rewrite Hp, <- Htask. unfold App.shouldPoll. by rewrite Hnotask.
Qed.


(** X25: after a successful upload the page holds the task id and status of
    the response, no error, no results and progress 0, and it polls exactly
    when the response carries a task id and a status other than completed
    or failed. *)
Theorem upload_success_starts_polling (s : App.State) (response : UploadResponse.t) :
  reachable s ->
  App.uploadVisible s = true ->
  let s' := App.step s (App.UploadSuccess response) in
  App.taskId s' = UploadResponse.task_id response
  ∧ App.status s' = UploadResponse.status response
  ∧ App.error s' = None
  ∧ App.results s' = None
  ∧ App.progress s' = 0%Q
  ∧ App.polling s'
    = App.shouldPoll (UploadResponse.task_id response) (UploadResponse.status response).
Proof. apply upload_success_state. Qed.

Lemma upload_success_starts_polling_witness :
  App.polling (App.step App.initial Sample.uploaded) = true.
Proof.
  apply (upload_success_starts_polling App.initial
           (UploadResponse.mk (Some "task-1") (Some "queued")));
    [exists []; reflexivity | reflexivity].
Defined.

(** X26: an upload answered with a task id and the status completed leaves
    the page without any panel, error or reset button; when the upload was
    the only request in flight, no event changes the session any more. *)
Theorem completed_upload_response_is_dead_end
    (c : Session.t) (i : nat) (mounted : bool) (response : UploadResponse.t) :
  inSession c ->
  Session.inFlight c !! i = Some (Session.Upload mounted) ->
  JS.truthy_opt_str (UploadResponse.task_id response) = true ->
  UploadResponse.status response = Some "completed" ->
  let c' := Session.step c (Session.UploadArrives i (inl response)) in
  let s' := Session.page c' in
  App.uploadVisible s' = false
  ∧ App.processingVisible s' = false
  ∧ App.resultsVisible s' = false
  ∧ App.errorVisible s' = false
  ∧ App.polling s' = false
  ∧ (Session.inFlight c = [Session.Upload mounted] ->
     ∀ later : list Session.event, Session.run c' later = c').
Proof.
  intros Hin Hi Htask Hstatus. cbn zeta.
  pose proof (session_invariant c Hin) as Hinv.
  cbn [Session.step]. rewrite Hi. cbn [Session.settle Session.page].
  set (s := Session.page c) in *.
  set (s' := App.commit s (App.handleUploadSuccess response s)).
  destruct (commit_fields s (App.handleUploadSuccess response s))
    as (Hf1 & Hf2 & Hf3 & Hf4 & _).
  fold s' in Hf1, Hf2, Hf3, Hf4.
  change (App.taskId s' = UploadResponse.task_id response) in Hf1.
  change (App.status s' = UploadResponse.status response) in Hf2.
  change (App.results s' = None) in Hf3.
  change (App.error s' = None) in Hf4.
  assert (App.polling s' = false) as Hp.
  { unfold s', App.commit. case_bool_decide as Hdeps; cbn.
    - destruct Hdeps as [_ Hsame]. cbn in Hsame.
      destruct (App.polling s) eqn:Harmed; [|done].
      destruct (Hinv Harmed) as [_ Hopen]. by rewrite Hsame, Hstatus in Hopen.
    - unfold App.shouldPoll. rewrite Hstatus. apply andb_false_r. }
  assert (App.uploadVisible s' = false) as Hu
    by (unfold App.uploadVisible; by rewrite Hf1, Htask).
  assert (App.resultsVisible s' = false) as Hr
    by (unfold App.resultsVisible; by rewrite Hf3).
  assert (App.errorVisible s' = false) as He
    by (unfold App.errorVisible; by rewrite Hf4).
  split; [done|].
  split; [unfold App.processingVisible; rewrite Hf2, Hstatus; apply andb_false_r|].
  split; [done|]. split; [done|]. split; [done|].
  intros Hone later. apply idle_run.
  - change (JS.truthy_opt_str (App.taskId s') = true). by rewrite Hf1.
  - exact Hp.
  - cbn [Session.inFlight]. rewrite Hone in Hi |- *.
    destruct i as [|i]; [done|]. by destruct i.
  - right. change (App.resultsVisible s' || App.errorVisible s' = false).
    by rewrite Hr, He.
Qed.

Lemma completed_upload_response_is_dead_end_witness :
  Session.run
    (Session.step (Session.run Session.initial [Session.Drop])
       (Sample.answered "completed"))
    [Session.ResetClick; Session.Drop; Session.Tick; Sample.answered "queued"]
  = Session.step (Session.run Session.initial [Session.Drop])
      (Sample.answered "completed").
Proof.
  apply (completed_upload_response_is_dead_end
           (Session.run Session.initial [Session.Drop]) 0 true
           (UploadResponse.mk (Some "task-1") (Some "completed")));
    [eexists; reflexivity | reflexivity | reflexivity | reflexivity | reflexivity].
Defined.

(** A status request of an earlier task that is still in flight does wake
    such a page: the first task fails while a second status request is in
    flight, the user resets and uploads again, and the upload is answered
    with [completed] at once; the late [processing] for the first task
    then brings the processing card back and arms the interval. *)
Example late_response_leaves_dead_end :
  let c := Session.run Session.initial Sample.secondTaskSession in
  let c' := Session.step c
              (Session.StatusArrives 0 (inl (Sample.answers "processing" 60 None))) in
  Session.inFlight c = [Session.GetStatus false]
  ∧ App.taskId (Session.page c) = Some "task-2"
  ∧ App.polling (Session.page c) = false
  ∧ App.processingVisible (Session.page c) = false
  ∧ App.taskId (Session.page c') = Some "task-2"
  ∧ App.processingVisible (Session.page c') = true
  ∧ App.polling (Session.page c') = true.
Proof. cbn zeta. repeat split; by vm_compute. Qed.



(** ** The generated summary *)

Lemma matchesHere_inv (s : string) :
  AnalysisResultsAIPage.matchesHere s = true ->
  ∃ d tail, s = "Receiver #" +:+ String d tail ∧ AnalysisResultsAIPage.isDigit d = true.
Proof.
  unfold AnalysisResultsAIPage.matchesHere.
  do 10 (destruct s as [|? s]; [done|];
         cbn [AnalysisResultsAIPage.stripPrefix];
         match goal with
         | |- context [Ascii.eqb ?a ?b] =>
             destruct (Ascii.eqb_spec a b) as [<-|]; [|done]
         end).
  cbn. destruct s as [|d tail]; [done|]. intros Hd. by exists d, tail.
Qed.

Lemma matchesHere_intro (d : Ascii.ascii) (tail : string) :
  AnalysisResultsAIPage.isDigit d = true ->
  AnalysisResultsAIPage.matchesHere ("Receiver #" +:+ String d tail) = true.
Proof. intros Hd. exact Hd. Qed.

Lemma copied_char (c : Ascii.ascii) (s out : string) :
  String c "" ≠ "r" ->
  AnalysisResultsAIPage.replaceFrom 0 false s = String c out ->
  ∃ s', s = String c s' ∧ out = AnalysisResultsAIPage.replaceFrom 0 false s'.
Proof.
  intros Hc. destruct s as [|x s]; [done|].
  cbn [AnalysisResultsAIPage.replaceFrom andb].
  destruct (AnalysisResultsAIPage.matchesHere (String x s)).
  - cbn. intros [= <- _]. by destruct Hc.
  - intros [= -> <-]. by exists s.
Qed.

Lemma copied_r (c : Ascii.ascii) (s out : string) :
  String c "" ≠ "e" ->
  AnalysisResultsAIPage.replaceFrom 0 false s = "r" +:+ String c out ->
  ∃ s', s = "r" +:+ s'
        ∧ String c out = AnalysisResultsAIPage.replaceFrom 0 false s'.
Proof.
  intros Hc Hout. change ("r" +:+ String c out) with ("r" +:+ "" +:+ String c out) in Hout.
  destruct s as [|x s]; [done|].
  cbn [AnalysisResultsAIPage.replaceFrom andb] in Hout.
  destruct (AnalysisResultsAIPage.matchesHere (String x s)).
  - cbn in Hout. injection Hout as <- _. by destruct Hc.
  - cbn in Hout. injection Hout as -> Hout. exists s. by split.
Qed.

Lemma digit_is_not_r (d : Ascii.ascii) :
  AnalysisResultsAIPage.isDigit d = true -> String d "" ≠ "r".
Proof. by intros Hd [= ->]. Qed.

Lemma copied_pattern_tail (d : Ascii.ascii) (s tail : string) :
  AnalysisResultsAIPage.isDigit d = true ->
  AnalysisResultsAIPage.replaceFrom 0 false s = "eceiver #" +:+ String d tail ->
  ∃ s', s = "eceiver #" +:+ String d s'.
Proof.
  intros Hd Hout. cbn in Hout.
  apply copied_char in Hout as (s1 & -> & Hout); [|done]. symmetry in Hout.
  apply copied_char in Hout as (s2 & -> & Hout); [|done]. symmetry in Hout.
  apply copied_char in Hout as (s3 & -> & Hout); [|done]. symmetry in Hout.
  apply copied_char in Hout as (s4 & -> & Hout); [|done]. symmetry in Hout.
  apply copied_char in Hout as (s5 & -> & Hout); [|done]. symmetry in Hout.
  apply copied_char in Hout as (s6 & -> & Hout); [|done]. symmetry in Hout.
  apply copied_r in Hout as (s7 & -> & Hout); [|done]. symmetry in Hout.
  apply copied_char in Hout as (s8 & -> & Hout); [|done]. symmetry in Hout.
  apply copied_char in Hout as (s9 & -> & Hout); [|done]. symmetry in Hout.
  apply copied_char in Hout as (s10 & -> & Hout); [|by apply digit_is_not_r].
  by exists s10.
Qed.

Lemma replaceFrom_noMatch (s : string) (skip : nat) (inDigits : bool) :
  AnalysisResultsAIPage.noMatch (AnalysisResultsAIPage.replaceFrom skip inDigits s) = true.
Proof.
  revert skip inDigits. induction s as [|c rest IH]; intros skip inDigits; [done|].
  cbn [AnalysisResultsAIPage.replaceFrom].
  destruct skip as [|k]; [|apply IH].
  destruct (inDigits && AnalysisResultsAIPage.isDigit c); [apply IH|].
  destruct (AnalysisResultsAIPage.matchesHere (String c rest)) eqn:Hhere.
  - cbn. apply IH.
  - cbn [AnalysisResultsAIPage.noMatch]. rewrite IH, andb_true_r.
    apply negb_true_iff.
    destruct (AnalysisResultsAIPage.matchesHere
                (String c (AnalysisResultsAIPage.replaceFrom 0 false rest))) eqn:Hout;
      [|done].
    apply matchesHere_inv in Hout as (d & tail & Heq & Hd).
    cbn in Heq. injection Heq as -> Heq.
    apply (copied_pattern_tail d rest tail Hd) in Heq as [s' ->].
    assert (true = false) as Habs; [|done].
    rewrite <- Hhere. symmetry. exact (matchesHere_intro d s' Hd).
Qed.

Lemma replaceFrom_unmatched (s : string) :
  AnalysisResultsAIPage.noMatch s = true ->
  AnalysisResultsAIPage.replaceFrom 0 false s = s.
Proof.
  induction s as [|c rest IH]; [done|].
  cbn [AnalysisResultsAIPage.noMatch AnalysisResultsAIPage.replaceFrom andb].
  intros [Hhere Hrest]%andb_true_iff.
  apply negb_true_iff in Hhere. rewrite Hhere. by rewrite IH.
Qed.

(** X28: after the replacement no "Receiver #" followed by a digit is left
    anywhere in the text; a text without such a mention is returned
    unchanged, so replacing twice is the same as replacing once. *)
Theorem receiver_numbers_are_removed (s : string) :
  AnalysisResultsAIPage.noMatch (AnalysisResultsAIPage.replaceReceiverNumbers s) = true
  ∧ (AnalysisResultsAIPage.noMatch s = true ->
     AnalysisResultsAIPage.replaceReceiverNumbers s = s)
  ∧ AnalysisResultsAIPage.replaceReceiverNumbers
      (AnalysisResultsAIPage.replaceReceiverNumbers s)
    = AnalysisResultsAIPage.replaceReceiverNumbers s.
Proof.
  unfold AnalysisResultsAIPage.replaceReceiverNumbers.
  split; [apply replaceFrom_noMatch|]. split; [apply replaceFrom_unmatched|].
  apply replaceFrom_unmatched, replaceFrom_noMatch.
Qed.

Example replaceReceiverNumbers_sample :
  AnalysisResultsAIPage.replaceReceiverNumbers
    "Receiver #12 beat Receiver #3; Receiver # and Receiver #x, Receiver #7Receiver #88."
  = "receiver beat receiver; Receiver # and Receiver #x, receiverreceiver.".
Proof. vm_compute. reflexivity. Qed.

(** X29: the AI-enhanced viewer needs nothing but the feedback object:
    a payload whose feedback lacks the statistics or one of the lists makes
    the first viewer fail, while the AI-enhanced viewer still renders it. *)
Theorem ai_page_tolerates_incomplete_feedback
    (results : Results.t) (r : Results.body) (feedback : Feedback.t)
    (ai : FeedbackAI.t) (refs : AnalysisResults.Refs) (st : AnalysisResults.State) :
  Results.results results = Some r ->
  Results.feedback r = Some feedback ->
  ¬ feedbackComplete feedback ->
  AnalysisResults.render (Some results) refs st = None
  ∧ is_Some (AnalysisResultsAIPage.render (Some results) ai st).
Proof.
  intros Hres Hfb Hincomplete. split.
  - pose proof (render_outcome (Some results) refs st) as Hout.
    cbn [mbind option_bind] in Hout. rewrite Hres in Hout.
    destruct (AnalysisResults.render (Some results) refs st) as [out|] eqn:Hrender;
      [|done].
    destruct (proj1 Hout) as (feedback' & Hfb' & Hcomplete); [by eexists|].
    destruct Hincomplete. congruence.
  - unfold AnalysisResultsAIPage.render. cbn [mbind option_bind]. rewrite Hres.
    cbn [mbind option_bind]. rewrite Hfb. cbn. eexists. reflexivity.
Qed.

Lemma ai_page_tolerates_incomplete_feedback_witness :
  AnalysisResults.render (Some (Results.mk (Some MoreSamples.bodyGradeOnly)))
    (Sample.refs 0 true) (Sample.viewing [])
  = None.
Proof.
  apply (ai_page_tolerates_incomplete_feedback
           (Results.mk (Some MoreSamples.bodyGradeOnly)) MoreSamples.bodyGradeOnly
           (Feedback.mk "C" 61 "Receiver #4 was open late." None None None None None
                        None None None None)
           (FeedbackAI.mk (Some "Receiver #4 was open late.") None None None)
           (Sample.refs 0 true) (Sample.viewing []));
    [reflexivity | reflexivity |].
  intros [[avg Havg] _]. discriminate Havg.
Defined.

(** X30: beside the grade the AI-enhanced viewer shows the generated
    summary, with the receiver numbers replaced, whenever that summary is
    not empty, and the plain summary of the feedback otherwise; never
    both. *)
Theorem grade_summary_prefers_generated_text (feedback : Feedback.t) (ai : FeedbackAI.t) :
  let shown := leaves (AnalysisResultsAIPage.gradeSummary feedback ai) in
  match FeedbackAI.ai_summary ai with
  | Some text =>
      if JS.truthy_str text
      then ∃ shownText,
             shown = [Text "🤖 AI Analysis"; Text shownText]
             ∧ shownText = AnalysisResultsAIPage.replaceReceiverNumbers text
             ∧ AnalysisResultsAIPage.noMatch shownText = true
      else shown = [Text (Feedback.summary feedback)]
  | None => shown = [Text (Feedback.summary feedback)]
  end.
Proof.
  cbn zeta. unfold AnalysisResultsAIPage.gradeSummary, AnalysisResultsAIPage.aiSummary.
  destruct (FeedbackAI.ai_summary ai) as [text|]; cbn [JS.undef_or_str]; [|done].
  destruct (JS.truthy_str text) eqn:Htext.
  - rewrite Htext. eexists. split; [reflexivity|]. split; [reflexivity|].
    apply replaceFrom_noMatch.
  - done.
Qed.
